(** * RTSP/RTP video server: a shallow embedding of [rtsp_server.py]

    The development follows the layout of the Python module:
    - [Py]: the pieces of the Python runtime the server relies on
      (slices, [str] methods, the UTF-8 codec, [struct.pack]);
    - [Rtp]: [create_rtp_header] and the streaming thread
      [rtp_stream_video] with its fragmentation loop;
    - [Rtsp]: the control connection handler [handle_rtsp_client];
    - [Server]: the threads of one server process stepping over the
      shared globals [streaming_active] and [rtp_thread].

    Reads of the shared flag, the frame source, the clock and the outcome
    of socket calls are inputs of each thread; writes and socket traffic
    are its outputs. *)

From Equations Require Import Equations.
From Stdlib Require Import ZArith List Lia Bool.
From Stdlib Require String Ascii DecimalString.
Import String.StringSyntax.
Import ListNotations.
Open Scope string_scope.
Open Scope list_scope.
Open Scope Z_scope.

(* ===================================================================== *)
(** ** Python runtime                                                     *)
(* ===================================================================== *)

Module Py.

(** [bytes] objects: every element is an octet, kept as a [Z]. *)
Definition bytes := list Z.

(** [str] objects: sequences of Unicode code points. *)
Definition str := list Z.

(** An ASCII literal of the source, as a [str]. *)
Definition lit (s : String.string) : str :=
  map (fun c => Z.of_N (Ascii.N_of_ascii c)) (String.list_ascii_of_string s).

Definition CR : Z := 13.
Definition LF : Z := 10.
Definition crlf : str := [CR; LF].
Definition colon : Z := 58.

Definition len {A} (l : list A) : Z := Z.of_nat (length l).

(** Slice bounds as Python normalises them: a negative index counts from
    the end, and both ends are clipped to the sequence. *)
Definition clip_index (n i : Z) : Z :=
  if i <? 0 then Z.max 0 (i + n) else Z.min i n.

(** [l[lo:hi]] *)
Definition slice {A} (l : list A) (lo hi : Z) : list A :=
  let lo' := clip_index (len l) lo in
  let hi' := clip_index (len l) hi in
  firstn (Z.to_nat (hi' - lo')) (skipn (Z.to_nat lo') l).

(** [s.startswith(p)] *)
Fixpoint startswith (s p : str) {struct p} : bool :=
  match p with
  | [] => true
  | c :: p' =>
      match s with
      | [] => false
      | d :: s' => (d =? c) && startswith s' p'
      end
  end.

(** [sub in s] *)
Fixpoint contains (s sub : str) : bool :=
  startswith s sub ||
  match s with
  | [] => false
  | _ :: s' => contains s' sub
  end.

(** [s.split(sep)] for a non-empty separator: the pieces between the
    non-overlapping occurrences of [sep], scanned from the left.  [skip]
    counts the characters of a separator still to be passed over and
    [cur] holds the current piece, reversed. *)
Fixpoint split_scan (sep s : str) (skip : nat) (cur : str) : list str :=
  match s with
  | [] => [rev cur]
  | c :: s' =>
      match skip with
      | S k => split_scan sep s' k cur
      | O =>
          if startswith s sep
          then rev cur :: split_scan sep s' (Nat.pred (length sep)) []
          else split_scan sep s' 0 (c :: cur)
      end
  end.

Definition split (s sep : str) : list str := split_scan sep s 0 [].

(** The code points [str.strip()] removes (those for which
    [str.isspace] holds). *)
Definition isspace (c : Z) : bool :=
  ((9 <=? c) && (c <=? 13)) || ((28 <=? c) && (c <=? 32)) ||
  (c =? 133) || (c =? 160) || (c =? 5760) ||
  ((8192 <=? c) && (c <=? 8202)) || (c =? 8232) || (c =? 8233) ||
  (c =? 8239) || (c =? 8287) || (c =? 12288).

Fixpoint lstrip (s : str) : str :=
  match s with
  | c :: s' => if isspace c then lstrip s' else s
  | [] => []
  end.

(** [s.strip()] *)
Definition strip (s : str) : str := rev (lstrip (rev (lstrip s))).

(** [str(n)] for a non-negative integer. *)
Definition str_of_nat (n : nat) : str :=
  lit (DecimalString.NilEmpty.string_of_uint (Nat.to_uint n)).

(** *** The UTF-8 codec *)

Definition is_cont (b : Z) : bool := (128 <=? b) && (b <=? 191).

Definition cont_bits (b : Z) : Z := Z.land b 63.

(** [b.decode('utf-8')] with the default strict error handler: [None]
    stands for [UnicodeDecodeError].  Overlong forms, surrogates and code
    points above U+10FFFF are rejected through the bounds on the second
    octet. *)
Fixpoint decode_utf8 (b : bytes) : option str :=
  match b with
  | [] => Some []
  | b0 :: r0 =>
      if (0 <=? b0) && (b0 <? 128) then
        option_map (cons b0) (decode_utf8 r0)
      else if (194 <=? b0) && (b0 <=? 223) then
        match r0 with
        | b1 :: r1 =>
            if is_cont b1
            then option_map
                   (cons (Z.shiftl (Z.land b0 31) 6 + cont_bits b1))
                   (decode_utf8 r1)
            else None
        | _ => None
        end
      else if (224 <=? b0) && (b0 <=? 239) then
        match r0 with
        | b1 :: b2 :: r2 =>
            let lo := if b0 =? 224 then 160 else 128 in
            let hi := if b0 =? 237 then 159 else 191 in
            if (lo <=? b1) && (b1 <=? hi) && is_cont b2
            then option_map
                   (cons (Z.shiftl (Z.land b0 15) 12
                          + Z.shiftl (cont_bits b1) 6 + cont_bits b2))
                   (decode_utf8 r2)
            else None
        | _ => None
        end
      else if (240 <=? b0) && (b0 <=? 244) then
        match r0 with
        | b1 :: b2 :: b3 :: r3 =>
            let lo := if b0 =? 240 then 144 else 128 in
            let hi := if b0 =? 244 then 143 else 191 in
            if (lo <=? b1) && (b1 <=? hi) && is_cont b2 && is_cont b3
            then option_map
                   (cons (Z.shiftl (Z.land b0 7) 18
                          + Z.shiftl (cont_bits b1) 12
                          + Z.shiftl (cont_bits b2) 6 + cont_bits b3))
                   (decode_utf8 r3)
            else None
        | _ => None
        end
      else None
  end.

(** The octets of one code point.  The code points of a decoded [str] lie
    in these ranges and are no surrogates, so encoding the server's
    responses never raises. *)
Definition encode_char (c : Z) : bytes :=
  if c <? 128 then [c]
  else if c <? 2048 then
    [192 + Z.shiftr c 6; 128 + Z.land c 63]
  else if c <? 65536 then
    [224 + Z.shiftr c 12; 128 + Z.land (Z.shiftr c 6) 63; 128 + Z.land c 63]
  else
    [240 + Z.shiftr c 18; 128 + Z.land (Z.shiftr c 12) 63;
     128 + Z.land (Z.shiftr c 6) 63; 128 + Z.land c 63].

(** [s.encode('utf-8')] *)
Definition encode_utf8 (s : str) : bytes := flat_map encode_char s.

(** *** [struct.pack] *)

(** The [n] octets of [v], most significant first (network order). *)
Fixpoint be_bytes (n : nat) (v : Z) : bytes :=
  match n with
  | O => []
  | S k => Z.land (Z.shiftr v (8 * Z.of_nat k)) 255 :: be_bytes k v
  end.

(** One unsigned field of [n] octets; [None] stands for [struct.error],
    raised when the value does not fit. *)
Definition pack_uint (n : nat) (v : Z) : option bytes :=
  if (0 <=? v) && (v <? 2 ^ (8 * Z.of_nat n))
  then Some (be_bytes n v) else None.

End Py.

(* ===================================================================== *)
(** ** RTP packetizer and streaming thread                               *)
(* ===================================================================== *)

Module Rtp.
Import Py.

(** Module-level configuration. *)
Definition RTP_PORT : Z := 5004.
Definition MAX_PACKET_SIZE : Z := 1400.
Definition RTP_HEADER_SIZE : Z := 12.

(** [create_rtp_header]: [struct.pack("!BBHII", 0x80, 26, sequence_number,
    timestamp, ssrc)]; [None] when [struct.pack] raises. *)
Definition create_rtp_header (sequence_number timestamp ssrc : Z)
  : option bytes :=
  let version_padding_extension_csrc := 128 in
  let payload_type := 26 in
  let marker_payload_type := payload_type in
  match pack_uint 1 version_padding_extension_csrc,
        pack_uint 1 marker_payload_type,
        pack_uint 2 sequence_number,
        pack_uint 4 timestamp,
        pack_uint 4 ssrc with
  | Some b0, Some b1, Some sq, Some ts, Some sr =>
      Some (b0 ++ b1 ++ sq ++ ts ++ sr)
  | _, _, _, _, _ => None
  end.

(** The update of the counter after a datagram was sent. *)
Definition next_sequence_number (sequence_number : Z) : Z :=
  if sequence_number + 1 >? 65535 then 0 else sequence_number + 1.

(** How the inner [while] loop was left. *)
Inductive loop_exit :=
| LoopDone          (* [offset < len(jpeg_data)] became false *)
| LoopGuard         (* [payload_size <= 0], [break] *)
| LoopSendFailed    (* [sendto] raised: [streaming_active = False], [break] *)
| LoopRaised.       (* [struct.pack] raised inside [create_rtp_header] *)

Record frag_result := {
  fr_sent : list bytes;        (* the datagrams passed to [sendto], in order *)
  fr_sequence_number : Z;      (* [sequence_number] when the loop is left *)
  fr_exit : loop_exit
}.

Definition fr_push (p : bytes) (r : frag_result) : frag_result :=
  {| fr_sent := p :: fr_sent r;
     fr_sequence_number := fr_sequence_number r;
     fr_exit := fr_exit r |}.

Section Fragment.

(** The configured maximum datagram size ([MAX_PACKET_SIZE] in the
    running server). *)
Variable max_packet_size : Z.

(** One frame: its encoded bytes, its timestamp, the stream's [ssrc], and
    whether the [sendto] of the fragment that starts at a given offset
    returns ([true]) or raises ([false]). *)
Variable jpeg_data : bytes.
Variable timestamp : Z.
Variable ssrc : Z.
Variable sendto_ok : Z -> bool.

Definition payload_size_at (offset : Z) : Z :=
  Z.min (len jpeg_data - offset) (max_packet_size - RTP_HEADER_SIZE).

(** The loop [while offset < len(jpeg_data): ...] of [rtp_stream_video],
    entered with the given [offset] and [sequence_number]. *)
Equations? fragment_loop (offset sequence_number : Z) : frag_result
  by wf (Z.to_nat (len jpeg_data - offset)) lt :=
fragment_loop offset sequence_number
  with Z_lt_dec offset (len jpeg_data) => {
  | right _ := {| fr_sent := []; fr_sequence_number := sequence_number;
                  fr_exit := LoopDone |};
  | left _ with Z_le_dec (payload_size_at offset) 0 => {
    | left _ := {| fr_sent := []; fr_sequence_number := sequence_number;
                   fr_exit := LoopGuard |};
    | right _ with create_rtp_header sequence_number timestamp ssrc => {
      | None := {| fr_sent := []; fr_sequence_number := sequence_number;
                   fr_exit := LoopRaised |};
      | Some header with sendto_ok offset => {
        | false := {| fr_sent := [];
                      fr_sequence_number := sequence_number;
                      fr_exit := LoopSendFailed |};
        | true :=
            fr_push
              (header ++
               slice jpeg_data offset (offset + payload_size_at offset))
              (fragment_loop (offset + payload_size_at offset)
                             (next_sequence_number sequence_number)) } } } }.
Proof. lia. Qed.

End Fragment.

(** The state of one streaming thread between two steps. *)
Inductive thread_state :=
| Opening                            (* started, [cv2.VideoCapture] not yet tried *)
| Streaming (sequence_number : Z)    (* about to test [while streaming_active] *)
| Returned                           (* [rtp_stream_video] returned *)
| Died.                              (* left by an uncaught exception *)

(** What one pass of the outer loop reads from outside the thread: the
    shared flag as the loop test sees it, the encoded bytes of the next
    frame ([None] when [cap.read()] reports no frame), the timestamp
    computed from the clock, and the outcome of each [sendto]. *)
Record frame_io := {
  active_seen : bool;
  frame : option bytes;
  clock : Z;
  sendto_ok : Z -> bool
}.

(** What a step of the thread does: the datagrams it sends, whether it
    stores [False] into [streaming_active], and where it stands next. *)
Record pass_result := {
  pr_sent : list bytes;
  pr_clears_active : bool;
  pr_next : thread_state
}.

Definition ssrc : Z := 305419896.   (* 0x12345678 *)

(** The start of [rtp_stream_video], up to [sequence_number = 0]. *)
Definition stream_open (opened : bool) : pass_result :=
  if opened
  then {| pr_sent := []; pr_clears_active := false; pr_next := Streaming 0 |}
  else {| pr_sent := []; pr_clears_active := true; pr_next := Returned |}.

Section Streamer.

Variable max_packet_size : Z.

(** One pass of [while streaming_active: ...]. *)
Definition stream_pass (io : frame_io) (sequence_number : Z) : pass_result :=
  if negb (active_seen io) then
    {| pr_sent := []; pr_clears_active := false; pr_next := Returned |}
  else
    match frame io with
    | None =>
        {| pr_sent := []; pr_clears_active := true; pr_next := Returned |}
    | Some jpeg_data =>
        let r := fragment_loop max_packet_size jpeg_data (clock io) ssrc
                               (sendto_ok io) 0 sequence_number in
        match fr_exit r with
        | LoopDone | LoopGuard =>
            {| pr_sent := fr_sent r; pr_clears_active := false;
               pr_next := Streaming (fr_sequence_number r) |}
        | LoopSendFailed =>
            {| pr_sent := fr_sent r; pr_clears_active := true;
               pr_next := Streaming (fr_sequence_number r) |}
        | LoopRaised =>
            {| pr_sent := fr_sent r; pr_clears_active := false;
               pr_next := Died |}
        end
    end.

(** A step of the thread from any state; a finished thread stays put. *)
Definition stream_step (opened : bool) (io : frame_io) (st : thread_state)
  : pass_result :=
  match st with
  | Opening => stream_open opened
  | Streaming sequence_number => stream_pass io sequence_number
  | Returned | Died =>
      {| pr_sent := []; pr_clears_active := false; pr_next := st |}
  end.

(** The passes of the outer loop over the successive inputs [ios],
    from a given state: all datagrams sent, in order, and the state
    reached. *)
Fixpoint stream_loop (ios : list frame_io) (st : thread_state)
  : list bytes * thread_state :=
  match ios with
  | [] => ([], st)
  | io :: rest =>
      match st with
      | Streaming sequence_number =>
          let r := stream_pass io sequence_number in
          let (sent, st') := stream_loop rest (pr_next r) in
          (pr_sent r ++ sent, st')
      | _ => ([], st)
      end
  end.

(** One job: [rtp_stream_video] from its start. *)
Definition rtp_stream_video (opened : bool) (ios : list frame_io)
  : list bytes * thread_state :=
  stream_loop ios (pr_next (stream_open opened)).

End Streamer.

(** The sequence number carried by a datagram: octets 2 and 3. *)
Definition datagram_sequence_number (p : bytes) : Z :=
  nth 2 p 0 * 256 + nth 3 p 0.

(** The payload carried by a datagram: what follows the 12 header octets. *)
Definition datagram_payload (p : bytes) : bytes := skipn 12 p.

(** [ceil(a / b)] on integers. *)
Definition ceil_div (a b : Z) : Z := (a + b - 1) / b.

(** The numbers [sq], [sq + 1], ... modulo 65536 of [n] consecutive
    datagrams. *)
Definition sequence_numbers_from (sq : Z) (n : nat) : list Z :=
  map (fun i => (sq + Z.of_nat i) mod 65536) (seq 0 n).

(** Where a streaming thread stands, when it is inside its loop. *)
Definition stands_at (st : thread_state) (sq : Z) : Prop :=
  match st with
  | Streaming sq' => sq' = sq
  | _ => True
  end.

(** The ways a step of the streaming thread signals a failure: it stores
    [False] into [streaming_active] (next to an error message), or it dies
    from an exception. *)
Definition signals_failure (r : pass_result) : Prop :=
  pr_clears_active r = true \/ pr_next r = Died.

(** A frame of three bytes, read while the flag is set, every [sendto]
    returning. *)
Definition small_frame : frame_io :=
  {| active_seen := true; frame := Some [1; 2; 3]; clock := 0;
     sendto_ok := fun _ => true |}.

End Rtp.

(* ===================================================================== *)
(** ** RTSP control connection                                            *)
(* ===================================================================== *)

Module Rtsp.
Import Py.

Definition RTSP_PORT : Z := 554.

(** [str(n)] for the integers the responses print. *)
Definition str_of_int (n : Z) : str :=
  if n <? 0 then lit "-" ++ str_of_nat (Z.to_nat (- n))
  else str_of_nat (Z.to_nat n).

(** The branches of the [if]/[elif] chain of [handle_rtsp_client]. *)
Inductive command := SETUP | PLAY | TEARDOWN | DESCRIBE | OPTIONS | UNKNOWN.

Definition keyword (c : command) : str :=
  match c with
  | SETUP => lit "SETUP"
  | PLAY => lit "PLAY"
  | TEARDOWN => lit "TEARDOWN"
  | DESCRIBE => lit "DESCRIBE"
  | OPTIONS => lit "OPTIONS"
  | UNKNOWN => []
  end.

(** The chain [if "SETUP" in data: ... elif "PLAY" in data: ... else: ...]. *)
Definition dispatch (data : str) : command :=
  if contains data (lit "SETUP") then SETUP
  else if contains data (lit "PLAY") then PLAY
  else if contains data (lit "TEARDOWN") then TEARDOWN
  else if contains data (lit "DESCRIBE") then DESCRIBE
  else if contains data (lit "OPTIONS") then OPTIONS
  else UNKNOWN.

(** [for line in lines: if line.startswith("CSeq:"): cseq =
    line.split(":")[1].strip(); break].  A line that starts with [CSeq:]
    splits into at least two pieces, so the index never raises. *)
Fixpoint scan_cseq (lines : list str) (cseq : str) : str :=
  match lines with
  | [] => cseq
  | line :: rest =>
      if startswith line (lit "CSeq:")
      then strip (nth 1 (split line (lit ":")) [])
      else scan_cseq rest cseq
  end.

(** The value of [cseq] after the header scan, from the default ["1"]. *)
Definition parse_cseq (data : str) : str :=
  scan_cseq (split data crlf) (lit "1").

Definition status_ok (cseq : str) : str :=
  lit "RTSP/1.0 200 OK" ++ crlf ++ lit "CSeq: " ++ cseq ++ crlf.

Definition setup_response (cseq : str) : str :=
  status_ok cseq ++
  lit "Transport: RTP/AVP;unicast;client_port=" ++ str_of_int Rtp.RTP_PORT ++
  lit "-" ++ str_of_int (Rtp.RTP_PORT + 1) ++ crlf ++
  lit "Session: 12345678" ++ crlf ++ crlf.

Definition play_response (cseq : str) : str :=
  status_ok cseq ++ lit "Session: 12345678" ++ crlf ++ crlf.

Definition teardown_response (cseq : str) : str :=
  status_ok cseq ++ crlf.

Definition payload_type_jpeg : Z := 26.

Definition sdp_payload : str :=
  lit "v=0" ++ crlf ++
  lit "o=- 0 0 IN IP4 127.0.0.1" ++ crlf ++
  lit "s=RTSP Stream" ++ crlf ++
  lit "t=0 0" ++ crlf ++
  lit "a=control:rtsp://127.0.0.1:" ++ str_of_int RTSP_PORT ++
    lit "/stream" ++ crlf ++
  lit "m=video 0 RTP/AVP " ++ str_of_int payload_type_jpeg ++ crlf ++
  lit "a=rtpmap:" ++ str_of_int payload_type_jpeg ++ lit " JPEG/90000" ++ crlf ++
  lit "a=control:streamid=0" ++ crlf.

Definition describe_headers (cseq : str) : str :=
  status_ok cseq ++
  lit "Content-Type: application/sdp" ++ crlf ++
  lit "Content-Length: " ++ str_of_int (len sdp_payload) ++ crlf ++
  crlf.

Definition describe_response (cseq : str) : str :=
  describe_headers cseq ++ sdp_payload.

Definition options_response (cseq : str) : str :=
  status_ok cseq ++
  lit "Public: DESCRIBE, SETUP, TEARDOWN, PLAY, PAUSE, OPTIONS" ++ crlf ++ crlf.

Definition bad_request_response (cseq : str) : str :=
  lit "RTSP/1.0 400 Bad Request" ++ crlf ++ lit "CSeq: " ++ cseq ++ crlf ++ crlf.

(** The response text each branch builds. *)
Definition response_of (c : command) (cseq : str) : str :=
  match c with
  | SETUP => setup_response cseq
  | PLAY => play_response cseq
  | TEARDOWN => teardown_response cseq
  | DESCRIBE => describe_response cseq
  | OPTIONS => options_response cseq
  | UNKNOWN => bad_request_response cseq
  end.

(** Exceptions that reach the [except] clauses of the handler. *)
Inductive socket_error := ConnectionResetError | OtherSocketError.
Inductive exn := SocketError (e : socket_error) | UnicodeDecodeError.

(** What the handler does to the world, in program order. *)
Inductive effect :=
| SetStreamingActive (b : bool)     (* [streaming_active = b] *)
| StartRtpThread                    (* [rtp_thread = Thread(...)], [start()] *)
| JoinRtpThread (timeout : Z)       (* [rtp_thread.join(timeout=...)] *)
| SendAll (b : bytes)               (* [client_socket.sendall(b)] returned *)
| CloseSocket.                      (* [client_socket.close()] *)

Inductive recv_result :=
| Received (b : bytes)
| RecvRaises (e : socket_error).

(** What one pass of [while True] reads from outside the handler: the
    outcome of [recv], the shared flag and the liveness of [rtp_thread] as
    the branches see them, and whether [sendall] raises. *)
Record request_io := {
  rx : recv_result;
  streaming_active_seen : bool;
  rtp_thread_alive : bool;
  tx_raises : option socket_error
}.

(** How one pass of [while True] ends. *)
Inductive control :=
| Next                   (* back to [recv] *)
| BreakDisconnected      (* [if not data: break] *)
| BreakTeardown          (* [break] of the TEARDOWN branch *)
| Raise (e : exn).

(** [client_socket.sendall(response.encode('utf-8'))], then [k]. *)
Definition send_then (io : request_io) (response : str) (k : control)
  : list effect * control :=
  match tx_raises io with
  | Some e => ([], Raise (SocketError e))
  | None => ([SendAll (encode_utf8 response)], k)
  end.

Definition prepend (es : list effect) (r : list effect * control)
  : list effect * control :=
  (es ++ fst r, snd r).

(** The body of a branch, given the decoded request and the [cseq]. *)
Definition run_command (io : request_io) (c : command) (cseq : str)
  : list effect * control :=
  match c with
  | PLAY =>
      prepend
        (if negb (streaming_active_seen io)
         then [SetStreamingActive true; StartRtpThread] else [])
        (send_then io (play_response cseq) Next)
  | TEARDOWN =>
      prepend
        (SetStreamingActive false ::
         (if rtp_thread_alive io then [JoinRtpThread 5] else []))
        (send_then io (teardown_response cseq) BreakTeardown)
  | _ => send_then io (response_of c cseq) Next
  end.

(** One pass of the [while True] loop. *)
Definition handle_request (io : request_io) : list effect * control :=
  match rx io with
  | RecvRaises e => ([], Raise (SocketError e))
  | Received b =>
      match decode_utf8 b with
      | None => ([], Raise UnicodeDecodeError)
      | Some [] => ([], BreakDisconnected)
      | Some data => run_command io (dispatch data) (parse_cseq data)
      end
  end.

(** Why a connection was closed. *)
Inductive close_reason := PeerClosed | TornDown | Failed (e : exn).

(** Where the handler stands once its inputs are used up: blocked in
    [recv] with the socket open, or past [finally] with the socket
    closed. *)
Inductive connection := Open | Closed (why : close_reason).

(** [handle_rtsp_client] over the successive inputs [ios]: the effects in
    program order, with the [close()] of the [finally] clause, and the
    final state of the connection. *)
Fixpoint handle_rtsp_client (ios : list request_io)
  : list effect * connection :=
  match ios with
  | [] => ([], Open)
  | io :: rest =>
      let (es, k) := handle_request io in
      match k with
      | Next => let (es', c) := handle_rtsp_client rest in (es ++ es', c)
      | BreakDisconnected => (es ++ [CloseSocket], Closed PeerClosed)
      | BreakTeardown => (es ++ [CloseSocket], Closed TornDown)
      | Raise e => (es ++ [CloseSocket], Closed (Failed e))
      end
  end.

(** The byte strings the handler passed to [sendall], in order. *)
Fixpoint sent_bytes (es : list effect) : list bytes :=
  match es with
  | [] => []
  | SendAll b :: es' => b :: sent_bytes es'
  | _ :: es' => sent_bytes es'
  end.

(** The text of the request read in this pass, when [recv] returned bytes
    and they decode. *)
Definition request_text (io : request_io) : option str :=
  match rx io with
  | Received b => decode_utf8 b
  | RecvRaises _ => None
  end.

(** The commands in the order the chain tests their keywords. *)
Definition priority : list command := [SETUP; PLAY; TEARDOWN; DESCRIBE; OPTIONS].

(** Dispatch as the specification words it: the first command, in
    priority order, whose keyword occurs in the request text. *)
Definition first_keyword (data : str) : command :=
  match find (fun c => contains data (keyword c)) priority with
  | Some c => c
  | None => UNKNOWN
  end.



End Rtsp.

(* ===================================================================== *)
(** ** The server process: handlers and streaming threads                *)
(* ===================================================================== *)

Module Server.
Import Py Rtp Rtsp.

(** The module globals the threads share, the streaming threads started
    so far, and the datagrams put on the network, each with the index of
    the thread that sent it. *)
Record state := {
  streaming_active : bool;
  rtp_thread : option nat;
  threads : list thread_state;
  network : list (nat * bytes)
}.

Definition initial : state :=
  {| streaming_active := false; rtp_thread := None;
     threads := []; network := [] |}.

(** [Thread.is_alive()]: started and not yet finished. *)
Definition is_alive (st : thread_state) : bool :=
  match st with
  | Opening | Streaming _ => true
  | Returned | Died => false
  end.

(** [rtp_thread and rtp_thread.is_alive()] *)
Definition rtp_thread_is_alive (s : state) : bool :=
  match rtp_thread s with
  | None => false
  | Some t =>
      match nth_error (threads s) t with
      | Some st => is_alive st
      | None => false
      end
  end.

(** What an effect of a handler does to the shared state.  Waiting in
    [join], socket traffic on the control connection and closing it leave
    the shared state alone. *)
Definition apply_effect (s : state) (e : effect) : state :=
  match e with
  | SetStreamingActive b =>
      {| streaming_active := b; rtp_thread := rtp_thread s;
         threads := threads s; network := network s |}
  | StartRtpThread =>
      {| streaming_active := streaming_active s;
         rtp_thread := Some (length (threads s));
         threads := threads s ++ [Opening]; network := network s |}
  | JoinRtpThread _ | SendAll _ | CloseSocket => s
  end.

Fixpoint set_nth {A} (l : list A) (i : nat) (x : A) : list A :=
  match l, i with
  | [], _ => []
  | _ :: l', O => x :: l'
  | y :: l', S j => y :: set_nth l' j x
  end.

(** What a step of streaming thread [t] does to the shared state. *)
Definition apply_pass (s : state) (t : nat) (r : pass_result) : state :=
  {| streaming_active :=
       if pr_clears_active r then false else streaming_active s;
     rtp_thread := rtp_thread s;
     threads := set_nth (threads s) t (pr_next r);
     network := network s ++ map (pair t) (pr_sent r) |}.

(** One thread of the process moves: a handler takes one request through
    its branch, or a live streaming thread opens its source or makes one
    pass of its outer loop.  Each reads the shared state as it is. *)
Inductive step (s : state) : state -> Prop :=
| step_handler (io : request_io) :
    streaming_active_seen io = streaming_active s ->
    rtp_thread_alive io = rtp_thread_is_alive s ->
    step s (fold_left apply_effect (fst (handle_request io)) s)
| step_thread (t : nat) (st : thread_state) (opened : bool) (io : frame_io) :
    nth_error (threads s) t = Some st ->
    is_alive st = true ->
    active_seen io = streaming_active s ->
    step s (apply_pass s t (stream_step MAX_PACKET_SIZE opened io st)).

Inductive reachable : state -> Prop :=
| reach_initial : reachable initial
| reach_step s s' : reachable s -> step s s' -> reachable s'.

(** The streaming threads that are inside their outer loop. *)
Definition is_streaming (st : thread_state) : bool :=
  match st with Streaming _ => true | _ => false end.

Definition streaming_threads (s : state) : nat :=
  length (filter is_streaming (threads s)).

Definition live_threads (s : state) : nat :=
  length (filter is_alive (threads s)).

End Server.

(* ===================================================================== *)
(** ** Concrete requests and runs                                        *)
(* ===================================================================== *)

Module Inputs.
Import Py Rtp Rtsp.

(** A request as a client puts it on the wire. *)
Definition request_of (method : str) (cseq : str) : str :=
  method ++ lit " rtsp://127.0.0.1:554/stream RTSP/1.0" ++ crlf ++
  lit "CSeq: " ++ cseq ++ crlf ++ crlf.

(** The handler reads [text], sees the flag and the thread as given, and
    its [sendall] returns. *)
Definition arrives (text : str) (active alive : bool) : request_io :=
  {| rx := Received (encode_utf8 text);
     streaming_active_seen := active;
     rtp_thread_alive := alive;
     tx_raises := None |}.

Definition play_text : str := request_of (lit "PLAY") (lit "4").
Definition teardown_text : str := request_of (lit "TEARDOWN") (lit "5").
Definition describe_text : str := request_of (lit "DESCRIBE") (lit "2").
Definition options_text : str := request_of (lit "OPTIONS") (lit "7:1").
Definition unknown_text : str := request_of (lit "PAUSE") (lit "6").

(** The loop test reads the flag as [False]. *)
Definition stop_seen : frame_io :=
  {| active_seen := false; frame := None; clock := 0;
     sendto_ok := fun _ => true |}.

(** One octet that is no UTF-8. *)
Definition garbage : request_io :=
  {| rx := Received [255]; streaming_active_seen := false;
     rtp_thread_alive := false; tx_raises := None |}.

(** Two connections and two streaming threads: a PLAY, the first thread
    opens and sends a frame, a TEARDOWN clears the flag, a PLAY on another
    connection sets it again and starts a second thread before the first
    one has tested it, and both threads go on sending. *)
Definition run0 : Server.state := Server.initial.
Definition run1 : Server.state :=
  fold_left Server.apply_effect
    (fst (handle_request (arrives play_text false false))) run0.
Definition run2 : Server.state :=
  Server.apply_pass run1 0
    (stream_step MAX_PACKET_SIZE true small_frame Opening).
Definition run3 : Server.state :=
  Server.apply_pass run2 0
    (stream_step MAX_PACKET_SIZE true small_frame (Streaming 0)).
Definition run4 : Server.state :=
  fold_left Server.apply_effect
    (fst (handle_request (arrives teardown_text true true))) run3.
Definition run5 : Server.state :=
  fold_left Server.apply_effect
    (fst (handle_request (arrives play_text false true))) run4.
Definition run6 : Server.state :=
  Server.apply_pass run5 1
    (stream_step MAX_PACKET_SIZE true small_frame Opening).
Definition run7 : Server.state :=
  Server.apply_pass run6 0
    (stream_step MAX_PACKET_SIZE true small_frame (Streaming 1)).
Definition run8 : Server.state :=
  Server.apply_pass run7 1
    (stream_step MAX_PACKET_SIZE true small_frame (Streaming 0)).

End Inputs.

(* ===================================================================== *)
(** ** Reading a datagram back                                            *)
(* ===================================================================== *)

Module Wire.
Import Py Rtp.

(** The unsigned integer a sequence of octets spells, most significant
    first. *)
Definition be_value (b : bytes) : Z :=
  fold_left (fun acc x => acc * 256 + x) b 0.

(** The fields a receiver reads in the 12 header octets. *)
Definition datagram_flags (p : bytes) : Z := nth 0 p 0.
Definition datagram_payload_type (p : bytes) : Z := nth 1 p 0.
Definition datagram_timestamp (p : bytes) : Z := be_value (slice p 4 8).
Definition datagram_ssrc (p : bytes) : Z := be_value (slice p 8 12).

Definition is_octet (b : Z) : Prop := 0 <= b < 256.

(** Every field of the header fits its width. *)
Definition fields_fit (sequence_number timestamp ssrc : Z) : Prop :=
  0 <= sequence_number < 2 ^ 16 /\
  0 <= timestamp < 2 ^ 32 /\
  0 <= ssrc < 2 ^ 32.

End Wire.

(* ===================================================================== *)
(** ** Runs of a job, datagrams per thread                               *)
(* ===================================================================== *)

Module Jobs.
Import Py Rtp.

(** A pass of the outer loop that goes well: the loop test reads the flag
    as set, [cap.read()] yields the frame [jpeg_data], the timestamp fits
    its header field and every [sendto] returns. *)
Definition delivers (io : frame_io) (jpeg_data : bytes) : Prop :=
  active_seen io = true /\
  frame io = Some jpeg_data /\
  0 <= clock io < 2 ^ 32 /\
  forall offset, sendto_ok io offset = true.

(** The number of datagrams the frames need at a given maximum size. *)
Definition datagrams_needed (max_packet_size : Z) (frames : list bytes) : Z :=
  fold_right (fun f n => ceil_div (len f) (max_packet_size - RTP_HEADER_SIZE) + n)
             0 frames.

(** The datagrams thread [t] has put on the network, in order. *)
Definition sent_by (t : nat) (s : Server.state) : list bytes :=
  map snd (filter (fun e => Nat.eqb (fst e) t) (Server.network s)).

End Jobs.

(* ===================================================================== *)
(** ** What holds between the passes of the request-level process       *)
(* ===================================================================== *)

Module Invariants.
Import Py Rtp Server Jobs.

(** Between two passes of [Server.step]: [rtp_thread] is unset before
    any thread was started and refers to the thread started last
    afterwards; every datagram on the network was sent by a thread that
    was started; the flag is clear as long as no thread was started.
    ([Interleaving] has what holds between single statements.) *)
Definition well_formed (s : state) : Prop :=
  match rtp_thread s with
  | None => threads s = []
  | Some t => S t = length (threads s)
  end /\
  Forall (fun e => (fst e < length (threads s))%nat) (network s) /\
  match threads s with
  | [] => streaming_active s = false
  | _ :: _ => True
  end.

(** Where a thread stands agrees with what it has sent. *)
Definition counts (st : thread_state) (sent : list bytes) : Prop :=
  match st with
  | Opening => sent = []
  | Streaming sq => sq = len sent mod 65536
  | Returned | Died => True
  end.

(** The datagrams of every thread are numbered from 0, and the counter of
    a thread inside its loop is the number of datagrams it has sent. *)
Definition numbered (s : state) : Prop :=
  forall t st, nth_error (threads s) t = Some st ->
    map datagram_sequence_number (sent_by t s) =
      sequence_numbers_from 0 (length (sent_by t s)) /\
    counts st (sent_by t s).

End Invariants.

(* ===================================================================== *)
(** ** Requests and what they may do                                     *)
(* ===================================================================== *)

Module Sessions.
Import Py Rtsp.

(** The request read in this pass is a non-empty text that takes the
    branch of command [c]. *)
Definition asks (c : command) (io : request_io) : Prop :=
  exists data, request_text io = Some data /\ data <> [] /\ dispatch data = c.

Definition is_send (e : effect) : Prop :=
  match e with SendAll _ => True | _ => False end.

(** The text of a header value up to its first colon. *)
Definition up_to_colon (value : str) : str := nth 0 (split value (lit ":")) [].

End Sessions.

(* ===================================================================== *)
(** ** More concrete passes                                              *)
(* ===================================================================== *)

Module Scenes.
Import Py Rtp Rtsp.

(** A frame of 3000 bytes whose first datagram goes out and whose second
    [sendto] raises. *)
Definition second_send_fails : frame_io :=
  {| active_seen := true; frame := Some (repeat 7 3000%nat); clock := 90000;
     sendto_ok := fun offset => offset <? 1388 |}.

(** A frame read when the clock has run past 32 bits. *)
Definition late_frame : frame_io :=
  {| active_seen := true; frame := Some [1; 2; 3]; clock := 2 ^ 32;
     sendto_ok := fun _ => true |}.

(** [cap.read()] reports no frame. *)
Definition dry : frame_io :=
  {| active_seen := true; frame := None; clock := 0;
     sendto_ok := fun _ => true |}.

End Scenes.

(* ===================================================================== *)
(** ** The listener and the shutdown                                     *)
(* ===================================================================== *)

Module Supervisor.
Import Py.

(** A socket object, by identity. *)
Definition sock := nat.

(** The socket globals of the module. *)
Record globals := {
  rtsp_server_socket : option sock;
  rtsp_client_socket : option sock
}.

(** What the listener and the shutdown do to the world, in program
    order. *)
Inductive action :=
| ClearStreamingActive            (* [streaming_active = False] *)
| Bind (s : sock) (port : Z)      (* [setsockopt], [bind(('0.0.0.0', port))] *)
| Listen (s : sock) (backlog : Z)
| StartHandler (conn : sock)      (* [Thread(target=handle_rtsp_client, ...)] *)
| Shutdown (s : sock)             (* [s.shutdown(SHUT_RDWR)] returned *)
| Close (s : sock)                (* [s.close()] *)
| JoinServerThread (timeout : Z)
| JoinRtpThread (timeout : Z)
| ReportPortInUse                 (* the message for [errno == 98] *)
| ReportError.                    (* any other message of an [except] clause *)

(** Where the set-up of the listening socket fails, if it does. *)
Inductive setup_stage :=
| AtSocket                        (* [socket.socket(...)] *)
| AtSetsockopt
| AtBind
| AtListen.

(** The call that raises [OSError], with its [errno]. *)
Record setup_failure := { stage : setup_stage; errno_of : Z }.

Inductive accept_result :=
| Accepted (conn : sock)
| AcceptRaises (errno : Z).

(** The message of [except OSError as e]. *)
Definition report (errno : Z) : action :=
  if errno =? 98 then ReportPortInUse else ReportError.

(** The [finally] clause of the listener: [if rtsp_server_socket:
    close(); rtsp_server_socket = None]. *)
Definition listener_finally (g : globals) : list action * globals :=
  match rtsp_server_socket g with
  | Some s => ([Close s],
               {| rtsp_server_socket := None;
                  rtsp_client_socket := rtsp_client_socket g |})
  | None => ([], g)
  end.

Definition after (acts : list action) (r : list action * globals * bool)
  : list action * globals * bool :=
  let '(acts', g, blocked) := r in (acts ++ acts', g, blocked).

(** The loop [while True: conn, addr = accept(); Thread(...).start()] over
    the successive outcomes of [accept]; the boolean tells whether the
    thread is left blocked in [accept] ([true]) or has run through
    [finally] ([false]). *)
Fixpoint accept_loop (g : globals) (accepts : list accept_result)
  : list action * globals * bool :=
  match accepts with
  | [] => ([], g, true)
  | Accepted conn :: rest => after [StartHandler conn] (accept_loop g rest)
  | AcceptRaises errno :: _ =>
      let (acts, g') := listener_finally g in
      (report errno :: acts, g', false)
  end.

(** [start_rtsp_server_thread], no other thread storing into
    [rtsp_server_socket] meanwhile: [fresh] is the socket [socket.socket]
    returns, [failure] tells where the set-up raises. *)
Definition start_rtsp_server_thread
  (g : globals) (fresh : sock) (failure : option setup_failure)
  (accepts : list accept_result) : list action * globals * bool :=
  let g1 := {| rtsp_server_socket := Some fresh;
               rtsp_client_socket := rtsp_client_socket g |} in
  let fail (g' : globals) (done : list action) (msg : action) :=
    let (acts, g'') := listener_finally g' in (done ++ msg :: acts, g'', false) in
  match failure with
  | Some f =>
      match stage f with
      | AtSocket => fail g [] (report (errno_of f))
      | AtSetsockopt | AtBind => fail g1 [] (report (errno_of f))
      | AtListen => fail g1 [Bind fresh Rtsp.RTSP_PORT] (report (errno_of f))
      end
  | None =>
      after [Bind fresh Rtsp.RTSP_PORT; Listen fresh 1] (accept_loop g1 accepts)
  end.

(** What the shutdown reads from outside: whether [shutdown] raises
    [OSError] on the listening and on the client socket, and whether the
    listener thread and the streaming thread are alive. *)
Record cleanup_io := {
  server_shutdown_raises : bool;
  client_shutdown_raises : bool;
  server_thread_alive : bool;
  rtp_thread_alive : bool
}.

(** [try: s.shutdown(SHUT_RDWR); s.close() except OSError: print(...)] *)
Definition shutdown_and_close (s : sock) (raises : bool) : list action :=
  if raises then [ReportError] else [Shutdown s; Close s].

(** [stop_server_cleanup], no other thread storing into the two socket
    globals meanwhile. *)
Definition stop_server_cleanup (g : globals) (io : cleanup_io)
  : list action * globals :=
  let server :=
    match rtsp_server_socket g with
    | Some s => shutdown_and_close s (server_shutdown_raises io)
    | None => []
    end in
  let joins :=
    (if server_thread_alive io then [JoinServerThread 5] else []) ++
    (if rtp_thread_alive io then [JoinRtpThread 5] else []) in
  let client :=
    match rtsp_client_socket g with
    | Some s => shutdown_and_close s (client_shutdown_raises io)
    | None => []
    end in
  (ClearStreamingActive :: server ++ joins ++ client,
   {| rtsp_server_socket := None; rtsp_client_socket := None |}).

(** The sockets an action list closes. *)
Fixpoint closed_by (acts : list action) : list sock :=
  match acts with
  | [] => []
  | Close s :: rest => s :: closed_by rest
  | _ :: rest => closed_by rest
  end.

Fixpoint handlers_started (acts : list action) : list sock :=
  match acts with
  | [] => []
  | StartHandler c :: rest => c :: handlers_started rest
  | _ :: rest => handlers_started rest
  end.

(** The connections accepted before [accept] first raises. *)
Fixpoint accepted_before_failure (accepts : list accept_result) : list sock :=
  match accepts with
  | Accepted c :: rest => c :: accepted_before_failure rest
  | _ => []
  end.

Definition is_accepted (a : accept_result) : bool :=
  match a with Accepted _ => true | AcceptRaises _ => false end.

(** The socket a shutdown closes when its [shutdown] returns. *)
Definition closes_if_shut (o : option sock) (raises : bool) : list sock :=
  match o with
  | Some s => if raises then [] else [s]
  | None => []
  end.

(** *** Handlers and the client socket global

    Every handler stores its socket into [rtsp_client_socket] when it
    starts and stores [None] there when it ends, after closing its own
    socket. *)
Inductive event :=
| HandlerStarts (conn : sock)     (* [rtsp_client_socket = client_socket] *)
| HandlerEnds (conn : sock)       (* [finally]: close, [... = None] *)
| Cleanup (io : cleanup_io).      (* [stop_server_cleanup()] *)

Record process := {
  globals_of : globals;
  open_connections : list sock      (* accepted and not closed *)
}.

Definition remove_sock (c : sock) (l : list sock) : list sock :=
  filter (fun x => negb (Nat.eqb x c)) l.

Definition set_client (g : globals) (c : option sock) : globals :=
  {| rtsp_server_socket := rtsp_server_socket g; rtsp_client_socket := c |}.

Definition run_event (p : process) (e : event) : process :=
  match e with
  | HandlerStarts c =>
      {| globals_of := set_client (globals_of p) (Some c);
         open_connections := c :: open_connections p |}
  | HandlerEnds c =>
      {| globals_of := set_client (globals_of p) None;
         open_connections := remove_sock c (open_connections p) |}
  | Cleanup io =>
      let (acts, g) := stop_server_cleanup (globals_of p) io in
      {| globals_of := g;
         open_connections :=
           fold_left (fun l c => remove_sock c l) (closed_by acts)
                     (open_connections p) |}
  end.

Definition run_events (p : process) (es : list event) : process :=
  fold_left run_event es p.

(** The socket the last event leaves in [rtsp_client_socket]. *)
Definition registered_after (es : list event) : option sock :=
  match last (map Some es) None with
  | Some (HandlerStarts c) => Some c
  | Some (HandlerEnds _) | Some (Cleanup _) | None => None
  end.

Definition just_started : process :=
  {| globals_of := {| rtsp_server_socket := None; rtsp_client_socket := None |};
     open_connections := [] |}.

End Supervisor.

(* ===================================================================== *)
(** ** The globals, statement by statement                               *)
(* ===================================================================== *)

(** [Server.step] takes a request through its branch in one step.  The
    handlers are threads, though, and another thread can move between any
    two statements of the PLAY branch (lines 164 to 170), which reads the
    [rtp_thread] global again at each of them.  Here every statement that
    reads or writes [streaming_active] or [rtp_thread] is a step of its
    own, and a pass of a streaming thread is split at its loop test, the
    one place where it reads the flag. *)
Module Interleaving.
Import Py Rtp Rtsp.

(** A [threading.Thread] object made at line 168. *)
Inductive thread_object :=
| Created                          (* constructed, [start()] not called *)
| Started (st : thread_state)      (* started; [Streaming] is at the loop test *)
| InBody (sequence_number : Z).    (* the loop test read [True] *)

(** [Thread._started.is_set()], which [start()] and the [daemon] setter
    test before anything else. *)
Definition was_started (o : thread_object) : bool :=
  match o with Created => false | Started _ | InBody _ => true end.

(** Where a handler stands with respect to the globals. *)
Inductive handler_pc :=
| Elsewhere        (* outside lines 167-170: in [recv], parsing, sending *)
| AtSetFlag        (* before line 167; line 164 read the flag as [False] *)
| AtNewThread      (* before line 168 *)
| AtDaemon         (* before line 169 *)
| AtStart          (* before line 170 *)
| Leaving.         (* past line 184, or on its way through [except] and
                      [finally]: it touches neither global again *)

Record state := {
  streaming_active : bool;
  rtp_thread : option nat;            (* the object the global refers to *)
  objects : list thread_object;       (* in the order stored at line 168 *)
  handlers : list handler_pc;         (* the handler threads, as accepted *)
  network : list (nat * bytes)
}.

Definition initial : state :=
  {| streaming_active := false; rtp_thread := None; objects := [];
     handlers := []; network := [] |}.

Definition stands (s : state) (h : nat) (pc : handler_pc) : Prop :=
  nth_error (handlers s) h = Some pc.

(** Handler [h] goes on to [pc]. *)
Definition moves (s : state) (h : nat) (pc : handler_pc) : state :=
  {| streaming_active := streaming_active s; rtp_thread := rtp_thread s;
     objects := objects s;
     handlers := Server.set_nth (handlers s) h pc;
     network := network s |}.

(** [streaming_active = b] *)
Definition stores (s : state) (b : bool) : state :=
  {| streaming_active := b; rtp_thread := rtp_thread s;
     objects := objects s; handlers := handlers s; network := network s |}.

Definition becomes (s : state) (t : nat) (o : thread_object) : state :=
  {| streaming_active := streaming_active s; rtp_thread := rtp_thread s;
     objects := Server.set_nth (objects s) t o;
     handlers := handlers s; network := network s |}.

(** [rtp_thread = threading.Thread(target=rtp_stream_video)] *)
Definition new_thread (s : state) : state :=
  {| streaming_active := streaming_active s;
     rtp_thread := Some (length (objects s));
     objects := objects s ++ [Created];
     handlers := handlers s; network := network s |}.

Definition accepts (s : state) : state :=
  {| streaming_active := streaming_active s; rtp_thread := rtp_thread s;
     objects := objects s;
     handlers := handlers s ++ [Elsewhere];
     network := network s |}.

(** What streaming thread [t] has done when it is back at its loop test
    or has left [rtp_stream_video]. *)
Definition after_pass (s : state) (t : nat) (r : pass_result) : state :=
  {| streaming_active :=
       if pr_clears_active r then false else streaming_active s;
     rtp_thread := rtp_thread s;
     objects := Server.set_nth (objects s) t (Started (pr_next r));
     handlers := handlers s;
     network := network s ++ map (pair t) (pr_sent r) |}.

Inductive step (s : state) : state -> Prop :=
| accept_connection :               (* lines 264-267: a handler thread starts *)
    step s (accepts s)
| play_test h :                     (* line 164 reads the flag as [False] *)
    stands s h Elsewhere -> streaming_active s = false ->
    step s (moves s h AtSetFlag)
| play_set_flag h :                 (* line 167 *)
    stands s h AtSetFlag ->
    step s (stores (moves s h AtNewThread) true)
| play_new_thread h :               (* line 168 *)
    stands s h AtNewThread ->
    step s (new_thread (moves s h AtDaemon))
| play_daemon h t o :               (* line 169; [RuntimeError] once started *)
    stands s h AtDaemon ->
    rtp_thread s = Some t -> nth_error (objects s) t = Some o ->
    step s (moves s h (if was_started o then Leaving else AtStart))
| play_start h t o :                (* line 170; [RuntimeError] once started,
                                       the thread runs otherwise *)
    stands s h AtStart ->
    rtp_thread s = Some t -> nth_error (objects s) t = Some o ->
    step s (if was_started o then moves s h Leaving
            else becomes (moves s h Elsewhere) t (Started Opening))
| teardown_store h :                (* line 184; then join, send, [break] *)
    stands s h Elsewhere -> step s (stores (moves s h Leaving) false)
| handler_ends h :                  (* the peer closed, or a call raised *)
    stands s h Elsewhere -> step s (moves s h Leaving)
| cleanup_store :                   (* line 291, [stop_server_cleanup] *)
    step s (stores s false)
| thread_opens t opened :           (* lines 69-82 *)
    nth_error (objects s) t = Some (Started Opening) ->
    step s (after_pass s t (stream_open opened))
| thread_tests t sequence_number :  (* line 84 *)
    nth_error (objects s) t = Some (Started (Streaming sequence_number)) ->
    step s (becomes s t (if streaming_active s then InBody sequence_number
                         else Started Returned))
| thread_pass t sequence_number io : (* lines 85-118 *)
    nth_error (objects s) t = Some (InBody sequence_number) ->
    active_seen io = true ->
    step s (after_pass s t (stream_pass MAX_PACKET_SIZE io sequence_number)).

(** Any number of steps. *)
Inductive runs (s : state) : state -> Prop :=
| runs_here : runs s s
| runs_on s' s'' : runs s s' -> step s' s'' -> runs s s''.

Definition reachable (s : state) : Prop := runs initial s.

(** The senders of the datagrams on the network are threads that were
    started. *)
Definition sent_by_started (s : state) : Prop :=
  Forall (fun e => exists o, nth_error (objects s) (fst e) = Some o /\
                             was_started o = true) (network s).

(** A state of the request-level process, seen at statement level: every
    thread that was started is at a pass boundary, and the handlers
    stand as [hs] says. *)
Definition of_server (s : Server.state) (hs : list handler_pc) : state :=
  {| streaming_active := Server.streaming_active s;
     rtp_thread := Server.rtp_thread s;
     objects := map Started (Server.threads s);
     handlers := hs;
     network := Server.network s |}.

(** Two PLAY requests on two connections both pass the test of line 164
    before either stores [True]; the first handler then has its object
    replaced in [rtp_thread] by the second one's before it calls
    [start()]. *)
Definition race0 : state := accepts (accepts initial).
Definition race1 : state := moves (moves race0 0 AtSetFlag) 1 AtSetFlag.
Definition race2 : state := stores (moves race1 0 AtNewThread) true.
Definition race3 : state := new_thread (moves race2 0 AtDaemon).
Definition race4 : state := moves race3 0 AtStart.
Definition race5 : state := stores (moves race4 1 AtNewThread) true.
Definition race6 : state := new_thread (moves race5 1 AtDaemon).
Definition race7 : state :=
  becomes (moves race6 0 Elsewhere) 1 (Started Opening).
Definition race8 : state := moves race7 1 Leaving.

(** The datagrams thread [t] has put on the network, in order. *)
Definition sent_by (t : nat) (s : state) : list bytes :=
  map snd (filter (fun e => Nat.eqb (fst e) t) (network s)).

(** One connection: a PLAY whose streaming thread does not get its video
    source open, then a second PLAY on the same connection. *)
Definition retry0 : state := accepts initial.
Definition retry1 : state :=
  new_thread
    (moves (stores (moves (moves retry0 0 AtSetFlag) 0 AtNewThread) true)
           0 AtDaemon).
Definition retry2 : state :=
  becomes (moves (moves retry1 0 AtStart) 0 Elsewhere) 0 (Started Opening).
Definition retry3 : state := after_pass retry2 0 (stream_open false).
Definition retry4 : state :=
  new_thread
    (moves (stores (moves (moves retry3 0 AtSetFlag) 0 AtNewThread) true)
           0 AtDaemon).
Definition retry5 : state :=
  becomes (moves (moves retry4 0 AtStart) 0 Elsewhere) 1 (Started Opening).

End Interleaving.

(* ===================================================================== *)
(** ** Text on the wire                                                  *)
(* ===================================================================== *)

Module Utf8.
Import Py.

(** The code points [str.encode('utf-8')] accepts, which are also the
    ones a strict decode can produce: everything up to U+10FFFF but the
    surrogates. *)
Definition scalar (c : Z) : Prop :=
  0 <= c < 55296 \/ 57344 <= c < 1114112.

End Utf8.

(* ===================================================================== *)
(** ** Properties of the packetizer                                      *)
(* ===================================================================== *)

Section FragmentFacts.
Import Py Rtp.

Lemma be_bytes_length n v : length (be_bytes n v) = n.
Proof. induction n; simpl; congruence. Qed.

Lemma pack_uint_length n v b : pack_uint n v = Some b -> length b = n.
Proof.
  unfold pack_uint. destruct (_ && _); [|discriminate].
  intros [= <-]. apply be_bytes_length.
Qed.

Lemma pack_uint_in_range n v :
  0 <= v < 2 ^ (8 * Z.of_nat n) -> pack_uint n v = Some (be_bytes n v).
Proof.
  intros H. unfold pack_uint.
  replace (0 <=? v) with true by (symmetry; apply Z.leb_le; lia).
  replace (v <? 2 ^ (8 * Z.of_nat n)) with true by (symmetry; apply Z.ltb_lt; lia).
  reflexivity.
Qed.

Lemma create_rtp_header_length sq ts sr h :
  create_rtp_header sq ts sr = Some h -> length h = 12%nat.
Proof.
  unfold create_rtp_header.
  destruct (pack_uint 1 128) eqn:E0; [|discriminate].
  destruct (pack_uint 1 26) eqn:E1; [|discriminate].
  destruct (pack_uint 2 sq) eqn:E2; [|discriminate].
  destruct (pack_uint 4 ts) eqn:E3; [|discriminate].
  destruct (pack_uint 4 sr) eqn:E4; [|discriminate].
  intros [= <-]. rewrite !length_app.
  rewrite (pack_uint_length _ _ _ E0), (pack_uint_length _ _ _ E1),
    (pack_uint_length _ _ _ E2), (pack_uint_length _ _ _ E3),
    (pack_uint_length _ _ _ E4). reflexivity.
Qed.

Lemma create_rtp_header_in_range sq ts sr :
  0 <= sq < 65536 -> 0 <= ts < 2 ^ 32 -> 0 <= sr < 2 ^ 32 ->
  create_rtp_header sq ts sr =
  Some ([128; 26] ++ be_bytes 2 sq ++ be_bytes 4 ts ++ be_bytes 4 sr).
Proof.
  intros Hs Ht Hr. unfold create_rtp_header.
  rewrite (pack_uint_in_range 2 sq), (pack_uint_in_range 4 ts),
    (pack_uint_in_range 4 sr) by (simpl; lia).
  reflexivity.
Qed.

Lemma next_sequence_number_range sq :
  0 <= sq < 65536 -> 0 <= next_sequence_number sq < 65536.
Proof.
  unfold next_sequence_number. intros H.
  destruct (Z.gtb_spec (sq + 1) 65535); lia.
Qed.

Lemma next_sequence_number_mod sq :
  0 <= sq < 65536 -> next_sequence_number sq = (sq + 1) mod 65536.
Proof.
  unfold next_sequence_number. intros H.
  destruct (Z.gtb_spec (sq + 1) 65535).
  - replace (sq + 1) with 65536 by lia. reflexivity.
  - rewrite Z.mod_small; lia.
Qed.


Lemma ceil_div_step a k :
  0 < k -> 0 < a -> ceil_div a k = 1 + ceil_div (a - Z.min a k) k.
Proof.
  intros Hk Ha. unfold ceil_div.
  destruct (Z.min_spec a k) as [[Hlt ->] | [Hle ->]].
  - replace (a - a + k - 1) with (k - 1) by lia.
    rewrite (Z.div_small (k - 1)) by lia.
    symmetry. apply Z.div_unique with (r := a - 1); lia.
  - replace (a + k - 1) with (a - k + k - 1 + 1 * k) by lia.
    rewrite Z.div_add by lia. lia.
Qed.

Lemma to_nat_len {A} (l : list A) : Z.to_nat (len l) = length l.
Proof. unfold len. apply Nat2Z.id. Qed.

Lemma len_cons {A} (x : A) (l : list A) : len (x :: l) = 1 + len l.
Proof. unfold len. simpl length. lia. Qed.

Lemma len_app {A} (l1 l2 : list A) : len (l1 ++ l2) = len l1 + len l2.
Proof. unfold len. rewrite length_app. lia. Qed.

Lemma slice_inside {A} (l : list A) lo hi :
  0 <= lo <= hi -> hi <= len l ->
  slice l lo hi = firstn (Z.to_nat (hi - lo)) (skipn (Z.to_nat lo) l).
Proof.
  intros H1 H2. unfold slice, clip_index.
  destruct (Z.ltb_spec lo 0); [lia|]. destruct (Z.ltb_spec hi 0); [lia|].
  rewrite !Z.min_l by lia. reflexivity.
Qed.

Section AllSent.

Variables (M : Z) (data : bytes) (ts sr : Z) (ok : Z -> bool).
Hypothesis HM : RTP_HEADER_SIZE < M.
Hypothesis Hok : forall o, ok o = true.
Hypothesis Hts : 0 <= ts < 2 ^ 32.
Hypothesis Hsr : 0 <= sr < 2 ^ 32.

Lemma fragment_loop_all_sent offset sq :
  0 <= offset <= len data -> 0 <= sq < 65536 ->
  let r := fragment_loop M data ts sr ok offset sq in
  fr_exit r = LoopDone /\
  len (fr_sent r) = ceil_div (len data - offset) (M - RTP_HEADER_SIZE) /\
  Forall (fun p => len p <= M) (fr_sent r) /\
  concat (map datagram_payload (fr_sent r)) = skipn (Z.to_nat offset) data.
Proof.
  funelim (fragment_loop M data ts sr ok offset sq); intros Hoff Hsq; cbn zeta.
  - (* offset reached the end *)
    simpl. replace offset with (len data) by lia.
    rewrite to_nat_len, skipn_all.
    unfold ceil_div, RTP_HEADER_SIZE in *.
    replace (len data - len data + (M - 12) - 1) with (M - 12 - 1) by lia.
    rewrite Z.div_small by lia. repeat split; auto.
  - (* the guard cannot fire *)
    unfold payload_size_at, RTP_HEADER_SIZE in *. lia.
  - (* the header fields fit *)
    rewrite create_rtp_header_in_range in * by assumption. discriminate.
  - (* one datagram, then the rest *)
    unfold payload_size_at, RTP_HEADER_SIZE in *.
    set (p := Z.min (len data - offset) (M - 12)) in *.
    assert (Hp : 0 < p <= len data - offset) by (subst p; lia).
    assert (HpM : p <= M - 12) by (subst p; lia).
    match goal with
    | IH : _ -> _ -> _ /\ _ |- _ =>
        destruct IH as (Hex & Hlen & Hall & Hcat);
        [lia | now apply next_sequence_number_range |]
    end.
    match goal with
    | Hh : create_rtp_header _ _ _ = Some _ |- _ =>
        apply create_rtp_header_length in Hh; rename Hh into Hhdr
    end.
    simpl. repeat split.
    + assumption.
    + rewrite len_cons, Hlen.
      rewrite (ceil_div_step (len data - offset)) by lia.
      fold p. f_equal. f_equal. lia.
    + constructor; [|assumption].
      rewrite len_app, slice_inside by lia.
      unfold len in *. rewrite Hhdr, length_firstn, length_skipn. lia.
    + unfold datagram_payload at 1.
      rewrite skipn_app, Hhdr, Nat.sub_diag, skipn_all2 by lia. simpl.
      rewrite Hcat, slice_inside by lia.
      replace (offset + p - offset) with p by lia.
      replace (Z.to_nat (offset + p)) with (Z.to_nat p + Z.to_nat offset)%nat by lia.
      rewrite <- skipn_skipn. apply firstn_skipn.
  - (* sendto never raises *)
    rewrite Hok in *. discriminate.
Qed.

End AllSent.


Lemma pack_uint_some n v b :
  pack_uint n v = Some b -> 0 <= v < 2 ^ (8 * Z.of_nat n) /\ b = be_bytes n v.
Proof.
  unfold pack_uint. destruct (_ && _) eqn:E; [|discriminate].
  intros [= <-]. apply andb_prop in E as [E1 E2].
  apply Z.leb_le in E1. apply Z.ltb_lt in E2. auto.
Qed.

Lemma header_sequence_number sq ts sr h :
  create_rtp_header sq ts sr = Some h ->
  nth 2 h 0 * 256 + nth 3 h 0 = sq.
Proof.
  unfold create_rtp_header.
  change (pack_uint 1 128) with (Some [128]).
  change (pack_uint 1 26) with (Some [26]).
  destruct (pack_uint 2 sq) eqn:E2; [|discriminate].
  destruct (pack_uint 4 ts) eqn:E3; [|discriminate].
  destruct (pack_uint 4 sr) eqn:E4; [|discriminate].
  intros [= <-]. apply pack_uint_some in E2 as [Hsq ->].
  change (2 ^ (8 * Z.of_nat 2)) with 65536 in Hsq.
  cbn [be_bytes app nth Z.of_nat Z.mul Pos.of_succ_nat Pos.succ Pos.mul].
  change 255 with (Z.ones 8). rewrite !Z.land_ones, !Z.shiftr_div_pow2 by lia.
  change (2 ^ 8) with 256. change (2 ^ 0) with 1. rewrite Z.div_1_r.
  rewrite (Z.mod_small (sq / 256))
    by (split; [apply Z.div_pos|apply Z.div_lt_upper_bound]; lia).
  pose proof (Z.div_mod sq 256). lia.
Qed.

Lemma datagram_sequence_number_app h payload :
  length h = 12%nat ->
  datagram_sequence_number (h ++ payload) = nth 2 h 0 * 256 + nth 3 h 0.
Proof.
  intros Hh. unfold datagram_sequence_number.
  rewrite !app_nth1 by lia. reflexivity.
Qed.

Lemma sequence_numbers_from_S sq n :
  0 <= sq < 65536 ->
  sequence_numbers_from sq (S n) =
  sq :: sequence_numbers_from (next_sequence_number sq) n.
Proof.
  intros Hsq. unfold sequence_numbers_from. cbn [seq map].
  f_equal.
  - rewrite Z.add_0_r. apply Z.mod_small. assumption.
  - rewrite <- seq_shift, map_map. apply map_ext. intros i.
    rewrite next_sequence_number_mod, Zplus_mod_idemp_l by assumption.
    f_equal. lia.
Qed.

Lemma sequence_numbers_from_app sq n m :
  0 <= sq < 65536 ->
  sequence_numbers_from sq (n + m) =
  sequence_numbers_from sq n ++
  sequence_numbers_from ((sq + Z.of_nat n) mod 65536) m.
Proof.
  revert sq. induction n as [|n IH]; intros sq Hsq.
  - cbn [plus Z.of_nat]. rewrite Z.add_0_r, Z.mod_small by assumption.
    reflexivity.
  - cbn [plus]. rewrite !sequence_numbers_from_S by assumption.
    rewrite IH by now apply next_sequence_number_range.
    cbn [app]. do 3 f_equal.
    rewrite next_sequence_number_mod, Zplus_mod_idemp_l by assumption.
    f_equal. lia.
Qed.

Lemma fragment_loop_sequence M data ts sr ok offset sq :
  0 <= sq < 65536 ->
  let r := fragment_loop M data ts sr ok offset sq in
  map datagram_sequence_number (fr_sent r) =
    sequence_numbers_from sq (length (fr_sent r)) /\
  fr_sequence_number r = (sq + len (fr_sent r)) mod 65536.
Proof.
  funelim (fragment_loop M data ts sr ok offset sq); intros Hsq; cbn zeta;
    try (cbn; rewrite Z.add_0_r, Z.mod_small by assumption; now split).
  match goal with
  | IH : _ -> _ /\ _ |- _ =>
      destruct IH as (Hmap & Hfin); [now apply next_sequence_number_range|]
  end.
  match goal with
  | Hh : create_rtp_header _ _ _ = Some _ |- _ =>
      pose proof (header_sequence_number _ _ _ _ Hh) as Hnum;
      apply create_rtp_header_length in Hh; rename Hh into Hhdr
  end.
  cbn [fr_push fr_sent fr_sequence_number map length]. split.
  - rewrite sequence_numbers_from_S, datagram_sequence_number_app, Hnum, Hmap
      by assumption.
    reflexivity.
  - rewrite Hfin, len_cons, next_sequence_number_mod, Zplus_mod_idemp_l
      by assumption.
    f_equal. lia.
Qed.

Lemma fragment_loop_sequence_range M data ts sr ok offset sq :
  0 <= sq < 65536 ->
  0 <= fr_sequence_number (fragment_loop M data ts sr ok offset sq) < 65536.
Proof.
  intros Hsq. destruct (fragment_loop_sequence M data ts sr ok offset sq Hsq)
    as [_ ->].
  apply Z.mod_pos_bound. lia.
Qed.

Lemma stream_pass_sequence M io sq :
  0 <= sq < 65536 ->
  let r := stream_pass M io sq in
  map datagram_sequence_number (pr_sent r) =
    sequence_numbers_from sq (length (pr_sent r)) /\
  stands_at (pr_next r) ((sq + len (pr_sent r)) mod 65536).
Proof.
  intros Hsq. unfold stream_pass.
  destruct (active_seen io); cbn [negb]; [|now split].
  destruct (frame io) as [jpeg_data|]; [|now split].
  destruct (fragment_loop_sequence M jpeg_data (clock io) ssrc (sendto_ok io)
              0 sq Hsq) as [Hmap Hfin].
  destruct (fr_exit _); cbn; auto.
Qed.

Lemma stream_loop_sequence M ios sq :
  0 <= sq < 65536 ->
  let r := stream_loop M ios (Streaming sq) in
  map datagram_sequence_number (fst r) =
    sequence_numbers_from sq (length (fst r)) /\
  stands_at (snd r) ((sq + len (fst r)) mod 65536).
Proof.
  revert sq. induction ios as [|io ios IH]; intros sq Hsq; cbn zeta.
  - cbn. rewrite Z.add_0_r, Z.mod_small by assumption. now split.
  - cbn [stream_loop].
    destruct (stream_pass_sequence M io sq Hsq) as [Hmap Hnext].
    destruct (pr_next (stream_pass M io sq)) as [|sq'| |] eqn:Enext.
    + destruct ios; cbn [stream_loop fst snd]; rewrite app_nil_r; now split.
    + cbn in Hnext. subst sq'.
      specialize (IH ((sq + len (pr_sent (stream_pass M io sq))) mod 65536)).
      destruct IH as [IHmap IHnext]; [apply Z.mod_pos_bound; lia|].
      destruct (stream_loop M ios _) as [sent st']. cbn [fst snd] in *.
      rewrite map_app, length_app, sequence_numbers_from_app by assumption.
      rewrite Hmap, IHmap. split; [reflexivity|].
      destruct st'; cbn in *; auto.
      rewrite IHnext, len_app, Zplus_mod_idemp_l. f_equal. lia.
    + destruct ios; cbn [stream_loop fst snd]; rewrite app_nil_r; now split.
    + destruct ios; cbn [stream_loop fst snd]; rewrite app_nil_r; now split.
Qed.


(** C1. For every payload and every maximum datagram size above the header
    size (1400 and 12 in the running server), the fragmentation loop, when
    no [sendto] raises and the timestamp fits its header field, runs to the
    end of the payload and sends exactly [ceil(L / (M - H))] datagrams, each
    of at most [M] bytes, whose payloads concatenated in the order sent are
    the payload; for an empty payload it sends none. *)
Theorem fragmentation_covers_payload
  (max_packet_size : Z) (jpeg_data : bytes) (timestamp sequence_number : Z)
  (sendto_ok : Z -> bool) :
  RTP_HEADER_SIZE < max_packet_size ->
  (forall offset, sendto_ok offset = true) ->
  0 <= timestamp < 2 ^ 32 ->
  0 <= sequence_number < 65536 ->
  let r := fragment_loop max_packet_size jpeg_data timestamp ssrc sendto_ok
                         0 sequence_number in
  fr_exit r = LoopDone /\
  len (fr_sent r) =
    ceil_div (len jpeg_data) (max_packet_size - RTP_HEADER_SIZE) /\
  Forall (fun p => len p <= max_packet_size) (fr_sent r) /\
  concat (map datagram_payload (fr_sent r)) = jpeg_data /\
  (if len jpeg_data =? 0 then fr_sent r = [] else fr_sent r <> []).
Proof.
  intros HM Hok Hts Hsq r.
  destruct (fragment_loop_all_sent max_packet_size jpeg_data timestamp ssrc
              sendto_ok HM Hok Hts ltac:(unfold ssrc; lia) 0 sequence_number)
    as (Hex & Hlen & Hall & Hcat);
    [unfold len; lia | assumption |].
  fold r in Hex, Hlen, Hall, Hcat. rewrite Z.sub_0_r in Hlen.
  repeat split; try assumption.
  destruct (Z.eqb_spec (len jpeg_data) 0) as [H0 | H0].
  - destruct jpeg_data; [|discriminate]. cbn in Hcat.
    rewrite H0 in Hlen. unfold ceil_div, RTP_HEADER_SIZE in *.
    rewrite Z.div_small in Hlen by lia.
    destruct (fr_sent r); [reflexivity | discriminate].
  - intros Hnil. rewrite Hnil in Hcat. cbn in Hcat. subst jpeg_data.
    apply H0. reflexivity.
Qed.

Lemma fragmentation_covers_payload_witness :
  RTP_HEADER_SIZE < MAX_PACKET_SIZE /\
  (forall offset : Z, (fun _ : Z => true) offset = true) /\
  0 <= 90000 < 2 ^ 32 /\
  0 <= 65535 < 65536 /\
  let r := fragment_loop MAX_PACKET_SIZE (repeat 7 3000) 90000 ssrc
                         (fun _ => true) 0 65535 in
  fr_exit r = LoopDone /\
  len (fr_sent r) =
    ceil_div (len (repeat 7 3000)) (MAX_PACKET_SIZE - RTP_HEADER_SIZE) /\
  Forall (fun p => len p <= MAX_PACKET_SIZE) (fr_sent r) /\
  concat (map datagram_payload (fr_sent r)) = repeat 7 3000 /\
  (if len (repeat 7 3000) =? 0 then fr_sent r = [] else fr_sent r <> []).
Proof.
  assert (H1 : RTP_HEADER_SIZE < MAX_PACKET_SIZE) by reflexivity.
  assert (H2 : forall offset : Z, (fun _ : Z => true) offset = true)
    by reflexivity.
  assert (H3 : 0 <= 90000 < 2 ^ 32) by (split; [discriminate | reflexivity]).
  assert (H4 : 0 <= 65535 < 65536) by (split; [discriminate | reflexivity]).
  split; [exact H1|]. split; [exact H2|]. split; [exact H3|].
  split; [exact H4|].
  exact (fragmentation_covers_payload MAX_PACKET_SIZE (repeat 7 3000) 90000
           65535 (fun _ => true) H1 H2 H3 H4).
Defined.

(** A 3000-byte frame at the configured size goes out as three datagrams
    with payloads of 1388, 1388 and 224 bytes. *)
Example three_datagrams :
  map (fun p => len (datagram_payload p))
      (fr_sent (fragment_loop MAX_PACKET_SIZE (repeat 7 3000) 90000 ssrc
                              (fun _ => true) 0 65535))
  = [1388; 1388; 224].
Proof. vm_compute. reflexivity. Qed.

(** Entered at 65535, the counter passes through 0. *)
Example wraps_to_zero :
  let r := fragment_loop MAX_PACKET_SIZE (repeat 7 3000) 90000 ssrc
                         (fun _ => true) 0 65535 in
  map datagram_sequence_number (fr_sent r) = [65535; 0; 1] /\
  fr_sequence_number r = 2.
Proof. vm_compute. split; reflexivity. Qed.

(** C3. In every job the datagrams carry, in the order sent, the sequence
    numbers 0, 1, 2, ... modulo 65536: the first one of a new job carries 0,
    each next one the successor of the one before, 65535 is followed by 0,
    and the counter is never set back in between; the counter the thread
    holds afterwards is the number of datagrams sent, modulo 65536. *)
Theorem job_sequence_numbers
  (max_packet_size : Z) (opened : bool) (ios : list frame_io) :
  let job := rtp_stream_video max_packet_size opened ios in
  map datagram_sequence_number (fst job) =
    map (fun i => Z.of_nat i mod 65536) (seq 0 (length (fst job))) /\
  stands_at (snd job) (len (fst job) mod 65536) /\
  pr_next (stream_open true) = Streaming 0 /\
  next_sequence_number 65535 = 0.
Proof.
  cbn zeta. unfold rtp_stream_video. destruct opened; cbn [stream_open pr_next].
  - destruct (stream_loop_sequence max_packet_size ios 0) as [Hmap Hst];
      [lia|]. auto.
  - destruct ios; cbn; auto.
Qed.


Lemma fragment_loop_guard M data ts sr ok offset sq :
  M <= RTP_HEADER_SIZE -> offset < len data ->
  fragment_loop M data ts sr ok offset sq =
  {| fr_sent := []; fr_sequence_number := sq; fr_exit := LoopGuard |}.
Proof.
  intros HM Hlt.
  funelim (fragment_loop M data ts sr ok offset sq);
    try reflexivity; unfold payload_size_at in *; lia.
Qed.

(** C5, as the code has it.  When the maximum datagram size is at most the
    header size, nothing is reported: on every non-empty frame the
    fragmentation loop leaves at once through its [payload_size <= 0]
    guard, no datagram is sent, the sequence number and the running flag
    stay as they were, and the thread goes on to the next frame. *)
Theorem undersized_packet_size_sends_nothing
  (max_packet_size : Z) (io : frame_io) (jpeg_data : bytes)
  (sequence_number : Z) :
  max_packet_size <= RTP_HEADER_SIZE ->
  active_seen io = true ->
  frame io = Some jpeg_data ->
  jpeg_data <> [] ->
  fragment_loop max_packet_size jpeg_data (clock io) ssrc (sendto_ok io)
                0 sequence_number =
    {| fr_sent := []; fr_sequence_number := sequence_number;
       fr_exit := LoopGuard |} /\
  stream_pass max_packet_size io sequence_number =
    {| pr_sent := []; pr_clears_active := false;
       pr_next := Streaming sequence_number |} /\
  ~ signals_failure (stream_pass max_packet_size io sequence_number).
Proof.
  intros HM Hact Hframe Hne.
  assert (Hloop : fragment_loop max_packet_size jpeg_data (clock io) ssrc
                    (sendto_ok io) 0 sequence_number =
                  {| fr_sent := []; fr_sequence_number := sequence_number;
                     fr_exit := LoopGuard |}).
  { apply fragment_loop_guard; [assumption|].
    destruct jpeg_data; [contradiction | rewrite len_cons; unfold len; lia]. }
  assert (Hpass : stream_pass max_packet_size io sequence_number =
                  {| pr_sent := []; pr_clears_active := false;
                     pr_next := Streaming sequence_number |}).
  { unfold stream_pass. rewrite Hact, Hframe. cbn [negb]. rewrite Hloop.
    reflexivity. }
  repeat split; try assumption.
  rewrite Hpass. intros [H | H]; discriminate.
Qed.

Lemma undersized_packet_size_witness :
  12 <= RTP_HEADER_SIZE /\
  active_seen small_frame = true /\
  frame small_frame = Some [1; 2; 3] /\
  [1; 2; 3] <> ([] : bytes) /\
  fragment_loop 12 [1; 2; 3] (clock small_frame) ssrc
                (sendto_ok small_frame) 0 7 =
    {| fr_sent := []; fr_sequence_number := 7; fr_exit := LoopGuard |} /\
  stream_pass 12 small_frame 7 =
    {| pr_sent := []; pr_clears_active := false; pr_next := Streaming 7 |} /\
  ~ signals_failure (stream_pass 12 small_frame 7).
Proof.
  assert (H1 : 12 <= RTP_HEADER_SIZE) by discriminate.
  assert (H2 : active_seen small_frame = true) by reflexivity.
  assert (H3 : frame small_frame = Some [1; 2; 3]) by reflexivity.
  assert (H4 : [1; 2; 3] <> ([] : bytes)) by discriminate.
  split; [exact H1|]. split; [exact H2|]. split; [exact H3|].
  split; [exact H4|].
  exact (undersized_packet_size_sends_nothing 12 small_frame [1; 2; 3] 7
           H1 H2 H3 H4).
Defined.

(** C5, as the claim has it, fails: with a maximum datagram size of 12 the
    job opens, takes two frames of three bytes, sends nothing and signals
    no failure. *)
Lemma undersized_packet_size_unreported :
  12 <= RTP_HEADER_SIZE /\
  rtp_stream_video 12 true [small_frame; small_frame] =
    ([], Streaming 0) /\
  ~ signals_failure (stream_open true) /\
  ~ signals_failure (stream_pass 12 small_frame 0).
Proof.
  split; [discriminate|]. split; [vm_compute; reflexivity|].
  split; intros [H | H]; vm_compute in H; discriminate.
Qed.

End FragmentFacts.

(* ===================================================================== *)
(** ** Properties of the Python string operations                        *)
(* ===================================================================== *)

Section StringFacts.
Import Py.

Lemma startswith_app (p rest : str) : startswith (p ++ rest) p = true.
Proof.
  induction p as [|c p IH]; [reflexivity|].
  cbn. rewrite Z.eqb_refl. exact IH.
Qed.

Lemma startswith_inv (s p : str) :
  startswith s p = true -> exists rest, s = p ++ rest.
Proof.
  revert s. induction p as [|c p IH]; intros s H.
  - exists s. reflexivity.
  - destruct s as [|d s]; [discriminate|]. cbn in H.
    apply andb_prop in H as [Hd Hs]. apply Z.eqb_eq in Hd. subst d.
    destruct (IH s Hs) as [rest ->]. exists rest. reflexivity.
Qed.

Lemma contains_nil_l (sub : str) :
  contains [] sub = true -> sub = [].
Proof.
  cbn. destruct sub; [reflexivity|]. cbn. discriminate.
Qed.

Lemma contains_app (pre sub post : str) :
  contains (pre ++ sub ++ post) sub = true.
Proof.
  induction pre as [|c pre IH].
  - cbn [app]. destruct (sub ++ post) eqn:E; cbn [contains];
      rewrite <- ?E, startswith_app; reflexivity.
  - cbn [app contains]. rewrite IH. apply orb_true_r.
Qed.

Lemma contains_inv (s sub : str) :
  contains s sub = true -> exists pre post, s = pre ++ sub ++ post.
Proof.
  induction s as [|c s IH]; intros H.
  - apply contains_nil_l in H. subst sub. exists [], []. reflexivity.
  - cbn [contains] in H. apply orb_prop in H as [H | H].
    + apply startswith_inv in H as [rest ->]. exists [], rest. reflexivity.
    + destruct (IH H) as (pre & post & ->). exists (c :: pre), post.
      reflexivity.
Qed.

(** [sub in s] holds exactly when [sub] occurs somewhere in [s]. *)
Lemma contains_spec (s sub : str) :
  contains s sub = true <-> exists pre post, s = pre ++ sub ++ post.
Proof.
  split; [apply contains_inv|]. intros (pre & post & ->). apply contains_app.
Qed.

(** Whatever contains a text contains every part of that text. *)
Lemma contains_trans (s mid sub : str) :
  contains s mid = true -> contains mid sub = true -> contains s sub = true.
Proof.
  intros H1 H2. apply contains_inv in H1 as (p1 & q1 & ->).
  apply contains_inv in H2 as (p2 & q2 & ->).
  replace (p1 ++ (p2 ++ sub ++ q2) ++ q1) with ((p1 ++ p2) ++ sub ++ (q2 ++ q1))
    by (rewrite <- !app_assoc; reflexivity).
  apply contains_app.
Qed.


End StringFacts.

(* ===================================================================== *)
(** ** Properties of the control connection                              *)
(* ===================================================================== *)

Section RtspFacts.
Import Py Rtp Rtsp.

Lemma handle_request_text io data :
  request_text io = Some data -> data <> [] ->
  handle_request io = run_command io (dispatch data) (parse_cseq data).
Proof.
  unfold request_text, handle_request. destruct (rx io); [|discriminate].
  intros -> Hne. destruct data; [contradiction | reflexivity].
Qed.

Lemma send_then_ok io response k :
  tx_raises io = None ->
  send_then io response k = ([SendAll (encode_utf8 response)], k).
Proof. unfold send_then. intros ->. reflexivity. Qed.

Lemma dispatch_first_keyword data : dispatch data = first_keyword data.
Proof.
  unfold dispatch, first_keyword, priority. cbn [find keyword].
  repeat (destruct (contains data _); [reflexivity|]). reflexivity.
Qed.


(** C10. The branch taken is the first of SETUP, PLAY, TEARDOWN, DESCRIBE,
    OPTIONS whose keyword occurs anywhere in the request text, and the
    400 branch when none occurs; a text with several keywords takes the
    branch of the first in that order only, and a text in which PLAY
    occurs inside DISPLAY takes the PLAY branch unless SETUP occurs too. *)
Theorem dispatch_by_first_keyword (data pre post : str) :
  dispatch data = first_keyword data /\
  (contains data (keyword (dispatch data)) = true) /\
  dispatch (lit "OPTIONS DESCRIBE TEARDOWN PLAY SETUP") = SETUP /\
  dispatch (lit "OPTIONS DESCRIBE TEARDOWN PLAY") = PLAY /\
  dispatch (lit "OPTIONS DESCRIBE TEARDOWN") = TEARDOWN /\
  dispatch (lit "OPTIONS DESCRIBE") = DESCRIBE /\
  dispatch (pre ++ lit "DISPLAY" ++ post) =
    (if contains (pre ++ lit "DISPLAY" ++ post) (lit "SETUP")
     then SETUP else PLAY).
Proof.
  split; [apply dispatch_first_keyword|]. split.
  { unfold dispatch.
    repeat (match goal with
            | |- context [if contains data ?k then _ else _] =>
                let E := fresh in destruct (contains data k) eqn:E;
                [exact E|]
            end).
    cbn [keyword]. destruct data; reflexivity. }
  repeat (split; [vm_compute; reflexivity|]).
  unfold dispatch.
  destruct (contains (pre ++ lit "DISPLAY" ++ post) (lit "SETUP"));
    [reflexivity|].
  rewrite (contains_trans _ (lit "DISPLAY") (lit "PLAY"));
    [reflexivity | apply contains_app | vm_compute; reflexivity].
Qed.




Lemma stream_loop_finished M ios st :
  Server.is_streaming st = false -> stream_loop M ios st = ([], st).
Proof. destruct ios, st; cbn; intros H; try reflexivity; discriminate. Qed.

Lemma stream_pass_not_opening M io sq :
  pr_next (stream_pass M io sq) <> Opening.
Proof.
  unfold stream_pass. destruct (active_seen io); cbn [negb]; [|discriminate].
  destruct (frame io); [|discriminate].
  destruct (fr_exit _); discriminate.
Qed.


Lemma startswith_status_ok cseq rest :
  startswith (status_ok cseq ++ rest) (lit "RTSP/1.0 200 OK") = true.
Proof.
  unfold status_ok. rewrite <- !app_assoc. apply startswith_app.
Qed.


(** How a PLAY request goes, whatever the flag. *)
Lemma play_request io data :
  request_text io = Some data -> data <> [] -> dispatch data = PLAY ->
  tx_raises io = None ->
  handle_request io =
    ((if streaming_active_seen io then []
      else [SetStreamingActive true; StartRtpThread]) ++
     [SendAll (encode_utf8 (play_response (parse_cseq data)))], Next).
Proof.
  intros Htext Hne Hcmd Htx.
  rewrite (handle_request_text io data Htext Hne), Hcmd.
  cbn [run_command]. rewrite send_then_ok by assumption.
  destruct (streaming_active_seen io); reflexivity.
Qed.

(** C9. When a PLAY arrives while the flag is clear, the handler sets the
    flag, starts one streaming thread and, [sendall] not raising, answers
    200 OK with the session token; when that thread then fails to open
    the frame source it clears the flag and returns, having put no datagram
    on the network. *)
Theorem source_open_failure
  (io : request_io) (data : str) (s : Server.state) (fio : frame_io)
  (ios : list frame_io) :
  request_text io = Some data ->
  data <> [] ->
  dispatch data = PLAY ->
  tx_raises io = None ->
  streaming_active_seen io = false ->
  let response := play_response (parse_cseq data) in
  let t := length (Server.threads s) in
  let s1 := fold_left Server.apply_effect (fst (handle_request io)) s in
  let s2 := Server.apply_pass s1 t
              (stream_step MAX_PACKET_SIZE false fio Opening) in
  handle_request io =
    ([SetStreamingActive true; StartRtpThread;
      SendAll (encode_utf8 response)], Next) /\
  response = lit "RTSP/1.0 200 OK" ++ crlf ++
             lit "CSeq: " ++ parse_cseq data ++ crlf ++
             lit "Session: 12345678" ++ crlf ++ crlf /\
  Server.streaming_active s1 = true /\
  nth_error (Server.threads s1) t = Some Opening /\
  Server.streaming_active s2 = false /\
  nth_error (Server.threads s2) t = Some Returned /\
  Server.network s2 = Server.network s /\
  rtp_stream_video MAX_PACKET_SIZE false ios = ([], Returned).
Proof.
  intros Htext Hne Hcmd Htx Hidle response t s1 s2.
  assert (Hreq : handle_request io =
                 ([SetStreamingActive true; StartRtpThread;
                   SendAll (encode_utf8 response)], Next)).
  { rewrite (play_request io data Htext Hne Hcmd Htx), Hidle. reflexivity. }
  split; [exact Hreq|]. split.
  { unfold response, play_response, status_ok. rewrite <- !app_assoc.
    reflexivity. }
  assert (Hnth : forall (l : list thread_state) x,
             nth_error (l ++ [x]) (length l) = Some x).
  { intros l x. rewrite nth_error_app2, Nat.sub_diag by lia. reflexivity. }
  assert (Hset : forall (l : list thread_state) x y,
             Server.set_nth (l ++ [x]) (length l) y = l ++ [y]).
  { induction l as [|z l IHl]; intros x y; cbn; [reflexivity|].
    rewrite IHl. reflexivity. }
  subst s2 s1. rewrite Hreq. cbn [fst fold_left Server.apply_effect].
  cbn [stream_step stream_open Server.apply_pass pr_clears_active pr_next
       pr_sent Server.streaming_active Server.threads Server.network map].
  subst t. rewrite Hset, !Hnth, app_nil_r.
  repeat split; try reflexivity.
  destruct ios; reflexivity.
Qed.








End RtspFacts.

(* ===================================================================== *)
(** ** Several connections, one flag                                      *)
(* ===================================================================== *)

Section ServerFacts.
Import Py Rtp Rtsp Server Inputs.

Ltac by_computation := vm_compute; reflexivity.

Lemma run_steps :
  step run0 run1 /\ step run1 run2 /\ step run2 run3 /\ step run3 run4 /\
  step run4 run5 /\ step run5 run6 /\ step run6 run7 /\ step run7 run8.
Proof.
  repeat split.
  - apply (step_handler run0 (arrives play_text false false));
      by_computation.
  - apply (step_thread run1 0 Opening true small_frame); by_computation.
  - apply (step_thread run2 0 (Streaming 0) true small_frame);
      by_computation.
  - apply (step_handler run3 (arrives teardown_text true true));
      by_computation.
  - apply (step_handler run4 (arrives play_text false true));
      by_computation.
  - apply (step_thread run5 1 Opening true small_frame); by_computation.
  - apply (step_thread run6 0 (Streaming 1) true small_frame);
      by_computation.
  - apply (step_thread run7 1 (Streaming 0) true small_frame);
      by_computation.
Qed.

(** A handler starts a streaming thread only when it reads the flag as
    clear, and then it sets the flag and starts exactly one. *)
Lemma handler_starts_one_thread (s : state) (io : request_io) :
  streaming_active_seen io = streaming_active s ->
  let s' := fold_left apply_effect (fst (handle_request io)) s in
  threads s' = threads s \/
  (streaming_active s = false /\ streaming_active s' = true /\
   threads s' = threads s ++ [Opening]).
Proof.
  intros Hseen. unfold handle_request.
  destruct (rx io) as [b | e]; [|left; reflexivity].
  destruct (decode_utf8 b) as [[|c data]|]; try (left; reflexivity).
  destruct (dispatch (c :: data)); cbn [run_command response_of];
    unfold send_then; destruct (tx_raises io);
    try (left; reflexivity);
    try (destruct (rtp_thread_alive io); left; reflexivity).
  all: destruct (streaming_active_seen io); cbn [negb];
    [left; reflexivity | right; cbn; auto].
Qed.

(** C2 at a run of the code.  After a PLAY, a TEARDOWN and a PLAY on a
    second connection that arrives before the first streaming thread has
    tested the flag again, the flag is set and two streaming threads are
    inside their loops at once, and each has put datagrams on the
    network. *)
Theorem two_streamers_reachable :
  reachable run8 /\
  streaming_active run8 = true /\
  threads run8 = [Streaming 2; Streaming 1] /\
  streaming_threads run8 = 2%nat /\
  map fst (network run8) = [0; 0; 1]%nat /\
  map fst (skipn (length (network run4)) (network run8)) = [0; 1]%nat.
Proof.
  destruct run_steps as (H1 & H2 & H3 & H4 & H5 & H6 & H7 & H8).
  split.
  { repeat (eapply reach_step; [|eassumption]). apply reach_initial. }
  repeat split; by_computation.
Qed.

End ServerFacts.

(* ===================================================================== *)
(** ** The CSeq header                                                    *)
(* ===================================================================== *)

Section CSeqFacts.
Import Py Rtsp Inputs.

Lemma lit_colon : lit ":" = [colon].
Proof. reflexivity. Qed.

Lemma contains_colon_cons c a :
  contains (c :: a) [colon] = false ->
  (c =? colon) = false /\ contains a [colon] = false.
Proof.
  cbn [contains startswith]. rewrite andb_true_r.
  intros H. apply orb_false_elim in H. exact H.
Qed.

Lemma split_scan_colon_free a cur :
  contains a [colon] = false ->
  split_scan [colon] a 0 cur = [rev cur ++ a].
Proof.
  revert cur. induction a as [|c a IH]; intros cur H.
  - cbn. rewrite app_nil_r. reflexivity.
  - apply contains_colon_cons in H as [Hc Ha].
    cbn [split_scan startswith]. rewrite Hc. cbn [andb].
    rewrite IH by assumption. cbn [rev]. rewrite <- app_assoc. reflexivity.
Qed.

Lemma split_scan_first_colon a rest cur :
  contains a [colon] = false ->
  split_scan [colon] (a ++ colon :: rest) 0 cur =
  (rev cur ++ a) :: split_scan [colon] rest 0 [].
Proof.
  revert cur. induction a as [|c a IH]; intros cur H.
  - cbn [app split_scan startswith]. rewrite Z.eqb_refl. cbn [andb].
    rewrite app_nil_r. reflexivity.
  - apply contains_colon_cons in H as [Hc Ha].
    cbn [app split_scan startswith]. rewrite Hc. cbn [andb].
    rewrite IH by assumption. cbn [rev]. rewrite <- app_assoc. reflexivity.
Qed.

(** What the scan keeps of a header line: the text between the colon of
    [CSeq:] and the next colon, if any, without surrounding white space. *)
Lemma cseq_of_line value :
  nth 1 (split (lit "CSeq:" ++ value) (lit ":")) [] =
  nth 0 (split value (lit ":")) [].
Proof.
  unfold split. rewrite lit_colon.
  change (lit "CSeq:" ++ value) with (lit "CSeq" ++ colon :: value).
  rewrite split_scan_first_colon by reflexivity. reflexivity.
Qed.

Lemma scan_cseq_skip before line after cseq :
  Forall (fun l => startswith l (lit "CSeq:") = false) before ->
  startswith line (lit "CSeq:") = true ->
  scan_cseq (before ++ line :: after) cseq =
  strip (nth 1 (split line (lit ":")) []).
Proof.
  intros Hb Hl. induction Hb as [|l before Hl0 _ IH].
  - cbn [app scan_cseq]. rewrite Hl. reflexivity.
  - cbn [app scan_cseq]. rewrite Hl0. exact IH.
Qed.

(** A request without a CSeq header line is answered with CSeq 1. *)
Lemma cseq_default data :
  Forall (fun l => startswith l (lit "CSeq:") = false) (split data crlf) ->
  parse_cseq data = lit "1".
Proof.
  unfold parse_cseq. intros H. generalize (lit "1").
  induction H as [|l ls Hl _ IH]; intros d; cbn [scan_cseq];
    [reflexivity|]. rewrite Hl. apply IH.
Qed.

(** The value of the first CSeq header line is echoed, without surrounding
    white space, when it contains no colon. *)
Lemma cseq_echo data before value after :
  split data crlf = before ++ (lit "CSeq:" ++ value) :: after ->
  Forall (fun l => startswith l (lit "CSeq:") = false) before ->
  contains value (lit ":") = false ->
  parse_cseq data = strip value.
Proof.
  intros Hsplit Hb Hv. unfold parse_cseq. rewrite Hsplit.
  rewrite scan_cseq_skip by (assumption || apply startswith_app).
  rewrite cseq_of_line. unfold split. rewrite lit_colon in *.
  rewrite split_scan_colon_free by assumption. reflexivity.
Qed.

(** When the value contains a colon, only what precedes its first colon
    is echoed. *)
Lemma cseq_cut_at_colon data before v1 v2 after :
  split data crlf = before ++ (lit "CSeq:" ++ v1 ++ lit ":" ++ v2) :: after ->
  Forall (fun l => startswith l (lit "CSeq:") = false) before ->
  contains v1 (lit ":") = false ->
  parse_cseq data = strip v1.
Proof.
  intros Hsplit Hb Hv. unfold parse_cseq. rewrite Hsplit.
  rewrite scan_cseq_skip by (assumption || apply startswith_app).
  rewrite cseq_of_line. unfold split. rewrite lit_colon in *.
  cbn [app]. rewrite split_scan_first_colon by assumption. reflexivity.
Qed.

Lemma contains_after (pre mid post whole : str) :
  whole = pre ++ mid ++ post -> contains whole mid = true.
Proof. intros ->. apply contains_app. Qed.

(** Every response carries the scanned value in its CSeq header. *)
Lemma response_carries_cseq c cseq :
  contains (response_of c cseq) (lit "CSeq: " ++ cseq ++ crlf) = true.
Proof.
  destruct c; cbn [response_of];
    unfold setup_response, play_response, teardown_response,
      describe_response, describe_headers, options_response,
      bad_request_response, status_ok.
  1-5: eapply (contains_after (lit "RTSP/1.0 200 OK" ++ crlf));
    rewrite <- !app_assoc; reflexivity.
  eapply (contains_after (lit "RTSP/1.0 400 Bad Request" ++ crlf));
    rewrite <- !app_assoc; reflexivity.
Qed.

(** C6 at a request of the code.  An OPTIONS request with the header
    [CSeq: 7:1] is answered [CSeq: 7]: the token is cut at its colon. *)
Theorem cseq_with_colon_truncated :
  split options_text crlf =
    [lit "OPTIONS rtsp://127.0.0.1:554/stream RTSP/1.0"; lit "CSeq: 7:1";
     []; []] /\
  parse_cseq options_text = lit "7" /\
  handle_request (arrives options_text false false) =
    ([SendAll (encode_utf8
        (lit "RTSP/1.0 200 OK" ++ crlf ++ lit "CSeq: 7" ++ crlf ++
         lit "Public: DESCRIBE, SETUP, TEARDOWN, PLAY, PAUSE, OPTIONS" ++
         crlf ++ crlf))], Next) /\
  contains (options_response (parse_cseq options_text)) (lit "7:1") = false.
Proof. repeat split; vm_compute; reflexivity. Qed.

End CSeqFacts.

(* ===================================================================== *)
(** ** The theorems at concrete requests                                 *)
(* ===================================================================== *)

Section Witnesses.
Import Py Rtp Rtsp Inputs.

Ltac computed := vm_compute; reflexivity.
Ltac distinct := let H := fresh in intros H; vm_compute in H; discriminate H.



Lemma source_open_failure_witness :
  let io := arrives play_text false false in
  let data := play_text in
  let s := Server.initial in
  let response := play_response (parse_cseq data) in
  let t := length (Server.threads s) in
  let s1 := fold_left Server.apply_effect (fst (handle_request io)) s in
  let s2 := Server.apply_pass s1 t
              (stream_step MAX_PACKET_SIZE false small_frame Opening) in
  request_text io = Some data /\
  data <> [] /\
  dispatch data = PLAY /\
  tx_raises io = None /\
  streaming_active_seen io = false /\
  handle_request io =
    ([SetStreamingActive true; StartRtpThread;
      SendAll (encode_utf8 response)], Next) /\
  response = lit "RTSP/1.0 200 OK" ++ crlf ++
             lit "CSeq: " ++ parse_cseq data ++ crlf ++
             lit "Session: 12345678" ++ crlf ++ crlf /\
  Server.streaming_active s1 = true /\
  nth_error (Server.threads s1) t = Some Opening /\
  Server.streaming_active s2 = false /\
  nth_error (Server.threads s2) t = Some Returned /\
  Server.network s2 = Server.network s /\
  rtp_stream_video MAX_PACKET_SIZE false [small_frame] = ([], Returned).
Proof.
  intros io data s response t s1 s2.
  assert (H1 : request_text io = Some data) by computed.
  assert (H2 : data <> []) by distinct.
  assert (H3 : dispatch data = PLAY) by computed.
  assert (H4 : tx_raises io = None) by reflexivity.
  assert (H5 : streaming_active_seen io = false) by reflexivity.
  split; [exact H1|]. split; [exact H2|]. split; [exact H3|].
  split; [exact H4|]. split; [exact H5|].
  exact (source_open_failure io data s small_frame [small_frame]
           H1 H2 H3 H4 H5).
Defined.


(** After the 400 the same connection answers a DESCRIBE. *)
Example describe_after_bad_request :
  map (fun b => option_map (fun t => startswith t (lit "RTSP/1.0 200 OK"))
                           (decode_utf8 b))
      (sent_bytes (fst (handle_rtsp_client
                          [arrives unknown_text false false;
                           arrives describe_text false false]))) =
    [Some false; Some true] /\
  snd (handle_rtsp_client [arrives unknown_text false false;
                           arrives describe_text false false]) = Open.
Proof. split; vm_compute; reflexivity. Qed.

End Witnesses.

(* ===================================================================== *)
(** ** The header on the wire                                            *)
(* ===================================================================== *)

Section WireFacts.
Import Py Rtp Wire.

Lemma be_value_from (b : bytes) (acc : Z) :
  fold_left (fun a x => a * 256 + x) b acc =
  acc * 256 ^ len b + be_value b.
Proof.
  unfold be_value. revert acc. induction b as [|x b IH]; intros acc.
  - cbn. lia.
  - cbn [fold_left]. rewrite IH, (IH (0 * 256 + x)), len_cons.
    rewrite Z.pow_add_r by (unfold len; lia). lia.
Qed.

Lemma be_value_cons x b : be_value (x :: b) = x * 256 ^ len b + be_value b.
Proof. unfold be_value at 1. cbn [fold_left]. rewrite be_value_from. lia. Qed.

Lemma len_be_bytes n v : len (be_bytes n v) = Z.of_nat n.
Proof. unfold len. rewrite be_bytes_length. reflexivity. Qed.

(** The [n] low octets of [v] spell [v mod 256^n]. *)
Lemma be_value_be_bytes n v :
  0 <= v -> be_value (be_bytes n v) = v mod 256 ^ Z.of_nat n.
Proof.
  intros Hv. induction n as [|n IH].
  - cbn. rewrite Z.mod_1_r. reflexivity.
  - cbn [be_bytes]. rewrite be_value_cons, IH, len_be_bytes.
    change 255 with (Z.ones 8).
    rewrite Z.land_ones, Z.shiftr_div_pow2 by lia.
    replace (2 ^ (8 * Z.of_nat n)) with (256 ^ Z.of_nat n)
      by (change 256 with (2 ^ 8); rewrite <- Z.pow_mul_r by lia; reflexivity).
    change (2 ^ 8) with 256.
    rewrite Nat2Z.inj_succ, Z.pow_succ_r by lia.
    rewrite (Z.mul_comm 256), Z.rem_mul_r by lia. lia.
Qed.

Lemma be_bytes_octets n v : Forall is_octet (be_bytes n v).
Proof.
  induction n as [|n IH]; cbn [be_bytes]; constructor; [|exact IH].
  unfold is_octet. change 255 with (Z.ones 8). rewrite Z.land_ones by lia.
  apply Z.mod_pos_bound. reflexivity.
Qed.

Lemma pow_256 n : 256 ^ Z.of_nat n = 2 ^ (8 * Z.of_nat n).
Proof. change 256 with (2 ^ 8). rewrite <- Z.pow_mul_r by lia. reflexivity. Qed.

Lemma create_rtp_header_fits sq ts sr h :
  create_rtp_header sq ts sr = Some h ->
  fields_fit sq ts sr /\
  h = [128; 26] ++ be_bytes 2 sq ++ be_bytes 4 ts ++ be_bytes 4 sr.
Proof.
  unfold create_rtp_header.
  change (pack_uint 1 128) with (Some [128]).
  change (pack_uint 1 26) with (Some [26]).
  destruct (pack_uint 2 sq) eqn:E2; [|discriminate].
  destruct (pack_uint 4 ts) eqn:E3; [|discriminate].
  destruct (pack_uint 4 sr) eqn:E4; [|discriminate].
  intros [= <-].
  apply pack_uint_some in E2 as [H2 ->].
  apply pack_uint_some in E3 as [H3 ->].
  apply pack_uint_some in E4 as [H4 ->].
  split; [|reflexivity]. unfold fields_fit. auto.
Qed.

Lemma slice_middle {A} (a b c : list A) lo hi :
  lo = len a -> hi = len a + len b ->
  slice (a ++ b ++ c) lo hi = b.
Proof.
  intros -> ->. rewrite slice_inside
    by (rewrite ?len_app; unfold len; lia).
  replace (len a + len b - len a) with (len b) by lia.
  rewrite !to_nat_len, skipn_app, skipn_all, Nat.sub_diag. cbn [skipn app].
  rewrite firstn_app, firstn_all, Nat.sub_diag. cbn [firstn].
  apply app_nil_r.
Qed.

Lemma header_fields sq ts sr payload :
  fields_fit sq ts sr ->
  let p := ([128; 26] ++ be_bytes 2 sq ++ be_bytes 4 ts ++ be_bytes 4 sr)
           ++ payload in
  datagram_flags p = 128 /\ datagram_payload_type p = 26 /\
  datagram_sequence_number p = sq /\
  datagram_timestamp p = ts /\ datagram_ssrc p = sr /\
  datagram_payload p = payload.
Proof.
  intros (Hsq & Hts & Hsr) p.
  assert (H4 : forall v, 0 <= v < 2 ^ 32 -> be_value (be_bytes 4 v) = v).
  { intros v Hv. rewrite be_value_be_bytes by lia.
    apply Z.mod_small. exact Hv. }
  split; [reflexivity|]. split; [reflexivity|]. split.
  { unfold p. rewrite datagram_sequence_number_app
      by (rewrite !length_app, !be_bytes_length; reflexivity).
    apply (header_sequence_number sq ts sr).
    apply create_rtp_header_in_range; assumption. }
  split.
  { unfold datagram_timestamp, p.
    replace (([128; 26] ++ be_bytes 2 sq ++ be_bytes 4 ts ++ be_bytes 4 sr)
             ++ payload)
      with (([128; 26] ++ be_bytes 2 sq) ++ be_bytes 4 ts ++
            (be_bytes 4 sr ++ payload))
      by (rewrite <- !app_assoc; reflexivity).
    rewrite slice_middle
      by (rewrite ?len_app, ?len_be_bytes; reflexivity).
    apply H4. exact Hts. }
  split.
  { unfold datagram_ssrc, p.
    replace (([128; 26] ++ be_bytes 2 sq ++ be_bytes 4 ts ++ be_bytes 4 sr)
             ++ payload)
      with (([128; 26] ++ be_bytes 2 sq ++ be_bytes 4 ts) ++ be_bytes 4 sr ++
            payload)
      by (rewrite <- !app_assoc; reflexivity).
    rewrite slice_middle
      by (rewrite ?len_app, ?len_be_bytes; reflexivity).
    apply H4. exact Hsr. }
  unfold datagram_payload, p. rewrite skipn_app, skipn_all2
    by (rewrite !length_app, !be_bytes_length; cbn; lia).
  rewrite !length_app, !be_bytes_length. reflexivity.
Qed.

(** X1. When every field fits its width, [create_rtp_header] returns 12
    octets from which a receiver reads back the flags 0x80, the payload
    type 26 and the very sequence number, timestamp and ssrc passed in. *)
Theorem header_round_trip (sequence_number timestamp ssrc : Z) :
  fields_fit sequence_number timestamp ssrc ->
  exists h,
    create_rtp_header sequence_number timestamp ssrc = Some h /\
    len h = RTP_HEADER_SIZE /\
    Forall is_octet h /\
    datagram_flags h = 128 /\
    datagram_payload_type h = 26 /\
    datagram_sequence_number h = sequence_number /\
    datagram_timestamp h = timestamp /\
    datagram_ssrc h = ssrc.
Proof.
  intros Hfit. pose proof Hfit as (Hsq & Hts & Hsr).
  eexists. split.
  { apply create_rtp_header_in_range; assumption. }
  destruct (header_fields sequence_number timestamp ssrc [] Hfit)
    as (H0 & H1 & H2 & H3 & H4 & _).
  rewrite app_nil_r in *.
  split. { unfold len. rewrite !length_app, !be_bytes_length. reflexivity. }
  split.
  { repeat (apply Forall_app; split); try apply be_bytes_octets.
    repeat constructor; unfold is_octet; lia. }
  auto 6.
Qed.

Lemma header_round_trip_witness :
  fields_fit 65535 4294967295 305419896 /\
  exists h,
    create_rtp_header 65535 4294967295 305419896 = Some h /\
    len h = RTP_HEADER_SIZE /\
    Forall is_octet h /\
    datagram_flags h = 128 /\
    datagram_payload_type h = 26 /\
    datagram_sequence_number h = 65535 /\
    datagram_timestamp h = 4294967295 /\
    datagram_ssrc h = 305419896.
Proof.
  assert (H : fields_fit 65535 4294967295 305419896)
    by (unfold fields_fit; repeat split; (discriminate || reflexivity)).
  split; [exact H|].
  exact (header_round_trip 65535 4294967295 305419896 H).
Defined.

(** X2. [create_rtp_header] raises exactly when some field does not fit
    its width: a sequence number outside 16 bits, or a timestamp or ssrc
    outside 32 bits. *)
Theorem header_raises_when_field_overflows
  (sequence_number timestamp ssrc : Z) :
  create_rtp_header sequence_number timestamp ssrc = None <->
  ~ fields_fit sequence_number timestamp ssrc.
Proof.
  split.
  - intros Hnone Hfit. destruct Hfit as (Hsq & Hts & Hsr).
    rewrite create_rtp_header_in_range in Hnone by assumption. discriminate.
  - intros Hnot.
    destruct (create_rtp_header sequence_number timestamp ssrc) as [h|] eqn:E;
      [|reflexivity].
    apply create_rtp_header_fits in E as [Hfit _]. contradiction.
Qed.

End WireFacts.

(* ===================================================================== *)
(** ** The datagrams of one frame                                        *)
(* ===================================================================== *)

Section FrameFacts.
Import Py Rtp Wire.

Lemma fragment_loop_at_end M data ts sr ok offset sq :
  len data <= offset ->
  fragment_loop M data ts sr ok offset sq =
  {| fr_sent := []; fr_sequence_number := sq; fr_exit := LoopDone |}.
Proof.
  intros Hend. funelim (fragment_loop M data ts sr ok offset sq);
    try reflexivity; lia.
Qed.

Lemma fragment_loop_sizes M data ts sr ok offset sq :
  0 <= offset ->
  let sent := fr_sent (fragment_loop M data ts sr ok offset sq) in
  Forall (fun p => RTP_HEADER_SIZE < len p <= M) sent /\
  Forall (fun p => len p = M) (removelast sent).
Proof.
  funelim (fragment_loop M data ts sr ok offset sq); intros Hoff;
    cbn zeta; cbn [fr_sent fr_push removelast]; try (split; constructor).
  unfold payload_size_at, RTP_HEADER_SIZE in *.
  set (p := Z.min (len data - offset) (M - 12)) in *.
  assert (Hp : 0 < p <= len data - offset) by (subst p; lia).
  assert (HpM : p <= M - 12) by (subst p; lia).
  match goal with
  | IH : _ -> _ /\ _ |- _ => destruct IH as (Hall & Hfull); [lia|]
  end.
  match goal with
  | Hh : create_rtp_header _ _ _ = Some _ |- _ =>
      apply create_rtp_header_length in Hh; rename Hh into Hhdr
  end.
  assert (Hlen : len (header ++ slice data offset (offset + p)) = 12 + p).
  { rewrite len_app, slice_inside by lia.
    unfold len in *. rewrite Hhdr, length_firstn, length_skipn. lia. }
  split.
  - constructor; [lia | exact Hall].
  - destruct (Z.eq_dec p (M - 12)) as [Hfullp | Hshort].
    + destruct (fr_sent _) eqn:Erest; [constructor|].
      constructor; [lia | exact Hfull].
    + rewrite fragment_loop_at_end by (subst p; lia). constructor.
Qed.

(** X3. Whatever the sends do, every datagram of a frame is a 12-octet
    header followed by at least one payload byte and is at most the
    maximum size long, and every datagram but the last one sent is exactly
    the maximum size long. *)
Theorem datagram_sizes
  (max_packet_size : Z) (jpeg_data : bytes) (timestamp sequence_number : Z)
  (sendto_ok : Z -> bool) :
  let sent := fr_sent (fragment_loop max_packet_size jpeg_data timestamp ssrc
                                     sendto_ok 0 sequence_number) in
  Forall (fun p => RTP_HEADER_SIZE < len p <= max_packet_size) sent /\
  Forall (fun p => len p = max_packet_size) (removelast sent) /\
  Forall (fun p => len (datagram_payload p) = len p - RTP_HEADER_SIZE) sent.
Proof.
  cbn zeta.
  destruct (fragment_loop_sizes max_packet_size jpeg_data timestamp ssrc
              sendto_ok 0 sequence_number) as [Hall Hfull]; [lia|].
  split; [exact Hall|]. split; [exact Hfull|].
  eapply Forall_impl; [|exact Hall]. cbn beta. intros p Hp.
  unfold datagram_payload, len, RTP_HEADER_SIZE in *.
  rewrite length_skipn. lia.
Qed.

Lemma fragment_loop_headers M data ts sr ok offset sq :
  Forall (fun p => datagram_flags p = 128 /\ datagram_payload_type p = 26 /\
                   datagram_timestamp p = ts /\ datagram_ssrc p = sr)
         (fr_sent (fragment_loop M data ts sr ok offset sq)).
Proof.
  funelim (fragment_loop M data ts sr ok offset sq);
    cbn [fr_sent fr_push]; try constructor; [|assumption].
  match goal with
  | Hh : create_rtp_header _ _ _ = Some _ |- _ =>
      apply create_rtp_header_fits in Hh as [Hfit ->]
  end.
  match goal with
  | |- context [slice ?d ?a ?b] =>
      destruct (header_fields _ _ _ (slice d a b) Hfit)
        as (H0 & H1 & _ & H3 & H4 & _)
  end.
  auto.
Qed.

(** X4. All datagrams of a frame carry the flags octet 0x80, the payload
    type 26, the one timestamp computed for the frame and the ssrc
    0x12345678. *)
Theorem datagrams_share_frame_header
  (max_packet_size : Z) (jpeg_data : bytes) (timestamp sequence_number : Z)
  (sendto_ok : Z -> bool) :
  Forall (fun p => datagram_flags p = 128 /\ datagram_payload_type p = 26 /\
                   datagram_timestamp p = timestamp /\
                   datagram_ssrc p = 305419896)
         (fr_sent (fragment_loop max_packet_size jpeg_data timestamp ssrc
                                 sendto_ok 0 sequence_number)).
Proof. apply fragment_loop_headers. Qed.

Lemma fragment_loop_prefix M data ts sr ok offset sq :
  0 <= offset <= len data ->
  let r := fragment_loop M data ts sr ok offset sq in
  exists rest,
    skipn (Z.to_nat offset) data =
      concat (map datagram_payload (fr_sent r)) ++ rest /\
    match fr_exit r with
    | LoopDone => rest = []
    | _ => rest <> []
    end.
Proof.
  funelim (fragment_loop M data ts sr ok offset sq); intros Hoff; cbn zeta;
    cbn [fr_sent fr_push fr_exit map concat app].
  - exists []. split; [|reflexivity].
    replace offset with (len data) by lia.
    rewrite to_nat_len, skipn_all. reflexivity.
  - eexists. split; [reflexivity|]. intros Hnil.
    apply (f_equal (@length Z)) in Hnil. rewrite length_skipn in Hnil.
    unfold len in *. cbn [length] in Hnil.
    clear - Hnil Hoff l. lia.
  - eexists. split; [reflexivity|]. intros Hnil.
    apply (f_equal (@length Z)) in Hnil. rewrite length_skipn in Hnil.
    unfold len in *. cbn [length] in Hnil.
    clear - Hnil Hoff l. lia.
  - unfold payload_size_at, RTP_HEADER_SIZE in *.
    set (p := Z.min (len data - offset) (M - 12)) in *.
    assert (Hp : 0 < p <= len data - offset) by (subst p; lia).
    match goal with
    | IH : _ -> exists _, _ |- _ =>
        destruct IH as (rest & Hrest & Hexit); [lia|]
    end.
    match goal with
    | Hh : create_rtp_header _ _ _ = Some _ |- _ =>
        apply create_rtp_header_length in Hh; rename Hh into Hhdr
    end.
    exists rest. split; [|exact Hexit].
    unfold datagram_payload at 1.
    rewrite skipn_app, Hhdr, Nat.sub_diag, (skipn_all2 header) by lia.
    cbn [skipn app].
    rewrite <- app_assoc, <- Hrest, slice_inside by lia.
    replace (offset + p - offset) with p by lia.
    replace (Z.to_nat (offset + p)) with (Z.to_nat p + Z.to_nat offset)%nat
      by lia.
    rewrite <- skipn_skipn. symmetry. apply firstn_skipn.
  - eexists. split; [reflexivity|]. intros Hnil.
    apply (f_equal (@length Z)) in Hnil. rewrite length_skipn in Hnil.
    unfold len in *. cbn [length] in Hnil.
    clear - Hnil Hoff l. lia.
Qed.

(** X5. However the loop over a frame is left, the payloads it sent are a
    prefix of the frame: no byte is skipped, repeated or reordered.  They
    are the whole frame exactly when the loop ran to its end; after the
    size guard, a failed send or a header that does not pack, a non-empty
    rest of the frame is dropped. *)
Theorem sent_payloads_are_a_prefix
  (max_packet_size : Z) (jpeg_data : bytes) (timestamp sequence_number : Z)
  (sendto_ok : Z -> bool) :
  let r := fragment_loop max_packet_size jpeg_data timestamp ssrc sendto_ok
                         0 sequence_number in
  exists rest,
    jpeg_data = concat (map datagram_payload (fr_sent r)) ++ rest /\
    match fr_exit r with
    | LoopDone => rest = []
    | LoopGuard | LoopSendFailed | LoopRaised => rest <> []
    end.
Proof.
  cbn zeta.
  destruct (fragment_loop_prefix max_packet_size jpeg_data timestamp ssrc
              sendto_ok 0 sequence_number) as (rest & Hrest & Hexit).
  { unfold len. lia. }
  exists rest. split; [exact Hrest|]. destruct (fr_exit _); exact Hexit.
Qed.

End FrameFacts.

(* ===================================================================== *)
(** ** Whole jobs                                                        *)
(* ===================================================================== *)

Section JobFacts.
Import Py Rtp Wire Jobs.

Lemma stream_loop_cons M io ios sq :
  stream_loop M (io :: ios) (Streaming sq) =
  (pr_sent (stream_pass M io sq) ++
     fst (stream_loop M ios (pr_next (stream_pass M io sq))),
   snd (stream_loop M ios (pr_next (stream_pass M io sq)))).
Proof.
  cbn [stream_loop]. destruct (stream_loop M ios _). reflexivity.
Qed.

(** Running the outer loop over two batches of inputs, one after the
    other, is running it over both. *)
Lemma stream_loop_app M pre post st :
  stream_loop M (pre ++ post) st =
  (fst (stream_loop M pre st) ++
   fst (stream_loop M post (snd (stream_loop M pre st))),
   snd (stream_loop M post (snd (stream_loop M pre st)))).
Proof.
  revert st. induction pre as [|io pre IH]; intros st.
  - cbn [app stream_loop fst snd]. destruct (stream_loop M post st).
    reflexivity.
  - destruct st as [|sq| |].
    2: { rewrite <- app_comm_cons, !stream_loop_cons, IH. cbn [fst snd].
         rewrite app_assoc. reflexivity. }
    all: rewrite !(stream_loop_finished M (_ :: _)) by reflexivity;
      cbn [fst snd app];
      rewrite (stream_loop_finished M post) by reflexivity; reflexivity.
Qed.

Lemma stream_pass_delivers M io jpeg_data sq :
  RTP_HEADER_SIZE < M -> delivers io jpeg_data -> 0 <= sq < 65536 ->
  let r := stream_pass M io sq in
  pr_clears_active r = false /\
  concat (map datagram_payload (pr_sent r)) = jpeg_data /\
  len (pr_sent r) = ceil_div (len jpeg_data) (M - RTP_HEADER_SIZE) /\
  pr_next r = Streaming ((sq + len (pr_sent r)) mod 65536).
Proof.
  intros HM (Hact & Hframe & Hclock & Hok) Hsq. cbn zeta.
  unfold stream_pass. rewrite Hact, Hframe. cbn [negb].
  destruct (fragment_loop_all_sent M jpeg_data (clock io) ssrc (sendto_ok io)
              HM Hok Hclock ltac:(unfold ssrc; lia) 0 sq)
    as (Hex & Hlen & _ & Hcat); [unfold len; lia | assumption |].
  destruct (fragment_loop_sequence M jpeg_data (clock io) ssrc (sendto_ok io)
              0 sq Hsq) as [_ Hfin].
  rewrite Hex. cbn [pr_sent pr_clears_active pr_next].
  rewrite Z.sub_0_r in Hlen. cbn [Z.to_nat skipn] in Hcat.
  rewrite Hfin. auto.
Qed.

Lemma stream_loop_delivers M ios frames sq :
  RTP_HEADER_SIZE < M -> Forall2 delivers ios frames -> 0 <= sq < 65536 ->
  let job := stream_loop M ios (Streaming sq) in
  concat (map datagram_payload (fst job)) = concat frames /\
  len (fst job) = datagrams_needed M frames /\
  snd job = Streaming ((sq + len (fst job)) mod 65536).
Proof.
  intros HM Hall. revert sq.
  induction Hall as [|io jpeg_data ios frames Hio _ IH]; intros sq Hsq;
    cbn zeta.
  - cbn. rewrite Z.add_0_r, Z.mod_small by assumption. auto.
  - rewrite stream_loop_cons.
    destruct (stream_pass_delivers M io jpeg_data sq HM Hio Hsq)
      as (_ & Hcat & Hlen & Hnext).
    rewrite Hnext.
    destruct (IH ((sq + len (pr_sent (stream_pass M io sq))) mod 65536))
      as (IHcat & IHlen & IHnext); [apply Z.mod_pos_bound; lia|].
    destruct (stream_loop M ios _) as [sent st']. cbn [fst snd] in *.
    split. { rewrite map_app, concat_app, Hcat, IHcat. reflexivity. }
    split. { rewrite len_app, Hlen, IHlen. reflexivity. }
    rewrite IHnext, Zplus_mod_idemp_l, len_app. f_equal. f_equal. lia.
Qed.

(** X6. A job whose passes all go well (flag read as set, a frame
    delivered, timestamp fitting, no [sendto] raising) sends the frames'
    bytes in order, frame after frame with nothing between or missing,
    in as many datagrams as the frames need, and stays in its loop with
    the counter at that number modulo 65536. *)
Theorem job_delivers_frames
  (max_packet_size : Z) (ios : list frame_io) (frames : list bytes) :
  RTP_HEADER_SIZE < max_packet_size ->
  Forall2 delivers ios frames ->
  let job := rtp_stream_video max_packet_size true ios in
  concat (map datagram_payload (fst job)) = concat frames /\
  len (fst job) = datagrams_needed max_packet_size frames /\
  snd job = Streaming (len (fst job) mod 65536).
Proof.
  intros HM Hall. unfold rtp_stream_video. cbn [stream_open pr_next].
  apply (stream_loop_delivers max_packet_size ios frames 0 HM Hall). lia.
Qed.

(** X7. When [cap.read()] reports no frame, the job is over at once: it
    has sent exactly the frames delivered before, it stores [False] into
    the flag and returns, and whatever the source or the flag would offer
    afterwards is never looked at. *)
Theorem job_ends_when_source_runs_dry
  (max_packet_size : Z) (pre post : list frame_io) (frames : list bytes)
  (io : frame_io) :
  RTP_HEADER_SIZE < max_packet_size ->
  Forall2 delivers pre frames ->
  active_seen io = true ->
  frame io = None ->
  rtp_stream_video max_packet_size true (pre ++ io :: post) =
    (fst (rtp_stream_video max_packet_size true pre), Returned) /\
  concat (map datagram_payload
            (fst (rtp_stream_video max_packet_size true (pre ++ io :: post))))
    = concat frames /\
  pr_clears_active
    (stream_pass max_packet_size io
       (len (fst (rtp_stream_video max_packet_size true pre)) mod 65536))
    = true.
Proof.
  intros HM Hall Hact Hnone.
  destruct (stream_loop_delivers max_packet_size pre frames 0 HM Hall)
    as (Hcat & _ & Hst); [lia|].
  rewrite Z.add_0_l in Hst.
  assert (Hpass : forall sq,
             stream_pass max_packet_size io sq =
             {| pr_sent := []; pr_clears_active := true;
                pr_next := Returned |}).
  { intros sq. unfold stream_pass. rewrite Hact, Hnone. reflexivity. }
  assert (Hrun : rtp_stream_video max_packet_size true (pre ++ io :: post) =
                 (fst (rtp_stream_video max_packet_size true pre), Returned)).
  { unfold rtp_stream_video. cbn [stream_open pr_next].
    rewrite stream_loop_app, Hst, stream_loop_cons, Hpass.
    cbn [pr_sent pr_next].
    rewrite (stream_loop_finished _ post Returned) by reflexivity.
    cbn [fst snd app]. rewrite app_nil_r. reflexivity. }
  split; [exact Hrun|]. split.
  - rewrite Hrun. exact Hcat.
  - rewrite Hpass. reflexivity.
Qed.

Lemma small_frame_delivers : delivers small_frame [1; 2; 3].
Proof.
  unfold delivers.
  split; [reflexivity|]. split; [reflexivity|].
  split; [split; [discriminate | reflexivity]|]. reflexivity.
Defined.

Lemma job_delivers_frames_witness :
  RTP_HEADER_SIZE < MAX_PACKET_SIZE /\
  Forall2 delivers [small_frame; small_frame] [[1; 2; 3]; [1; 2; 3]] /\
  let job := rtp_stream_video MAX_PACKET_SIZE true [small_frame; small_frame] in
  concat (map datagram_payload (fst job)) = concat [[1; 2; 3]; [1; 2; 3]] /\
  len (fst job) = datagrams_needed MAX_PACKET_SIZE [[1; 2; 3]; [1; 2; 3]] /\
  snd job = Streaming (len (fst job) mod 65536).
Proof.
  assert (H1 : RTP_HEADER_SIZE < MAX_PACKET_SIZE) by reflexivity.
  assert (H2 : Forall2 delivers [small_frame; small_frame]
                 [[1; 2; 3]; [1; 2; 3]])
    by (repeat constructor; apply small_frame_delivers).
  split; [exact H1|]. split; [exact H2|].
  exact (job_delivers_frames MAX_PACKET_SIZE [small_frame; small_frame]
           [[1; 2; 3]; [1; 2; 3]] H1 H2).
Defined.

Lemma job_ends_when_source_runs_dry_witness :
  let dry := Scenes.dry in
  RTP_HEADER_SIZE < MAX_PACKET_SIZE /\
  Forall2 delivers [small_frame] [[1; 2; 3]] /\
  active_seen dry = true /\
  frame dry = None /\
  rtp_stream_video MAX_PACKET_SIZE true ([small_frame] ++ dry :: [small_frame])
    = (fst (rtp_stream_video MAX_PACKET_SIZE true [small_frame]), Returned) /\
  concat (map datagram_payload
            (fst (rtp_stream_video MAX_PACKET_SIZE true
                    ([small_frame] ++ dry :: [small_frame]))))
    = concat [[1; 2; 3]] /\
  pr_clears_active
    (stream_pass MAX_PACKET_SIZE dry
       (len (fst (rtp_stream_video MAX_PACKET_SIZE true [small_frame]))
        mod 65536))
    = true.
Proof.
  intros dry.
  assert (H1 : RTP_HEADER_SIZE < MAX_PACKET_SIZE) by reflexivity.
  assert (H2 : Forall2 delivers [small_frame] [[1; 2; 3]])
    by (repeat constructor; apply small_frame_delivers).
  assert (H3 : active_seen dry = true) by reflexivity.
  assert (H4 : frame dry = None) by reflexivity.
  split; [exact H1|]. split; [exact H2|]. split; [exact H3|].
  split; [exact H4|].
  exact (job_ends_when_source_runs_dry MAX_PACKET_SIZE [small_frame]
           [small_frame] [[1; 2; 3]] dry H1 H2 H3 H4).
Defined.

End JobFacts.

(* ===================================================================== *)
(** ** Failures inside a pass                                            *)
(* ===================================================================== *)

Section FailureFacts.
Import Py Rtp Rtsp Wire Jobs.

Lemma fragment_loop_step M data ts sr ok offset sq h :
  offset < len data -> 0 < payload_size_at M data offset ->
  create_rtp_header sq ts sr = Some h -> ok offset = true ->
  fragment_loop M data ts sr ok offset sq =
  fr_push (h ++ slice data offset (offset + payload_size_at M data offset))
          (fragment_loop M data ts sr ok (offset + payload_size_at M data offset)
                         (next_sequence_number sq)).
Proof.
  intros Hlt Hpos Hh Hok.
  funelim (fragment_loop M data ts sr ok offset sq);
    try lia; congruence.
Qed.

Lemma fragment_loop_send_fails M data ts sr ok offset sq h :
  offset < len data -> 0 < payload_size_at M data offset ->
  create_rtp_header sq ts sr = Some h -> ok offset = false ->
  fragment_loop M data ts sr ok offset sq =
  {| fr_sent := []; fr_sequence_number := sq; fr_exit := LoopSendFailed |}.
Proof.
  intros Hlt Hpos Hh Hok.
  funelim (fragment_loop M data ts sr ok offset sq);
    try lia; try congruence.
Qed.

Lemma fragment_loop_raises M data ts sr ok offset sq :
  offset < len data -> 0 < payload_size_at M data offset ->
  create_rtp_header sq ts sr = None ->
  fragment_loop M data ts sr ok offset sq =
  {| fr_sent := []; fr_sequence_number := sq; fr_exit := LoopRaised |}.
Proof.
  intros Hlt Hpos Hh.
  funelim (fragment_loop M data ts sr ok offset sq);
    try lia; try congruence.
Qed.

Lemma firstn_plus {A} (a b : nat) (l : list A) :
  firstn (a + b) l = firstn a l ++ firstn b (skipn a l).
Proof.
  revert l. induction a as [|a IH]; intros l; [reflexivity|].
  destruct l as [|x l]; cbn [plus firstn skipn app].
  - rewrite firstn_nil. reflexivity.
  - rewrite IH. reflexivity.
Qed.

(** The loop when the first [k] sends return and the next one raises. *)
Lemma fragment_loop_fails_at M data ts sr ok (k : nat) offset sq :
  RTP_HEADER_SIZE < M ->
  0 <= ts < 2 ^ 32 -> 0 <= sr < 2 ^ 32 -> 0 <= sq < 65536 ->
  0 <= offset ->
  offset + Z.of_nat k * (M - RTP_HEADER_SIZE) < len data ->
  (forall i, (i < k)%nat ->
             ok (offset + Z.of_nat i * (M - RTP_HEADER_SIZE)) = true) ->
  ok (offset + Z.of_nat k * (M - RTP_HEADER_SIZE)) = false ->
  let r := fragment_loop M data ts sr ok offset sq in
  fr_exit r = LoopSendFailed /\
  length (fr_sent r) = k /\
  concat (map datagram_payload (fr_sent r)) =
    slice data offset (offset + Z.of_nat k * (M - RTP_HEADER_SIZE)) /\
  fr_sequence_number r = (sq + Z.of_nat k) mod 65536.
Proof.
  intros HM Hts Hsr. unfold RTP_HEADER_SIZE in *.
  revert offset sq. induction k as [|k IH];
    intros offset sq Hsq Hoff Hin Hfirst Hfail; cbn zeta.
  - cbn [Z.of_nat] in *. rewrite Z.mul_0_l, Z.add_0_r in *.
    rewrite (fragment_loop_send_fails M data ts sr ok offset sq _)
      by (try apply create_rtp_header_in_range; try assumption;
          unfold payload_size_at, RTP_HEADER_SIZE; lia).
    cbn. rewrite Z.add_0_r, Z.mod_small by assumption.
    repeat split. rewrite slice_inside by lia.
    rewrite Z.sub_diag. reflexivity.
  - assert (Hps : payload_size_at M data offset = M - 12).
    { unfold payload_size_at, RTP_HEADER_SIZE. nia. }
    rewrite (fragment_loop_step M data ts sr ok offset sq _)
      by (try apply create_rtp_header_in_range; try assumption;
          try (rewrite Hps); try lia;
          specialize (Hfirst 0%nat); cbn in Hfirst;
          rewrite Z.add_0_r in Hfirst; apply Hfirst; lia).
    rewrite Hps.
    destruct (IH (offset + (M - 12)) (next_sequence_number sq))
      as (Hex & Hlen & Hcat & Hseq).
    + now apply next_sequence_number_range.
    + lia.
    + nia.
    + intros i Hi. specialize (Hfirst (S i)).
      replace (offset + (M - 12) + Z.of_nat i * (M - 12))
        with (offset + Z.of_nat (S i) * (M - 12)) by nia.
      apply Hfirst. lia.
    + replace (offset + (M - 12) + Z.of_nat k * (M - 12))
        with (offset + Z.of_nat (S k) * (M - 12)) by nia.
      exact Hfail.
    + cbn [fr_push fr_exit fr_sent fr_sequence_number length map concat].
      split; [exact Hex|]. split; [rewrite Hlen; reflexivity|]. split.
      * unfold datagram_payload at 1.
        rewrite skipn_app, skipn_all2
          by (rewrite !length_app, !be_bytes_length; cbn; lia).
        rewrite !length_app, !be_bytes_length. cbn [length plus Nat.sub skipn app].
        rewrite Hcat, !slice_inside by nia.
        replace (offset + (M - 12) + Z.of_nat k * (M - 12) - (offset + (M - 12)))
          with (Z.of_nat k * (M - 12)) by lia.
        replace (offset + Z.of_nat (S k) * (M - 12) - offset)
          with ((M - 12) + Z.of_nat k * (M - 12)) by nia.
        replace (offset + (M - 12) - offset) with (M - 12) by lia.
        replace (Z.to_nat (offset + (M - 12)))
          with (Z.to_nat (M - 12) + Z.to_nat offset)%nat by lia.
        rewrite <- skipn_skipn.
        rewrite Z2Nat.inj_add by nia.
        symmetry. apply firstn_plus.
      * rewrite Hseq, next_sequence_number_mod, Zplus_mod_idemp_l by assumption.
        f_equal. lia.
Qed.


(** X8. When the sends of the first [k] fragments of a frame return and
    the next one raises, the pass has sent exactly those [k] datagrams,
    carrying the first [k * (M - 12)] bytes of the frame; the rest of the
    frame is dropped, [False] is stored into the flag, the datagram that
    failed is not counted in the sequence number, and the thread returns
    at its next loop test if it reads the flag as [False] there. *)
Theorem send_failure_drops_rest_of_frame
  (max_packet_size : Z) (io stop : frame_io) (jpeg_data : bytes)
  (sequence_number : Z) (k : nat) :
  RTP_HEADER_SIZE < max_packet_size ->
  active_seen io = true ->
  frame io = Some jpeg_data ->
  0 <= clock io < 2 ^ 32 ->
  0 <= sequence_number < 65536 ->
  Z.of_nat k * (max_packet_size - RTP_HEADER_SIZE) < len jpeg_data ->
  (forall i, (i < k)%nat ->
     sendto_ok io (Z.of_nat i * (max_packet_size - RTP_HEADER_SIZE)) = true) ->
  sendto_ok io (Z.of_nat k * (max_packet_size - RTP_HEADER_SIZE)) = false ->
  active_seen stop = false ->
  let r := stream_pass max_packet_size io sequence_number in
  length (pr_sent r) = k /\
  concat (map datagram_payload (pr_sent r)) =
    slice jpeg_data 0 (Z.of_nat k * (max_packet_size - RTP_HEADER_SIZE)) /\
  pr_clears_active r = true /\
  pr_next r = Streaming ((sequence_number + Z.of_nat k) mod 65536) /\
  stream_loop max_packet_size [io; stop] (Streaming sequence_number) =
    (pr_sent r, Returned).
Proof.
  intros HM Hact Hframe Hclock Hsq Hin Hfirst Hfail Hstop r.
  destruct (fragment_loop_fails_at max_packet_size jpeg_data (clock io) ssrc
              (sendto_ok io) k 0 sequence_number HM Hclock
              ltac:(unfold ssrc; lia) Hsq ltac:(lia))
    as (Hex & Hlen & Hcat & Hseq); try assumption.
  assert (Hr : r = {| pr_sent := fr_sent (fragment_loop max_packet_size
                                   jpeg_data (clock io) ssrc (sendto_ok io) 0
                                   sequence_number);
                      pr_clears_active := true;
                      pr_next := Streaming ((sequence_number + Z.of_nat k)
                                            mod 65536) |}).
  { unfold r, stream_pass. rewrite Hact, Hframe. cbn [negb].
    rewrite Hex, Hseq. reflexivity. }
  rewrite Z.add_0_l in Hcat.
  assert (Hstopped : forall sq,
             stream_pass max_packet_size stop sq =
             {| pr_sent := []; pr_clears_active := false;
                pr_next := Returned |}).
  { intros sq. unfold stream_pass. rewrite Hstop. reflexivity. }
  split; [rewrite Hr; exact Hlen|]. split; [rewrite Hr; exact Hcat|].
  split; [rewrite Hr; reflexivity|]. split; [rewrite Hr; reflexivity|].
  rewrite stream_loop_cons. fold r. rewrite Hr. cbn [pr_next pr_sent].
  rewrite stream_loop_cons, Hstopped. cbn [pr_next pr_sent stream_loop fst snd].
  rewrite app_nil_r. reflexivity.
Qed.

Lemma set_nth_same {A} (l : list A) t x :
  (t < length l)%nat -> nth_error (Server.set_nth l t x) t = Some x.
Proof.
  revert t. induction l as [|y l IH]; intros [|t] H; cbn in *;
    try lia; [reflexivity | apply IH; lia].
Qed.

Lemma fold_apply_send s b :
  fold_left Server.apply_effect [SendAll b] s = s.
Proof. reflexivity. Qed.

(** X9. When the timestamp computed for a frame does not fit 32 bits
    (after about 13 hours of streaming, or when the clock steps back),
    packing the header raises inside the streaming thread: the thread
    dies without sending the frame and without clearing the flag, so a
    later PLAY is answered 200 OK and starts nothing. *)
Theorem clock_overflow_kills_the_stream
  (s : Server.state) (t : nat) (sequence_number : Z) (opened : bool)
  (io : frame_io) (jpeg_data : bytes) (rio : request_io) (data : str) :
  nth_error (Server.threads s) t = Some (Streaming sequence_number) ->
  Server.streaming_active s = true ->
  active_seen io = true ->
  frame io = Some jpeg_data ->
  jpeg_data <> [] ->
  ~ 0 <= clock io < 2 ^ 32 ->
  request_text rio = Some data ->
  data <> [] ->
  dispatch data = PLAY ->
  tx_raises rio = None ->
  streaming_active_seen rio = true ->
  let s1 := Server.apply_pass s t
              (stream_step MAX_PACKET_SIZE opened io
                           (Streaming sequence_number)) in
  let s2 := fold_left Server.apply_effect (fst (handle_request rio)) s1 in
  nth_error (Server.threads s1) t = Some Died /\
  Server.streaming_active s1 = true /\
  Server.network s1 = Server.network s /\
  handle_request rio =
    ([SendAll (encode_utf8 (play_response (parse_cseq data)))], Next) /\
  s2 = s1.
Proof.
  intros Hth Hflag Hact Hframe Hne Hclock Htext Hdne Hcmd Htx Hseen s1 s2.
  assert (Hhdr : create_rtp_header sequence_number (clock io) ssrc = None).
  { destruct (create_rtp_header sequence_number (clock io) ssrc) eqn:E;
      [|reflexivity].
    apply create_rtp_header_fits in E as [(_ & Hfit & _) _]. contradiction. }
  assert (Hpass : stream_pass MAX_PACKET_SIZE io sequence_number =
                  {| pr_sent := []; pr_clears_active := false;
                     pr_next := Died |}).
  { unfold stream_pass. rewrite Hact, Hframe. cbn [negb].
    rewrite fragment_loop_raises; [reflexivity | | | exact Hhdr].
    - destruct jpeg_data; [contradiction | rewrite len_cons; unfold len; lia].
    - unfold payload_size_at, MAX_PACKET_SIZE, RTP_HEADER_SIZE.
      destruct jpeg_data; [contradiction | rewrite len_cons; unfold len; lia]. }
  assert (Hreq : handle_request rio =
                 ([SendAll (encode_utf8 (play_response (parse_cseq data)))],
                  Next)).
  { rewrite (play_request rio data Htext Hdne Hcmd Htx), Hseen. reflexivity. }
  subst s2 s1. rewrite Hreq. cbn [stream_step fst]. rewrite Hpass.
  unfold Server.apply_pass.
  cbn [pr_sent pr_clears_active pr_next Server.threads Server.network
       Server.streaming_active map fold_left Server.apply_effect].
  rewrite app_nil_r. repeat split; try assumption.
  apply set_nth_same. apply nth_error_Some. rewrite Hth. discriminate.
Qed.

End FailureFacts.

(* ===================================================================== *)
(** ** Invariants of the process                                         *)
(* ===================================================================== *)

Section InvariantFacts.
Import Py Rtp Rtsp Server Jobs Invariants Inputs.

Lemma handler_step_shape (s : state) (io : request_io) :
  let s' := fold_left apply_effect (fst (handle_request io)) s in
  network s' = network s /\
  ((threads s' = threads s /\ rtp_thread s' = rtp_thread s /\
    (streaming_active s' = streaming_active s \/ streaming_active s' = false)) \/
   (threads s' = threads s ++ [Opening] /\
    rtp_thread s' = Some (length (threads s)))).
Proof.
  cbn zeta. unfold handle_request.
  destruct (rx io) as [b | e]; [|cbn; auto 6].
  destruct (decode_utf8 b) as [[|c data]|]; try (cbn; auto 6).
  destruct (dispatch (c :: data)); cbn [run_command response_of];
    unfold send_then; destruct (tx_raises io);
    try (cbn; auto 6);
    try (destruct (rtp_thread_alive io); cbn; auto 6).
  all: destruct (streaming_active_seen io); cbn; auto 6.
Qed.

Lemma set_nth_length {A} (l : list A) t x :
  length (set_nth l t x) = length l.
Proof.
  revert t. induction l as [|y l IH]; intros [|t]; cbn; auto.
Qed.

Lemma set_nth_other {A} (l : list A) t t' x :
  t' <> t -> nth_error (set_nth l t x) t' = nth_error l t'.
Proof.
  revert t t'. induction l as [|y l IH]; intros [|t] [|t'] H; cbn;
    try reflexivity; try contradiction. apply IH. congruence.
Qed.

Lemma set_nth_nonempty {A} (l : list A) t x :
  l <> [] -> set_nth l t x <> [].
Proof. destruct l, t; cbn; congruence. Qed.

Lemma well_formed_step s s' : well_formed s -> step s s' -> well_formed s'.
Proof.
  intros (Hrt & Hnet & Hflag) Hstep. destruct Hstep as [io Hseen Halive | t st opened io Hth Hal Hseen].
  - destruct (handler_step_shape s io) as (Hn & [(Ht & Hr & Hf) | (Ht & Hr)]).
    + unfold well_formed. rewrite Hn, Ht, Hr. split; [exact Hrt|].
      split; [exact Hnet|].
      destruct (threads s) eqn:E; [|exact I].
      destruct Hf as [Hf | Hf]; rewrite Hf; [exact Hflag | reflexivity].
    + unfold well_formed. rewrite Hn, Ht, Hr, length_app. cbn [length].
      split; [lia|]. split.
      * eapply Forall_impl; [|exact Hnet]. cbn beta. intros; lia.
      * destruct (threads s); exact I.
  - assert (Hlt : (t < length (threads s))%nat)
      by (apply nth_error_Some; rewrite Hth; discriminate).
    unfold well_formed, apply_pass.
    cbn [rtp_thread threads network streaming_active].
    rewrite set_nth_length. split; [|split].
    + destruct (rtp_thread s); [exact Hrt|].
      rewrite Hrt in Hlt. cbn in Hlt. lia.
    + apply Forall_app. split; [exact Hnet|].
      apply Forall_forall. intros e He. apply in_map_iff in He as (p & <- & _).
      exact Hlt.
    + destruct (set_nth (threads s) t _) eqn:E; [|exact I].
      exfalso. eapply set_nth_nonempty; [|exact E].
      intros Hnil. rewrite Hnil in Hlt. cbn in Hlt. lia.
Qed.

Lemma well_formed_reachable s : reachable s -> well_formed s.
Proof.
  induction 1 as [|s s' _ IH Hstep].
  - unfold well_formed. cbn. auto.
  - eapply well_formed_step; eassumption.
Qed.

Lemma sent_by_grows t (s s' : state) (extra : list (nat * bytes)) :
  network s' = network s ++ extra ->
  sent_by t s' =
  sent_by t s ++ map snd (filter (fun e => Nat.eqb (fst e) t) extra).
Proof.
  intros H. unfold sent_by. rewrite H, filter_app, map_app. reflexivity.
Qed.

Lemma filter_sender_same t (sent : list bytes) :
  map snd (filter (fun e => Nat.eqb (fst e) t) (map (pair t) sent)) = sent.
Proof.
  induction sent as [|p sent IH]; [reflexivity|].
  cbn [map filter fst]. rewrite Nat.eqb_refl. cbn [map snd]. rewrite IH.
  reflexivity.
Qed.

Lemma filter_sender_other t t' (sent : list bytes) :
  t' <> t ->
  map snd (filter (fun e => Nat.eqb (fst e) t') (map (pair t) sent)) = [].
Proof.
  intros Hne. induction sent as [|p sent IH]; [reflexivity|].
  cbn [map filter fst]. destruct (Nat.eqb_spec t t'); [congruence|]. exact IH.
Qed.

Lemma sent_by_unstarted t s :
  well_formed s -> (length (threads s) <= t)%nat -> sent_by t s = [].
Proof.
  intros (_ & Hnet & _) Hge. unfold sent_by.
  induction Hnet as [|e l He _ IH]; [reflexivity|].
  cbn [filter]. destruct (Nat.eqb_spec (fst e) t); [lia | exact IH].
Qed.

Lemma stream_step_counts opened io st sent :
  is_alive st = true -> counts st sent ->
  map datagram_sequence_number sent =
    sequence_numbers_from 0 (length sent) ->
  let r := stream_step MAX_PACKET_SIZE opened io st in
  map datagram_sequence_number (sent ++ pr_sent r) =
    sequence_numbers_from 0 (length (sent ++ pr_sent r)) /\
  counts (pr_next r) (sent ++ pr_sent r).
Proof.
  intros Hal Hc Hmap. destruct st as [|sq| |]; try discriminate; cbn zeta.
  - cbn [stream_step]. cbn in Hc. subst sent.
    destruct opened; cbn; auto.
  - cbn [stream_step]. cbn in Hc.
    assert (Hsq : 0 <= sq < 65536)
      by (subst sq; apply Z.mod_pos_bound; lia).
    destruct (stream_pass_sequence MAX_PACKET_SIZE io sq Hsq) as [Hm Hn].
    pose proof (stream_pass_not_opening MAX_PACKET_SIZE io sq) as Hno.
    split.
    + rewrite map_app, length_app, sequence_numbers_from_app by lia.
      rewrite Hmap, Hm, Z.add_0_l. fold (len sent). rewrite <- Hc.
      reflexivity.
    + destruct (pr_next (stream_pass MAX_PACKET_SIZE io sq)); cbn in *;
        try exact I; [contradiction|].
      rewrite Hn, Hc, Zplus_mod_idemp_l, len_app. reflexivity.
Qed.

Lemma numbered_step s s' :
  well_formed s -> numbered s -> step s s' -> numbered s'.
Proof.
  intros Hwf Hnum Hstep.
  destruct Hstep as [io Hseen Halive | t st opened io Hth Hal Hseen].
  - destruct (handler_step_shape s io) as (Hn & Hshape).
    intros t st Hst.
    assert (Hsent : sent_by t (fold_left apply_effect (fst (handle_request io)) s)
                    = sent_by t s) by (unfold sent_by; rewrite Hn; reflexivity).
    rewrite Hsent.
    destruct Hshape as [(Ht & _) | (Ht & _)]; rewrite Ht in Hst.
    + apply Hnum. exact Hst.
    + destruct (Nat.lt_ge_cases t (length (threads s))) as [Hlt | Hge].
      * rewrite nth_error_app1 in Hst by exact Hlt. apply Hnum. exact Hst.
      * rewrite (sent_by_unstarted t s Hwf Hge).
        rewrite nth_error_app2 in Hst by exact Hge.
        destruct (t - length (threads s))%nat as [|[|k]]; cbn in Hst;
          try discriminate.
        injection Hst as <-. cbn. auto.
  - intros t' st' Hst'.
    rewrite (sent_by_grows t' s _ (map (pair t)
               (pr_sent (stream_step MAX_PACKET_SIZE opened io st))))
      by reflexivity.
    unfold apply_pass in Hst'. cbn [threads] in Hst'.
    destruct (Nat.eq_dec t' t) as [-> | Hne].
    + rewrite filter_sender_same.
      rewrite set_nth_same in Hst'
        by (apply nth_error_Some; rewrite Hth; discriminate).
      injection Hst' as <-.
      destruct (Hnum t st Hth) as [Hmap Hc].
      apply stream_step_counts; assumption.
    + rewrite filter_sender_other, app_nil_r by exact Hne.
      rewrite set_nth_other in Hst' by exact Hne.
      apply Hnum. exact Hst'.
Qed.

Lemma numbered_reachable s : reachable s -> numbered s.
Proof.
  induction 1 as [|s s' Hreach IH Hstep].
  - intros t st Hst. destruct t; discriminate.
  - eapply numbered_step; try eassumption.
    apply well_formed_reachable. exact Hreach.
Qed.

Lemma run8_reachable : reachable run8.
Proof.
  destruct run_steps as (H1 & H2 & H3 & H4 & H5 & H6 & H7 & H8).
  repeat (eapply reach_step; [|eassumption]). apply reach_initial.
Defined.

(** X10. However the passes of the handlers and of the streaming
    threads interleave, the datagrams each thread has put on the network
    carry, in the order sent, the sequence numbers 0, 1, 2, ... modulo
    65536, and the counter of every thread that stands at its loop test
    is the number of datagrams it has sent, modulo 65536. *)
Theorem every_thread_numbers_from_zero (s : state) (t : nat) :
  reachable s ->
  map datagram_sequence_number (sent_by t s) =
    map (fun i => Z.of_nat i mod 65536) (seq 0 (length (sent_by t s))) /\
  match nth_error (threads s) t with
  | Some (Streaming sq) => sq = len (sent_by t s) mod 65536
  | _ => True
  end.
Proof.
  intros Hreach.
  pose proof (well_formed_reachable s Hreach) as Hwf.
  pose proof (numbered_reachable s Hreach) as Hnum.
  destruct (nth_error (threads s) t) as [st|] eqn:Hst.
  - destruct (Hnum t st Hst) as [Hmap Hc]. split; [exact Hmap|].
    destruct st; try exact I. exact Hc.
  - rewrite (sent_by_unstarted t s Hwf) by (apply nth_error_None; exact Hst).
    split; [reflexivity | exact I].
Qed.

Lemma every_thread_numbers_from_zero_witness :
  reachable run8 /\
  map datagram_sequence_number (sent_by 0 run8) =
    map (fun i => Z.of_nat i mod 65536) (seq 0 (length (sent_by 0 run8))) /\
  match nth_error (threads run8) 0 with
  | Some (Streaming sq) => sq = len (sent_by 0 run8) mod 65536
  | _ => True
  end.
Proof.
  split; [exact run8_reachable|].
  exact (every_thread_numbers_from_zero run8 0 run8_reachable).
Defined.

End InvariantFacts.

(* ===================================================================== *)
(** ** One connection, many requests                                     *)
(* ===================================================================== *)

Section SessionFacts.
Import Py Rtp Rtsp Sessions Inputs.

(** X12. The CSeq echoed is read off the first line (lines end in CR LF)
    that starts with [CSeq:]: it is the text between that colon and the
    next colon of the line, or the end of the line, without surrounding
    white space.  Later CSeq lines are not looked at. *)
Theorem cseq_is_first_header_up_to_colon
  (data : str) (before after : list str) (value : str) :
  split data crlf = before ++ (lit "CSeq:" ++ value) :: after ->
  Forall (fun l => startswith l (lit "CSeq:") = false) before ->
  parse_cseq data = strip (up_to_colon value) /\
  (if contains value (lit ":") then True else up_to_colon value = value).
Proof.
  intros Hsplit Hb. split.
  - unfold parse_cseq. rewrite Hsplit.
    rewrite scan_cseq_skip by (assumption || apply startswith_app).
    rewrite cseq_of_line. reflexivity.
  - destruct (contains value (lit ":")) eqn:E; [exact I|].
    unfold up_to_colon, split. rewrite lit_colon in *.
    rewrite split_scan_colon_free by assumption. reflexivity.
Qed.

Lemma cseq_is_first_header_up_to_colon_witness :
  let data := lit "PLAY x" ++ crlf ++ lit "CSeq: 12 :9" ++ crlf ++
              lit "CSeq: 13" ++ crlf ++ crlf in
  split data crlf =
    [lit "PLAY x"] ++ (lit "CSeq:" ++ lit " 12 :9") ::
    [lit "CSeq: 13"; []; []] /\
  Forall (fun l => startswith l (lit "CSeq:") = false) [lit "PLAY x"] /\
  parse_cseq data = strip (up_to_colon (lit " 12 :9")) /\
  (if contains (lit " 12 :9") (lit ":") then True
   else up_to_colon (lit " 12 :9") = lit " 12 :9").
Proof.
  intros data.
  assert (H1 : split data crlf =
               [lit "PLAY x"] ++ (lit "CSeq:" ++ lit " 12 :9") ::
               [lit "CSeq: 13"; []; []]) by (vm_compute; reflexivity).
  assert (H2 : Forall (fun l => startswith l (lit "CSeq:") = false)
                 [lit "PLAY x"]) by (repeat constructor).
  split; [exact H1|]. split; [exact H2|].
  exact (cseq_is_first_header_up_to_colon data [lit "PLAY x"]
           [lit "CSeq: 13"; []; []] (lit " 12 :9") H1 H2).
Defined.

Example cseq_of_witness :
  parse_cseq (lit "PLAY x" ++ crlf ++ lit "CSeq: 12 :9" ++ crlf ++
              lit "CSeq: 13" ++ crlf ++ crlf) = lit "12".
Proof. vm_compute. reflexivity. Qed.

Lemma handle_request_effects io :
  let es := fst (handle_request io) in
  (Forall is_send es \/ asks PLAY io \/ asks TEARDOWN io) /\
  (length (sent_bytes es) <= 1)%nat /\
  ~ In CloseSocket es /\
  (In (SetStreamingActive false) es -> asks TEARDOWN io) /\
  (snd (handle_request io) = Next -> length (sent_bytes es) = 1%nat).
Proof.
  cbn zeta. unfold handle_request, asks, request_text.
  destruct (rx io) as [b | e];
    [|cbn; repeat split; auto; try lia; try tauto; discriminate].
  destruct (decode_utf8 b) as [[|c data]|];
    try (cbn; repeat split; auto; try lia; try tauto; discriminate).
  assert (Hne : c :: data <> []) by discriminate.
  destruct (dispatch (c :: data)) eqn:Ecmd; cbn [run_command response_of];
    unfold send_then; destruct (tx_raises io);
    try destruct (streaming_active_seen io);
    try destruct (rtp_thread_alive io);
    cbn; repeat split; eauto 8; try lia;
    try (intros H; decompose [or] H; try discriminate; try contradiction;
         eauto 8);
    try discriminate;
    try (left; repeat constructor).
Qed.

(** X13. A request can touch the stream only through the PLAY and
    TEARDOWN branches: any other pass of the handler does nothing but
    send its one response.  No pass sends more than one response, a pass
    that goes back to [recv] has sent exactly one, and no pass closes the
    socket itself. *)
Theorem only_play_and_teardown_touch_the_stream (io : request_io) :
  let effects := fst (handle_request io) in
  (Forall is_send effects \/ asks PLAY io \/ asks TEARDOWN io) /\
  (length (sent_bytes effects) <= 1)%nat /\
  (match snd (handle_request io) with
   | Next => length (sent_bytes effects) = 1%nat
   | _ => True
   end) /\
  ~ In CloseSocket effects.
Proof.
  destruct (handle_request_effects io) as (H1 & H2 & H3 & _ & H5).
  cbn zeta. repeat split; try assumption.
  destruct (snd (handle_request io)); auto.
Qed.

Lemma handle_rtsp_client_cons io rest :
  handle_rtsp_client (io :: rest) =
  match snd (handle_request io) with
  | Next => (fst (handle_request io) ++ fst (handle_rtsp_client rest),
             snd (handle_rtsp_client rest))
  | BreakDisconnected =>
      (fst (handle_request io) ++ [CloseSocket], Closed PeerClosed)
  | BreakTeardown =>
      (fst (handle_request io) ++ [CloseSocket], Closed TornDown)
  | Raise e => (fst (handle_request io) ++ [CloseSocket], Closed (Failed e))
  end.
Proof.
  cbn [handle_rtsp_client]. destruct (handle_request io) as [es k].
  cbn [fst snd]. destruct k; try reflexivity.
  destruct (handle_rtsp_client rest). reflexivity.
Qed.

(** X14. A connection that ends without a TEARDOWN request, because the
    peer closed, a socket call raised or the bytes did not decode, never
    stores [False] into the running flag: the stream goes on after the
    client is gone. *)
Theorem disconnect_leaves_the_stream_running (ios : list request_io) :
  Forall (fun io => ~ asks TEARDOWN io) ios ->
  ~ In (SetStreamingActive false) (fst (handle_rtsp_client ios)) /\
  snd (handle_rtsp_client ios) <> Closed TornDown.
Proof.
  induction 1 as [|io ios Hio _ IH]; [cbn; split; [tauto | discriminate]|].
  destruct (handle_request_effects io) as (_ & _ & Hclose & Hclear & _).
  assert (Hnot : ~ In (SetStreamingActive false) (fst (handle_request io)))
    by (intros H; apply Hio, Hclear, H).
  assert (Hk : snd (handle_request io) <> BreakTeardown).
  { intros Hk. apply Hio. clear - Hk.
    unfold handle_request, asks, request_text in *.
    destruct (rx io) as [b | e]; [|discriminate].
    destruct (decode_utf8 b) as [[|c data]|]; try discriminate.
    exists (c :: data). split; [reflexivity|]. split; [discriminate|].
    destruct (dispatch (c :: data)); try reflexivity;
      cbn [run_command response_of] in Hk; unfold send_then in Hk;
      destruct (tx_raises io); cbn in Hk; discriminate. }
  rewrite handle_rtsp_client_cons.
  destruct IH as [IH1 IH2].
  destruct (snd (handle_request io)) eqn:Ek; cbn [fst snd].
  - split; [|exact IH2]. intros H. apply in_app_iff in H as [H | H];
      [exact (Hnot H) | exact (IH1 H)].
  - split; [|discriminate]. intros H.
    apply in_app_iff in H as [H | [H | []]]; [exact (Hnot H) | discriminate].
  - exfalso. apply Hk. reflexivity.
  - split; [|discriminate]. intros H.
    apply in_app_iff in H as [H | [H | []]]; [exact (Hnot H) | discriminate].
Qed.


Lemma disconnect_leaves_the_stream_running_witness :
  let ios := [arrives play_text false false;
              arrives describe_text true true; garbage] in
  Forall (fun io => ~ asks TEARDOWN io) ios /\
  ~ In (SetStreamingActive false) (fst (handle_rtsp_client ios)) /\
  snd (handle_rtsp_client ios) <> Closed TornDown.
Proof.
  intros ios.
  assert (H : Forall (fun io => ~ asks TEARDOWN io) ios).
  { repeat constructor; intros (data & Ht & _ & Hd);
      vm_compute in Ht; try discriminate;
      injection Ht as <-; vm_compute in Hd; discriminate. }
  split; [exact H|].
  exact (disconnect_leaves_the_stream_running ios H).
Defined.

Lemma sent_bytes_app es1 es2 :
  sent_bytes (es1 ++ es2) = sent_bytes es1 ++ sent_bytes es2.
Proof.
  induction es1 as [|e es1 IH]; [reflexivity|].
  destruct e; cbn [app sent_bytes]; rewrite IH; reflexivity.
Qed.

(** X15. Once the handler has left its loop it reads nothing more:
    whatever arrives after the request that closed the connection is
    ignored.  The socket is closed exactly once, as the very last thing
    the handler does. *)
Theorem closed_connection_reads_no_more
  (pre post : list request_io) (why : close_reason) :
  snd (handle_rtsp_client pre) = Closed why ->
  handle_rtsp_client (pre ++ post) = handle_rtsp_client pre /\
  exists effects,
    fst (handle_rtsp_client pre) = effects ++ [CloseSocket] /\
    ~ In CloseSocket effects.
Proof.
  induction pre as [|io pre IH]; [discriminate|].
  destruct (handle_request_effects io) as (_ & _ & Hclose & _).
  rewrite <- app_comm_cons, !handle_rtsp_client_cons.
  destruct (snd (handle_request io)) eqn:Ek; cbn [fst snd].
  - intros Hc. destruct (IH Hc) as (Heq & es & Hes & Hno).
    rewrite Heq. split; [reflexivity|].
    exists (fst (handle_request io) ++ es). rewrite Hes, app_assoc.
    split; [reflexivity|]. rewrite in_app_iff. tauto.
  - intros _. split; [reflexivity|]. eauto.
  - intros _. split; [reflexivity|]. eauto.
  - intros _. split; [reflexivity|]. eauto.
Qed.

Lemma closed_connection_reads_no_more_witness :
  let pre := [arrives teardown_text true true] in
  let post := [arrives play_text false false] in
  snd (handle_rtsp_client pre) = Closed TornDown /\
  handle_rtsp_client (pre ++ post) = handle_rtsp_client pre /\
  exists effects,
    fst (handle_rtsp_client pre) = effects ++ [CloseSocket] /\
    ~ In CloseSocket effects.
Proof.
  intros pre post.
  assert (H : snd (handle_rtsp_client pre) = Closed TornDown)
    by (vm_compute; reflexivity).
  split; [exact H|].
  exact (closed_connection_reads_no_more pre post TornDown H).
Defined.

(** X16. As long as the connection is open the handler has answered
    every request with exactly one response and has not closed the
    socket, and it takes what arrives next exactly as a fresh handler
    would: it keeps nothing from one request to the next. *)
Theorem open_connection_answers_each_request
  (ios post : list request_io) :
  snd (handle_rtsp_client ios) = Open ->
  length (sent_bytes (fst (handle_rtsp_client ios))) = length ios /\
  ~ In CloseSocket (fst (handle_rtsp_client ios)) /\
  handle_rtsp_client (ios ++ post) =
    (fst (handle_rtsp_client ios) ++ fst (handle_rtsp_client post),
     snd (handle_rtsp_client post)).
Proof.
  induction ios as [|io ios IH].
  - intros _. cbn. destruct (handle_rtsp_client post). auto.
  - destruct (handle_request_effects io) as (_ & _ & Hclose & _ & Hone).
    rewrite <- app_comm_cons, !handle_rtsp_client_cons.
    destruct (snd (handle_request io)) eqn:Ek; cbn [fst snd];
      try discriminate.
    intros Hopen. destruct (IH Hopen) as (Hlen & Hno & Happ).
    rewrite sent_bytes_app, length_app, Hlen, Hone by reflexivity.
    split; [reflexivity|]. split.
    + rewrite in_app_iff. tauto.
    + rewrite Happ. cbn [fst snd]. rewrite app_assoc. reflexivity.
Qed.

Lemma open_connection_answers_each_request_witness :
  let ios := [arrives unknown_text false false;
              arrives play_text false false] in
  let post := [arrives teardown_text true true] in
  snd (handle_rtsp_client ios) = Open /\
  length (sent_bytes (fst (handle_rtsp_client ios))) = length ios /\
  ~ In CloseSocket (fst (handle_rtsp_client ios)) /\
  handle_rtsp_client (ios ++ post) =
    (fst (handle_rtsp_client ios) ++ fst (handle_rtsp_client post),
     snd (handle_rtsp_client post)).
Proof.
  intros ios post.
  assert (H : snd (handle_rtsp_client ios) = Open) by (vm_compute; reflexivity).
  split; [exact H|].
  exact (open_connection_answers_each_request ios post H).
Defined.

End SessionFacts.

(* ===================================================================== *)
(** ** The failure theorems at concrete passes                           *)
(* ===================================================================== *)

Section FailureWitnesses.
Import Py Rtp Rtsp Inputs Scenes.

Lemma send_failure_drops_rest_of_frame_witness :
  let io := second_send_fails in
  let r := stream_pass MAX_PACKET_SIZE io 65535 in
  RTP_HEADER_SIZE < MAX_PACKET_SIZE /\
  active_seen io = true /\
  frame io = Some (repeat 7 3000%nat) /\
  0 <= clock io < 2 ^ 32 /\
  0 <= 65535 < 65536 /\
  Z.of_nat 1 * (MAX_PACKET_SIZE - RTP_HEADER_SIZE) < len (repeat 7 3000%nat) /\
  (forall i, (i < 1)%nat ->
     sendto_ok io (Z.of_nat i * (MAX_PACKET_SIZE - RTP_HEADER_SIZE)) = true) /\
  sendto_ok io (Z.of_nat 1 * (MAX_PACKET_SIZE - RTP_HEADER_SIZE)) = false /\
  active_seen stop_seen = false /\
  length (pr_sent r) = 1%nat /\
  concat (map datagram_payload (pr_sent r)) =
    slice (repeat 7 3000%nat) 0
          (Z.of_nat 1 * (MAX_PACKET_SIZE - RTP_HEADER_SIZE)) /\
  pr_clears_active r = true /\
  pr_next r = Streaming ((65535 + Z.of_nat 1) mod 65536) /\
  stream_loop MAX_PACKET_SIZE [io; stop_seen] (Streaming 65535) =
    (pr_sent r, Returned).
Proof.
  intros io r.
  assert (H1 : RTP_HEADER_SIZE < MAX_PACKET_SIZE) by reflexivity.
  assert (H2 : active_seen io = true) by reflexivity.
  assert (H3 : frame io = Some (repeat 7 3000%nat)) by reflexivity.
  assert (H4 : 0 <= clock io < 2 ^ 32)
    by (split; [discriminate | reflexivity]).
  assert (H5 : 0 <= 65535 < 65536) by (split; [discriminate | reflexivity]).
  assert (H6 : Z.of_nat 1 * (MAX_PACKET_SIZE - RTP_HEADER_SIZE)
               < len (repeat 7 3000%nat)) by (vm_compute; reflexivity).
  assert (H7 : forall i, (i < 1)%nat ->
             sendto_ok io (Z.of_nat i * (MAX_PACKET_SIZE - RTP_HEADER_SIZE))
             = true).
  { intros [|i] Hi; [reflexivity|].
    exfalso. apply (Nat.nlt_0_r i). apply Nat.succ_lt_mono. exact Hi. }
  assert (H8 : sendto_ok io (Z.of_nat 1 * (MAX_PACKET_SIZE - RTP_HEADER_SIZE))
               = false) by reflexivity.
  assert (H9 : active_seen stop_seen = false) by reflexivity.
  split; [exact H1|]. split; [exact H2|]. split; [exact H3|].
  split; [exact H4|]. split; [exact H5|]. split; [exact H6|].
  split; [exact H7|]. split; [exact H8|]. split; [exact H9|].
  exact (send_failure_drops_rest_of_frame MAX_PACKET_SIZE io stop_seen
           (repeat 7 3000%nat) 65535 1 H1 H2 H3 H4 H5 H6 H7 H8 H9).
Defined.

Lemma clock_overflow_kills_the_stream_witness :
  let s := run3 in
  let rio := arrives play_text true true in
  let s1 := Server.apply_pass s 0
              (stream_step MAX_PACKET_SIZE true late_frame (Streaming 1)) in
  let s2 := fold_left Server.apply_effect (fst (handle_request rio)) s1 in
  nth_error (Server.threads s) 0 = Some (Streaming 1) /\
  Server.streaming_active s = true /\
  active_seen late_frame = true /\
  frame late_frame = Some [1; 2; 3] /\
  [1; 2; 3] <> ([] : bytes) /\
  ~ 0 <= clock late_frame < 2 ^ 32 /\
  request_text rio = Some play_text /\
  play_text <> [] /\
  dispatch play_text = PLAY /\
  tx_raises rio = None /\
  streaming_active_seen rio = true /\
  nth_error (Server.threads s1) 0 = Some Died /\
  Server.streaming_active s1 = true /\
  Server.network s1 = Server.network s /\
  handle_request rio =
    ([SendAll (encode_utf8 (play_response (parse_cseq play_text)))], Next) /\
  s2 = s1.
Proof.
  intros s rio s1 s2.
  assert (H1 : nth_error (Server.threads s) 0 = Some (Streaming 1))
    by (vm_compute; reflexivity).
  assert (H2 : Server.streaming_active s = true) by (vm_compute; reflexivity).
  assert (H3 : active_seen late_frame = true) by reflexivity.
  assert (H4 : frame late_frame = Some [1; 2; 3]) by reflexivity.
  assert (H5 : [1; 2; 3] <> ([] : bytes)) by discriminate.
  assert (H6 : ~ 0 <= clock late_frame < 2 ^ 32).
  { intros [_ H]. vm_compute in H. discriminate H. }
  assert (H7 : request_text rio = Some play_text) by (vm_compute; reflexivity).
  assert (H8 : play_text <> []).
  { intros H. vm_compute in H. discriminate H. }
  assert (H9 : dispatch play_text = PLAY) by (vm_compute; reflexivity).
  assert (H10 : tx_raises rio = None) by reflexivity.
  assert (H11 : streaming_active_seen rio = true) by reflexivity.
  split; [exact H1|]. split; [exact H2|]. split; [exact H3|].
  split; [exact H4|]. split; [exact H5|]. split; [exact H6|].
  split; [exact H7|]. split; [exact H8|]. split; [exact H9|].
  split; [exact H10|]. split; [exact H11|].
  exact (clock_overflow_kills_the_stream s 0 1 true late_frame [1; 2; 3] rio
           play_text H1 H2 H3 H4 H5 H6 H7 H8 H9 H10 H11).
Defined.

End FailureWitnesses.

(* ===================================================================== *)
(** ** The listener and the shutdown                                     *)
(* ===================================================================== *)

Section SupervisorFacts.
Import Py Supervisor.

Lemma accept_loop_spec g accepts :
  let '(acts, g', blocked) := accept_loop g accepts in
  handlers_started acts = accepted_before_failure accepts /\
  (blocked = true ->
     g' = g /\ closed_by acts = [] /\
     Forall (fun a => exists c, a = Accepted c) accepts) /\
  (blocked = false ->
     rtsp_server_socket g' = None /\
     rtsp_client_socket g' = rtsp_client_socket g /\
     closed_by acts =
       match rtsp_server_socket g with Some s => [s] | None => [] end /\
     Exists (fun a => exists e, a = AcceptRaises e) accepts).
Proof.
  induction accepts as [|a accepts IH].
  - cbn. repeat split; auto; discriminate.
  - destruct a as [c | e]; cbn [accept_loop].
    + destruct (accept_loop g accepts) as [[acts g'] blocked].
      cbn [after app handlers_started closed_by accepted_before_failure].
      destruct IH as (Hs & Hb & He). split; [rewrite Hs; reflexivity|].
      split.
      * intros Hbl. destruct (Hb Hbl) as (? & ? & ?). repeat split; eauto.
      * intros Hbl. destruct (He Hbl) as (? & ? & ? & ?). repeat split; auto.
    + unfold listener_finally, report.
      destruct (e =? 98); destruct (rtsp_server_socket g) eqn:E; cbn;
        (split; [reflexivity|]); (split; [discriminate|]); intros _;
        repeat split; eauto.
Qed.


Lemma accept_loop_blocked g accepts :
  snd (accept_loop g accepts) = forallb is_accepted accepts.
Proof.
  induction accepts as [|[c | e] accepts IH]; cbn [accept_loop forallb is_accepted andb].
  - reflexivity.
  - destruct (accept_loop g accepts) as [[acts g'] blocked]. exact IH.
  - destruct (listener_finally g). reflexivity.
Qed.

(** X17. No other thread storing into [rtsp_server_socket] meanwhile:
    once the listening socket is set up, the listener starts one
    handler thread for every connection [accept] returns, in the order
    accepted and without any bound on their number, until [accept] raises;
    it stays blocked in [accept] as long as none does, and when one does
    it starts no further handler, closes the listening socket once and
    clears [rtsp_server_socket]. *)
Theorem listener_starts_a_handler_per_connection
  (g : globals) (fresh : sock) (accepts : list accept_result) :
  let '(acts, g', blocked) := start_rtsp_server_thread g fresh None accepts in
  handlers_started acts = accepted_before_failure accepts /\
  blocked = forallb is_accepted accepts /\
  rtsp_server_socket g' = (if blocked then Some fresh else None) /\
  closed_by acts = (if blocked then [] else [fresh]) /\
  rtsp_client_socket g' = rtsp_client_socket g.
Proof.
  unfold start_rtsp_server_thread.
  set (g1 := {| rtsp_server_socket := Some fresh;
                rtsp_client_socket := rtsp_client_socket g |}).
  pose proof (accept_loop_spec g1 accepts) as Hspec.
  pose proof (accept_loop_blocked g1 accepts) as Hbl.
  destruct (accept_loop g1 accepts) as [[acts g'] blocked].
  cbn [after app handlers_started closed_by snd] in *.
  destruct Hspec as (Hs & Hb & He). split; [exact Hs|].
  split; [exact Hbl|]. clear Hbl. destruct blocked.
  - destruct (Hb eq_refl) as (-> & Hc & _). auto.
  - destruct (He eq_refl) as (H1 & H2 & H3 & _). auto.
Qed.

(** X18. No other thread storing into [rtsp_server_socket] meanwhile:
    however the set-up of the listening socket fails (creating it,
    [setsockopt], [bind] or [listen] raising [OSError]), the listener
    thread ends without ever calling [accept]: no handler is started, a
    socket that was created is closed once and [rtsp_server_socket] is
    cleared, and the failure is reported, as "port in use" exactly when
    its errno is 98. *)
Theorem listener_setup_failure_ends_the_listener
  (g : globals) (fresh : sock) (failure : setup_failure)
  (accepts : list accept_result) :
  let '(acts, g', blocked) :=
    start_rtsp_server_thread g fresh (Some failure) accepts in
  blocked = false /\
  handlers_started acts = [] /\
  rtsp_server_socket g' = None /\
  rtsp_client_socket g' = rtsp_client_socket g /\
  closed_by acts =
    match stage failure with
    | AtSocket =>
        match rtsp_server_socket g with Some old => [old] | None => [] end
    | AtSetsockopt | AtBind | AtListen => [fresh]
    end /\
  In (if errno_of failure =? 98 then ReportPortInUse else ReportError) acts /\
  ~ In (if errno_of failure =? 98 then ReportError else ReportPortInUse) acts.
Proof.
  unfold start_rtsp_server_thread, listener_finally, report.
  destruct failure as [st e]. cbn [stage errno_of].
  destruct st; destruct (rtsp_server_socket g) eqn:E; destruct (e =? 98);
    cbn; rewrite ?E; repeat split; auto;
    intros H; decompose [or] H; discriminate || contradiction.
Qed.

Lemma closed_by_app a b : closed_by (a ++ b) = closed_by a ++ closed_by b.
Proof.
  induction a as [|x a IH]; [reflexivity|].
  destruct x; cbn [app closed_by]; rewrite IH; reflexivity.
Qed.

Lemma closed_by_shutdown o raises :
  closed_by (match o with
             | Some s => shutdown_and_close s raises
             | None => []
             end) = closes_if_shut o raises.
Proof. destruct o, raises; reflexivity. Qed.



(** X20. When the shutdown has run while the listener was blocked in
    [accept], and [accept] raises only once the shutdown has cleared
    [rtsp_server_socket], the [finally] clause of the listener finds the
    global cleared and closes nothing: the listening socket is closed
    once, by the shutdown, and by neither of them when its [shutdown]
    call raised. *)
Theorem listener_woken_after_shutdown_closes_nothing
  (s : sock) (client : option sock) (io : cleanup_io) (errno : Z) :
  let g := {| rtsp_server_socket := Some s; rtsp_client_socket := client |} in
  let (acts, g') := stop_server_cleanup g io in
  let '(acts2, g2, blocked) := accept_loop g' [AcceptRaises errno] in
  blocked = false /\
  closed_by acts2 = [] /\
  closed_by (acts ++ acts2) =
    (if server_shutdown_raises io then [] else [s]) ++
    closes_if_shut client (client_shutdown_raises io) /\
  rtsp_server_socket g2 = None.
Proof.
  cbn zeta. unfold stop_server_cleanup, accept_loop, listener_finally, report.
  cbn [rtsp_server_socket rtsp_client_socket].
  split; [reflexivity|]. split; [destruct (errno =? 98); reflexivity|].
  split; [|reflexivity].
  rewrite closed_by_app. cbn [closed_by].
  rewrite !closed_by_app, (closed_by_shutdown client).
  destruct (errno =? 98), (server_shutdown_raises io),
    (server_thread_alive io), (rtp_thread_alive io); cbn;
    rewrite app_nil_r; reflexivity.
Qed.


Lemma run_events_snoc p es e :
  run_events p (es ++ [e]) = run_event (run_events p es) e.
Proof. unfold run_events. rewrite fold_left_app. reflexivity. Qed.

Lemma run_events_no_listener es :
  rtsp_server_socket (globals_of (run_events just_started es)) = None.
Proof.
  induction es as [|e es IH] using rev_ind; [reflexivity|].
  rewrite run_events_snoc. destruct e as [c | c | io]; cbn; auto.
Qed.

Lemma run_events_registered es :
  rtsp_client_socket (globals_of (run_events just_started es)) =
  registered_after es.
Proof.
  unfold registered_after.
  induction es as [|e es _] using rev_ind; [reflexivity|].
  rewrite run_events_snoc, map_app. cbn [map]. rewrite last_last.
  destruct e as [c | c | io]; reflexivity.
Qed.

(** X21. Handlers share one global for "the" client socket: each stores
    its socket there when it starts and clears it when it ends, whichever
    connection is registered at that moment.  Taking each of these
    stores and each shutdown as one event, in any order: the shutdown
    closes at most one client connection, the one whose handler started
    after every other event, and none at all when the last event was a
    handler ending or an earlier shutdown, or when its [shutdown] call
    raises; all other open connections are left as they are. *)
Theorem shutdown_closes_only_the_registered_client
  (es : list event) (io : cleanup_io) :
  let p := run_events just_started es in
  let p' := run_event p (Cleanup io) in
  rtsp_client_socket (globals_of p) = registered_after es /\
  open_connections p' =
    match registered_after es with
    | Some c =>
        if client_shutdown_raises io then open_connections p
        else remove_sock c (open_connections p)
    | None => open_connections p
    end /\
  rtsp_client_socket (globals_of p') = None.
Proof.
  cbn zeta. pose proof (run_events_no_listener es) as Hsrv.
  pose proof (run_events_registered es) as Hreg.
  split; [exact Hreg|].
  unfold run_event, stop_server_cleanup. rewrite Hsrv, Hreg.
  cbn [globals_of open_connections rtsp_client_socket app closed_by].
  split; [|reflexivity].
  rewrite closed_by_app.
  destruct (registered_after es) as [c|];
    destruct (server_thread_alive io), (rtp_thread_alive io),
      (client_shutdown_raises io); reflexivity.
Qed.

(** Two handlers running, the one that started last ends first: the
    shutdown closes nothing and the other connection stays open. *)
Example shutdown_misses_the_older_connection (io : cleanup_io) :
  open_connections
    (run_events just_started
       [HandlerStarts 1%nat; HandlerStarts 2%nat; HandlerEnds 2%nat;
        Cleanup io])
  = [1%nat].
Proof.
  unfold run_events. cbn [fold_left].
  destruct io as [a b c d]; destruct a, b, c, d; reflexivity.
Qed.

End SupervisorFacts.

(* ===================================================================== *)
(** ** Properties of the globals under every interleaving                *)
(* ===================================================================== *)

Section InterleavingFacts.
Import Py Rtp Rtsp Interleaving.

Lemma set_nth_In_new {A} (l : list A) h x :
  (h < length l)%nat -> In x (Server.set_nth l h x).
Proof.
  revert h. induction l as [|y l IH]; intros [|h] H; cbn in *; try lia;
    [left; reflexivity | right; apply IH; lia].
Qed.

Lemma set_nth_In_other {A} (l : list A) h x y z :
  In x l -> nth_error l h = Some y -> y <> x -> In x (Server.set_nth l h z).
Proof.
  revert h. induction l as [|w l IH]; intros [|h] Hin Hy Hne; cbn in *;
    try contradiction.
  - injection Hy as ->. destruct Hin as [-> | Hin]; [contradiction|].
    right. exact Hin.
  - destruct Hin as [-> | Hin]; [left; reflexivity|].
    right. eapply IH; eassumption.
Qed.

Lemma stands_lt s h pc : stands s h pc -> (h < length (handlers s))%nat.
Proof. unfold stands. intros H. apply nth_error_Some. rewrite H. discriminate. Qed.

Lemma object_lt (l : list thread_object) t o :
  nth_error l t = Some o -> (t < length l)%nat.
Proof. intros H. apply nth_error_Some. rewrite H. discriminate. Qed.

(** Starting is for good: an object that was started stays so when any
    object is updated with a started one. *)
Lemma started_kept (l : list thread_object) t o' i :
  was_started o' = true ->
  (exists o, nth_error l i = Some o /\ was_started o = true) ->
  exists o, nth_error (Server.set_nth l t o') i = Some o /\
            was_started o = true.
Proof.
  intros Ho' (o & Hi & Ho).
  destruct (Nat.eq_dec i t) as [-> | Hne].
  - exists o'. split; [|exact Ho'].
    apply set_nth_same. eapply object_lt. exact Hi.
  - exists o. split; [|exact Ho]. rewrite set_nth_other by exact Hne. exact Hi.
Qed.

Lemma started_kept_app (l : list thread_object) extra i :
  (exists o, nth_error l i = Some o /\ was_started o = true) ->
  exists o, nth_error (l ++ extra) i = Some o /\ was_started o = true.
Proof.
  intros (o & Hi & Ho). exists o. split; [|exact Ho].
  rewrite nth_error_app1; [exact Hi | eapply object_lt; exact Hi].
Qed.

(** What holds at every instant. *)
Definition sound (s : state) : Prop :=
  match rtp_thread s with
  | None => objects s = []
  | Some t => S t = length (objects s)
  end /\
  sent_by_started s /\
  match rtp_thread s with
  | None => True
  | Some t =>
      (exists o, nth_error (objects s) t = Some o /\ was_started o = true) \/
      In AtDaemon (handlers s) \/ In AtStart (handlers s)
  end /\
  (streaming_active s = true ->
   objects s <> [] \/ In AtNewThread (handlers s)).

Lemma sound_initial : sound initial.
Proof.
  unfold sound, sent_by_started. cbn. repeat split; auto. discriminate.
Qed.

Ltac keep_handler Hst :=
  eapply set_nth_In_other; [eassumption | exact Hst | discriminate].

(** A step of a thread that was started keeps everything. *)
Lemma sound_thread s t o o' flag extra :
  sound s ->
  nth_error (objects s) t = Some o -> was_started o' = true ->
  (flag = true -> streaming_active s = true) ->
  sound {| streaming_active := flag; rtp_thread := rtp_thread s;
           objects := Server.set_nth (objects s) t o';
           handlers := handlers s;
           network := network s ++ map (pair t) extra |}.
Proof.
  intros (Ha & Hb & Hc & Hd) Ht Ho' Hflag.
  pose proof (object_lt _ _ _ Ht) as Hlt.
  unfold sound, sent_by_started in *.
  cbn [streaming_active rtp_thread objects handlers network].
  split; [|split; [|split]].
  - destruct (rtp_thread s); [rewrite set_nth_length; exact Ha|].
    rewrite Ha in Hlt. cbn [length] in Hlt. lia.
  - apply Forall_app. split.
    + eapply Forall_impl; [|exact Hb]. cbn beta. intros e He.
      apply started_kept; assumption.
    + apply Forall_forall. intros e He.
      apply in_map_iff in He as (p & <- & _). cbn [fst].
      exists o'. split; [apply set_nth_same; exact Hlt | exact Ho'].
  - destruct (rtp_thread s) as [t0|]; [|exact I].
    destruct Hc as [Hc | Hc]; [left | right; exact Hc].
    apply started_kept; assumption.
  - intros Hf. destruct (Hd (Hflag Hf)) as [Hne | Hin]; [left | right; exact Hin].
    intros Hnil. apply Hne. destruct (objects s); [reflexivity|].
    destruct t; discriminate.
Qed.

Lemma sound_step s s' : sound s -> step s s' -> sound s'.
Proof.
  intros Hs Hstep. pose proof Hs as (Ha & Hb & Hc & Hd).
  destruct Hstep as [ | h Hst Hflag | h Hst | h Hst | h t o Hst Hrt Ho
                    | h t o Hst Hrt Ho | h Hst | h Hst |
                    | t opened Ht | t sq Ht | t sq io Ht Hact ].
  - (* accept *)
    unfold sound, sent_by_started in *.
    cbn [accepts streaming_active rtp_thread objects handlers network].
    split; [exact Ha|]. split; [exact Hb|]. split.
    + destruct (rtp_thread s); [|exact I].
      destruct Hc as [Hc | [Hc | Hc]]; auto using in_or_app.
    + intros Hf. destruct (Hd Hf); auto using in_or_app.
  - (* line 164 *)
    unfold sound, sent_by_started in *.
    cbn [moves streaming_active rtp_thread objects handlers network].
    split; [exact Ha|]. split; [exact Hb|]. split.
    + destruct (rtp_thread s); [|exact I].
      destruct Hc as [Hc | [Hc | Hc]]; [left; exact Hc | |].
      * right; left. keep_handler Hst.
      * right; right. keep_handler Hst.
    + intros Hf. rewrite Hf in Hflag. discriminate.
  - (* line 167 *)
    unfold sound, sent_by_started in *.
    cbn [stores moves streaming_active rtp_thread objects handlers network].
    split; [exact Ha|]. split; [exact Hb|]. split.
    + destruct (rtp_thread s); [|exact I].
      destruct Hc as [Hc | [Hc | Hc]]; [left; exact Hc | |].
      * right; left. keep_handler Hst.
      * right; right. keep_handler Hst.
    + intros _. right. apply set_nth_In_new. eapply stands_lt. exact Hst.
  - (* line 168 *)
    unfold sound, sent_by_started in *.
    cbn [new_thread moves streaming_active rtp_thread objects handlers
         network].
    rewrite length_app. cbn [length]. split; [lia|]. split; [|split].
    + eapply Forall_impl; [|exact Hb]. cbn beta. intros e He.
      apply started_kept_app. exact He.
    + right; left. apply set_nth_In_new. eapply stands_lt. exact Hst.
    + intros _. left. destruct (objects s); discriminate.
  - (* line 169 *)
    unfold sound, sent_by_started in *.
    cbn [moves streaming_active rtp_thread objects handlers network].
    split; [exact Ha|]. split; [exact Hb|]. split.
    + rewrite Hrt. destruct (was_started o) eqn:Eo.
      * left. exists o. auto.
      * right; right. apply set_nth_In_new. eapply stands_lt. exact Hst.
    + intros Hf. destruct (Hd Hf) as [Hne | Hin]; [left; exact Hne|].
      right. keep_handler Hst.
  - (* line 170 *)
    destruct (was_started o) eqn:Eo.
    + unfold sound, sent_by_started in *.
      cbn [moves streaming_active rtp_thread objects handlers network].
      split; [exact Ha|]. split; [exact Hb|]. split.
      * rewrite Hrt. left. exists o. auto.
      * intros Hf. destruct (Hd Hf) as [Hne | Hin]; [left; exact Hne|].
        right. keep_handler Hst.
    + pose proof (object_lt _ _ _ Ho) as Hlt.
      unfold sound, sent_by_started in *.
      cbn [becomes moves streaming_active rtp_thread objects handlers
           network].
      rewrite Hrt in Ha |- *. rewrite set_nth_length.
      split; [exact Ha|]. split; [|split].
      * eapply Forall_impl; [|exact Hb]. cbn beta. intros e He.
        apply started_kept; [reflexivity | exact He].
      * left. exists (Started Opening).
        split; [apply set_nth_same; exact Hlt | reflexivity].
      * intros Hf. left. intros Hnil.
        apply (f_equal (@length _)) in Hnil.
        rewrite set_nth_length in Hnil. cbn [length] in Hnil. lia.
  - (* line 184 *)
    unfold sound, sent_by_started in *.
    cbn [stores moves streaming_active rtp_thread objects handlers network].
    split; [exact Ha|]. split; [exact Hb|]. split; [|discriminate].
    destruct (rtp_thread s); [|exact I].
    destruct Hc as [Hc | [Hc | Hc]]; [left; exact Hc | |].
    + right; left. keep_handler Hst.
    + right; right. keep_handler Hst.
  - (* the handler leaves its loop *)
    unfold sound, sent_by_started in *.
    cbn [moves streaming_active rtp_thread objects handlers network].
    split; [exact Ha|]. split; [exact Hb|]. split.
    + destruct (rtp_thread s); [|exact I].
      destruct Hc as [Hc | [Hc | Hc]]; [left; exact Hc | |].
      * right; left. keep_handler Hst.
      * right; right. keep_handler Hst.
    + intros Hf. destruct (Hd Hf) as [Hne | Hin]; [left; exact Hne|].
      right. keep_handler Hst.
  - (* line 291 *)
    unfold sound, sent_by_started in *.
    cbn [stores streaming_active rtp_thread objects handlers network].
    repeat split; try assumption. discriminate.
  - (* the thread opens its source *)
    unfold after_pass. eapply sound_thread; [exact Hs | exact Ht | reflexivity |].
    destruct (pr_clears_active (stream_open opened)); [discriminate | auto].
  - (* line 84 *)
    replace (becomes s t (if streaming_active s then InBody sq
                          else Started Returned))
      with {| streaming_active := streaming_active s;
              rtp_thread := rtp_thread s;
              objects := Server.set_nth (objects s) t
                           (if streaming_active s then InBody sq
                            else Started Returned);
              handlers := handlers s;
              network := network s ++ map (pair t) [] |}
      by (unfold becomes; cbn [map]; rewrite app_nil_r; reflexivity).
    eapply sound_thread; [exact Hs | exact Ht | | auto].
    destruct (streaming_active s); reflexivity.
  - (* the body of the loop *)
    unfold after_pass. eapply sound_thread; [exact Hs | exact Ht | reflexivity |].
    destruct (pr_clears_active _); [discriminate | auto].
Qed.

Lemma sound_runs s s' : sound s -> runs s s' -> sound s'.
Proof.
  intros Hs Hruns. induction Hruns as [|s' s'' _ IH Hstep]; [exact Hs|].
  eapply sound_step; eassumption.
Qed.

Lemma set_nth_last {A} (l : list A) x y :
  Server.set_nth (l ++ [x]) (length l) y = l ++ [y].
Proof.
  induction l as [|z l IH]; cbn; [reflexivity|]. rewrite IH. reflexivity.
Qed.

Lemma nth_error_last {A} (l : list A) x :
  nth_error (l ++ [x]) (length l) = Some x.
Proof. rewrite nth_error_app2, Nat.sub_diag by lia. reflexivity. Qed.

Lemma state_ext (a b : state) :
  streaming_active a = streaming_active b -> rtp_thread a = rtp_thread b ->
  objects a = objects b -> handlers a = handlers b ->
  network a = network b -> a = b.
Proof. destruct a, b. cbn. intros -> -> -> -> ->. reflexivity. Qed.

Lemma set_nth_twice {A} (l : list A) t x y :
  Server.set_nth (Server.set_nth l t x) t y = Server.set_nth l t y.
Proof.
  revert t. induction l as [|z l IH]; intros [|t]; cbn; try reflexivity.
  rewrite IH. reflexivity.
Qed.

Lemma set_nth_map {A B} (f : A -> B) (l : list A) t x :
  Server.set_nth (map f l) t (f x) = map f (Server.set_nth l t x).
Proof.
  revert t. induction l as [|z l IH]; intros [|t]; cbn; try reflexivity.
  rewrite IH. reflexivity.
Qed.

Lemma runs_step s s' : step s s' -> runs s s'.
Proof. intros H. eapply runs_on; [apply runs_here | exact H]. Qed.

Lemma runs_trans s s' s'' : runs s s' -> runs s' s'' -> runs s s''.
Proof.
  intros H1 H2. induction H2 as [|s2 s3 _ IH Hstep]; [exact H1|].
  eapply runs_on; eassumption.
Qed.

(** What a pass of a handler does to the shared state: nothing, the
    stores of the PLAY branch entered with the flag read as clear, or the
    store of the TEARDOWN branch. *)
Lemma handler_pass_kinds (s : Server.state) (io : request_io) :
  let s' := fold_left Server.apply_effect (fst (handle_request io)) s in
  s' = s \/
  (streaming_active_seen io = false /\
   s' = Server.apply_effect
          (Server.apply_effect s (SetStreamingActive true)) StartRtpThread) \/
  s' = Server.apply_effect s (SetStreamingActive false).
Proof.
  cbn zeta. unfold handle_request.
  destruct (rx io) as [b | e]; [|left; reflexivity].
  destruct (decode_utf8 b) as [[|c data]|]; try (left; reflexivity).
  destruct (dispatch (c :: data)); cbn [run_command response_of];
    unfold send_then, prepend; destruct (tx_raises io);
    cbn [fst snd app fold_left Server.apply_effect];
    try (left; reflexivity).
  - destruct (streaming_active_seen io); cbn [negb app fold_left];
      [left; reflexivity | right; left; split; reflexivity].
  - destruct (streaming_active_seen io); cbn [negb app fold_left];
      [left; reflexivity | right; left; split; reflexivity].
  - right; right. destruct (rtp_thread_alive io); reflexivity.
  - right; right. destruct (rtp_thread_alive io); reflexivity.
Qed.

(** Every step of the request-level process is a run at statement level:
    the statements of the pass, without another thread between them. *)
Lemma request_step_is_a_run (s s' : Server.state) (hs : list handler_pc) :
  Server.step s s' -> exists hs', runs (of_server s hs) (of_server s' hs').
Proof.
  intros Hstep.
  destruct Hstep as [io Hseen Halive | t st opened io Hth Hal Hseen].
  - destruct (handler_pass_kinds s io) as [-> | [(Hclear & ->) | ->]].
    + exists hs. apply runs_here.
    + rewrite Hseen in Hclear. exists (hs ++ [Elsewhere]).
      set (h := length hs).
      set (s0 := accepts (of_server s hs)).
      assert (Hh : forall pc, nth_error (hs ++ [pc]) h = Some pc).
      { intros pc. unfold h. rewrite nth_error_app2, Nat.sub_diag by lia.
        reflexivity. }
      set (s1 := moves s0 h AtSetFlag).
      set (s2 := stores (moves s1 h AtNewThread) true).
      set (s3 := new_thread (moves s2 h AtDaemon)).
      set (s4 := moves s3 h AtStart).
      set (s5 := becomes (moves s4 h Elsewhere)
                   (length (Server.threads s)) (Started Opening)).
      assert (L : length (map Started (Server.threads s))
                  = length (Server.threads s)) by apply length_map.
      assert (G1 : handlers s1 = hs ++ [AtSetFlag])
        by (change (handlers s1)
              with (Server.set_nth (hs ++ [Elsewhere]) (length hs) AtSetFlag);
            apply set_nth_last).
      assert (G2 : handlers s2 = hs ++ [AtNewThread])
        by (change (handlers s2)
              with (Server.set_nth (handlers s1) (length hs) AtNewThread);
            rewrite G1; apply set_nth_last).
      assert (G3 : handlers s3 = hs ++ [AtDaemon])
        by (change (handlers s3)
              with (Server.set_nth (handlers s2) (length hs) AtDaemon);
            rewrite G2; apply set_nth_last).
      assert (G4 : handlers s4 = hs ++ [AtStart])
        by (change (handlers s4)
              with (Server.set_nth (handlers s3) (length hs) AtStart);
            rewrite G3; apply set_nth_last).
      assert (O3 : nth_error (objects s3) (length (Server.threads s))
                   = Some Created).
      { change (objects s3) with (map Started (Server.threads s) ++ [Created]).
        rewrite <- L. apply nth_error_last. }
      assert (P3 : rtp_thread s3 = Some (length (Server.threads s))).
      { change (rtp_thread s3)
          with (Some (length (map Started (Server.threads s)))).
        rewrite L. reflexivity. }
      assert (E5 : s5 = of_server
                     (Server.apply_effect
                        (Server.apply_effect s (SetStreamingActive true))
                        StartRtpThread) (hs ++ [Elsewhere])).
      { apply state_ext.
        - reflexivity.
        - exact P3.
        - change (objects s5)
            with (Server.set_nth (map Started (Server.threads s) ++ [Created])
                    (length (Server.threads s)) (Started Opening)).
          rewrite <- L, set_nth_last.
          unfold of_server.
          cbn [objects Server.apply_effect Server.threads].
          rewrite map_app. reflexivity.
        - change (handlers s5)
            with (Server.set_nth (handlers s4) (length hs) Elsewhere).
          rewrite G4. apply set_nth_last.
        - reflexivity. }
      rewrite <- E5.
      assert (R1 : step (of_server s hs) s0) by apply accept_connection.
      assert (R2 : step s0 s1).
      { apply play_test; [apply Hh | exact Hclear]. }
      assert (R3 : step s1 s2).
      { apply play_set_flag. unfold stands. rewrite G1. apply Hh. }
      assert (R4 : step s2 s3).
      { apply play_new_thread. unfold stands. rewrite G2. apply Hh. }
      assert (R5 : step s3 s4).
      { apply (play_daemon s3 h (length (Server.threads s)) Created);
          [unfold stands; rewrite G3; apply Hh | exact P3 | exact O3]. }
      assert (R6 : step s4 s5).
      { apply (play_start s4 h (length (Server.threads s)) Created);
          [unfold stands; rewrite G4; apply Hh | exact P3 | exact O3]. }
      repeat (eapply runs_on; [|eassumption]). apply runs_here.
    + exists (hs ++ [Leaving]).
      assert (E : stores (moves (accepts (of_server s hs)) (length hs) Leaving)
                    false
                  = of_server (Server.apply_effect s (SetStreamingActive false))
                      (hs ++ [Leaving])).
      { unfold of_server, stores, moves, accepts.
        cbn [streaming_active rtp_thread objects handlers network
             Server.apply_effect Server.streaming_active Server.rtp_thread
             Server.threads Server.network].
        rewrite set_nth_last. reflexivity. }
      rewrite <- E.
      eapply runs_on; [apply runs_step, accept_connection|].
      apply teardown_store.
      change (nth_error (hs ++ [Elsewhere]) (length hs) = Some Elsewhere).
      apply nth_error_last.
  - exists hs.
    assert (Hobj : nth_error (objects (of_server s hs)) t = Some (Started st))
      by (unfold of_server; cbn [objects]; rewrite nth_error_map, Hth;
          reflexivity).
    assert (Eafter : forall r,
               after_pass (of_server s hs) t r =
               of_server (Server.apply_pass s t r) hs).
    { intros r. unfold after_pass, of_server, Server.apply_pass.
      cbn [streaming_active rtp_thread objects handlers network
           Server.streaming_active Server.rtp_thread Server.threads
           Server.network].
      rewrite set_nth_map. reflexivity. }
    destruct st as [|sq| |]; try discriminate; cbn [stream_step].
    + rewrite <- Eafter. apply runs_step, thread_opens. exact Hobj.
    + destruct (Server.streaming_active s) eqn:Eflag.
      * rewrite <- Eafter.
        assert (R1 : step (of_server s hs)
                       (becomes (of_server s hs) t (InBody sq))).
        { pose proof (thread_tests (of_server s hs) t sq Hobj) as R.
          unfold of_server at 3 in R. cbn [streaming_active] in R.
          rewrite Eflag in R. exact R. }
        eapply runs_on; [apply runs_step; exact R1|].
        replace (after_pass (of_server s hs) t
                   (stream_pass MAX_PACKET_SIZE io sq))
          with (after_pass (becomes (of_server s hs) t (InBody sq)) t
                  (stream_pass MAX_PACKET_SIZE io sq))
          by (unfold after_pass, becomes;
              cbn [streaming_active rtp_thread objects handlers network];
              rewrite set_nth_twice; reflexivity).
        apply thread_pass; [|congruence].
        unfold becomes. cbn [objects]. apply set_nth_same.
        eapply object_lt. exact Hobj.
      * assert (Epass : stream_pass MAX_PACKET_SIZE io sq =
                        {| pr_sent := []; pr_clears_active := false;
                           pr_next := Returned |})
          by (unfold stream_pass; rewrite Hseen; reflexivity).
        rewrite Epass, <- Eafter.
        pose proof (thread_tests (of_server s hs) t sq Hobj) as R.
        unfold of_server at 3 in R. cbn [streaming_active] in R.
        rewrite Eflag in R.
        replace (after_pass (of_server s hs) t
                   {| pr_sent := []; pr_clears_active := false;
                      pr_next := Returned |})
          with (becomes (of_server s hs) t (Started Returned))
          by (unfold after_pass, becomes;
              cbn [pr_sent pr_clears_active pr_next map];
              rewrite app_nil_r; reflexivity).
        apply runs_step. exact R.
Qed.

(** So every state the request-level process reaches is reached at
    statement level as well. *)
Lemma request_level_run_is_a_run (s : Server.state) :
  Server.reachable s -> exists hs, reachable (of_server s hs).
Proof.
  induction 1 as [|s s' _ [hs IH] Hstep].
  - exists []. apply runs_here.
  - destruct (request_step_is_a_run s s' hs Hstep) as [hs' Hruns].
    exists hs'. eapply runs_trans; eassumption.
Qed.

(** The run with two streaming threads at once is a run at statement
    level too. *)
Example two_streamers_statement_level :
  exists hs, reachable (of_server Inputs.run8 hs).
Proof. apply request_level_run_is_a_run. exact run8_reachable. Qed.

Lemma race_runs : reachable race6 /\ runs race6 race8.
Proof.
  assert (H0 : reachable race0).
  { unfold reachable, race0. eapply runs_on; [eapply runs_on; [apply runs_here|]|];
      apply accept_connection. }
  assert (H1 : reachable race1).
  { unfold reachable, race1.
    eapply runs_on; [eapply runs_on; [exact H0|]|].
    - apply (play_test race0 0%nat); reflexivity.
    - apply (play_test (moves race0 0 AtSetFlag) 1%nat); reflexivity. }
  assert (H2 : reachable race2).
  { eapply runs_on; [exact H1|]. apply (play_set_flag race1 0%nat). reflexivity. }
  assert (H3 : reachable race3).
  { eapply runs_on; [exact H2|]. apply (play_new_thread race2 0%nat). reflexivity. }
  assert (H4 : reachable race4).
  { eapply runs_on; [exact H3|].
    apply (play_daemon race3 0%nat 0%nat Created); reflexivity. }
  assert (H5 : reachable race5).
  { eapply runs_on; [exact H4|]. apply (play_set_flag race4 1%nat). reflexivity. }
  assert (H6 : reachable race6).
  { eapply runs_on; [exact H5|]. apply (play_new_thread race5 1%nat). reflexivity. }
  split; [exact H6|].
  eapply runs_on; [eapply runs_on; [apply runs_here|]|].
  - apply (play_start race6 0%nat 1%nat Created); reflexivity.
  - apply (play_daemon race7 1%nat 1%nat (Started Opening)); reflexivity.
Defined.

(** X11. At every instant, however the statements of the handlers, the
    passes of the streaming threads and the shutdown interleave:
    [rtp_thread] is unset exactly as long as no thread object was stored
    and refers to the object stored last afterwards (nothing ever clears
    it, so TEARDOWN and the shutdown test and join only the newest
    thread); every datagram on the network was sent by a thread that was
    started; the newest object has been started unless some handler
    stands before line 169 or 170; and [streaming_active] is set only if
    a thread object exists or some handler stands before line 168. *)
Theorem rtp_thread_is_the_newest (s : state) :
  reachable s ->
  match rtp_thread s with
  | None => objects s = []
  | Some t => S t = length (objects s)
  end /\
  sent_by_started s /\
  match rtp_thread s with
  | None => True
  | Some t =>
      (exists o, nth_error (objects s) t = Some o /\ was_started o = true) \/
      In AtDaemon (handlers s) \/ In AtStart (handlers s)
  end /\
  (streaming_active s = true ->
   objects s <> [] \/ In AtNewThread (handlers s)).
Proof. intros Hreach. exact (sound_runs initial s sound_initial Hreach). Qed.

Lemma rtp_thread_is_the_newest_witness :
  reachable race6 /\
  match rtp_thread race6 with
  | None => objects race6 = []
  | Some t => S t = length (objects race6)
  end /\
  sent_by_started race6 /\
  match rtp_thread race6 with
  | None => True
  | Some t =>
      (exists o, nth_error (objects race6) t = Some o /\
                 was_started o = true) \/
      In AtDaemon (handlers race6) \/ In AtStart (handlers race6)
  end /\
  (streaming_active race6 = true ->
   objects race6 <> [] \/ In AtNewThread (handlers race6)).
Proof.
  split; [exact (proj1 race_runs)|].
  exact (rtp_thread_is_the_newest race6 (proj1 race_runs)).
Defined.

(** The flag is set while no thread object exists yet: a handler stands
    between lines 167 and 168. *)
Example flag_set_before_any_thread :
  reachable race2 /\ streaming_active race2 = true /\ objects race2 = [] /\
  handlers race2 = [AtNewThread; AtSetFlag].
Proof.
  split; [|repeat split].
  eapply runs_on.
  - eapply runs_on; [eapply runs_on|].
    + eapply runs_on; [eapply runs_on; [apply runs_here|]|];
        apply accept_connection.
    + apply (play_test race0 0%nat); reflexivity.
    + apply (play_test (moves race0 0 AtSetFlag) 1%nat); reflexivity.
  - apply (play_set_flag race1 0%nat). reflexivity.
Qed.

Lemma overtaken_step s s' i :
  sound s -> step s s' ->
  nth_error (objects s) i = Some Created -> rtp_thread s <> Some i ->
  nth_error (objects s') i = Some Created /\ rtp_thread s' <> Some i.
Proof.
  intros (Ha & _) Hstep Hi Hrt.
  pose proof (object_lt _ _ _ Hi) as Hlt.
  assert (Hthread : forall t o o',
             nth_error (objects s) t = Some o -> was_started o = true ->
             nth_error (Server.set_nth (objects s) t o') i = Some Created).
  { intros t o o' Ht Ho. rewrite set_nth_other; [exact Hi|].
    intros ->. rewrite Hi in Ht. injection Ht as <-. discriminate. }
  destruct Hstep as [ | h Hst Hflag | h Hst | h Hst | h t o Hst Hrt' Ho
                    | h t o Hst Hrt' Ho | h Hst | h Hst |
                    | t opened Ht | t sq Ht | t sq io Ht Hact ];
    cbn [accepts moves stores new_thread becomes after_pass
         streaming_active rtp_thread objects handlers network];
    try (split; assumption).
  - split; [rewrite nth_error_app1 by exact Hlt; exact Hi|].
    intros H. injection H as H. lia.
  - destruct (was_started o) eqn:Eo;
      cbn [moves becomes rtp_thread objects]; [split; assumption|].
    split; [|exact Hrt]. rewrite set_nth_other; [exact Hi|].
    intros ->. apply Hrt. exact Hrt'.
  - split; [|exact Hrt]. eapply Hthread; [exact Ht | reflexivity].
  - split; [|exact Hrt]. eapply Hthread; [exact Ht | reflexivity].
  - split; [|exact Hrt]. eapply Hthread; [exact Ht | reflexivity].
Qed.

(** X23. Lines 169 and 170 go through the global again.  So a thread
    object that is no longer the one [rtp_thread] refers to before its
    [start()] was called (another PLAY stored its own object meanwhile)
    is never started, whatever happens afterwards: the streaming thread
    of that PLAY never runs. *)
Theorem overtaken_thread_is_never_started (s s' : state) (i : nat) :
  reachable s ->
  runs s s' ->
  nth_error (objects s) i = Some Created ->
  rtp_thread s <> Some i ->
  nth_error (objects s') i = Some Created /\ rtp_thread s' <> Some i.
Proof.
  intros Hreach Hruns Hi Hrt.
  pose proof (sound_runs initial s sound_initial Hreach) as Hs.
  induction Hruns as [|s' s'' Hruns IH Hstep]; [split; assumption|].
  destruct IH as [Hi' Hrt'].
  eapply overtaken_step; [|exact Hstep | exact Hi' | exact Hrt'].
  eapply sound_runs; eassumption.
Qed.

Lemma overtaken_thread_is_never_started_witness :
  reachable race6 /\
  runs race6 race8 /\
  nth_error (objects race6) 0 = Some Created /\
  rtp_thread race6 <> Some 0%nat /\
  (nth_error (objects race8) 0 = Some Created /\
   rtp_thread race8 <> Some 0%nat) /\
  objects race8 = [Created; Started Opening] /\
  handlers race8 = [Elsewhere; Leaving].
Proof.
  assert (H1 : nth_error (objects race6) 0 = Some Created) by reflexivity.
  assert (H2 : rtp_thread race6 <> Some 0%nat) by discriminate.
  split; [exact (proj1 race_runs)|]. split; [exact (proj2 race_runs)|].
  split; [exact H1|]. split; [exact H2|].
  split; [|split; reflexivity].
  exact (overtaken_thread_is_never_started race6 race8 0
           (proj1 race_runs) (proj2 race_runs) H1 H2).
Defined.

Lemma finished_step s s' t st :
  step s s' ->
  nth_error (objects s) t = Some (Started st) -> Server.is_alive st = false ->
  nth_error (objects s') t = Some (Started st) /\ sent_by t s' = sent_by t s.
Proof.
  intros Hstep Ht Hdead.
  pose proof (object_lt _ _ _ Ht) as Hlt.
  assert (Hother : forall t0 o o' sent,
             nth_error (objects s) t0 = Some o ->
             o <> Started st ->
             nth_error (Server.set_nth (objects s) t0 o') t = Some (Started st) /\
             map snd (filter (fun e => Nat.eqb (fst e) t)
                        (network s ++ map (pair t0) sent)) = sent_by t s).
  { intros t0 o o' sent Ht0 Hne.
    assert (Hneq : t <> t0)
      by (intros ->; rewrite Ht in Ht0; injection Ht0 as <-; contradiction).
    split; [rewrite set_nth_other by exact Hneq; exact Ht|].
    rewrite filter_app, map_app, filter_sender_other, app_nil_r by exact Hneq.
    reflexivity. }
  destruct Hstep as [ | h Hst Hflag | h Hst | h Hst | h t0 o Hst Hrt Ho
                    | h t0 o Hst Hrt Ho | h Hst | h Hst |
                    | t0 opened Ht0 | t0 sq Ht0 | t0 sq io Ht0 Hact ];
    unfold sent_by;
    cbn [accepts moves stores new_thread becomes after_pass
         streaming_active rtp_thread objects handlers network];
    try (split; [exact Ht | reflexivity]).
  - split; [|reflexivity]. rewrite nth_error_app1 by exact Hlt. exact Ht.
  - destruct (was_started o) eqn:Eo;
      cbn [moves becomes objects network]; [split; [exact Ht | reflexivity]|].
    split; [|reflexivity].
    rewrite set_nth_other; [exact Ht|].
    intros ->. rewrite Ht in Ho. injection Ho as <-. discriminate.
  - eapply Hother; [exact Ht0|]. intros E. injection E as <-. discriminate.
  - destruct (Hother t0 _ (if streaming_active s then InBody sq
                           else Started Returned) [] Ht0) as [H1 _].
    { intros E. injection E as <-. discriminate. }
    split; [exact H1 | reflexivity].
  - eapply Hother; [exact Ht0 | discriminate].
Qed.

(** X22. A streaming thread that has returned or died is never revived:
    whatever statements the handlers, the other streaming threads and the
    shutdown execute afterwards, in whatever order, it stays as it ended
    and puts no further datagram on the network.  Streaming resumes only
    through a new thread object. *)
Theorem finished_thread_never_sends_again (s s' : state) (t : nat)
  (st : thread_state) :
  runs s s' ->
  nth_error (objects s) t = Some (Started st) ->
  Server.is_alive st = false ->
  nth_error (objects s') t = Some (Started st) /\ sent_by t s' = sent_by t s.
Proof.
  intros Hruns Ht Hdead.
  induction Hruns as [|s' s'' _ IH Hstep]; [split; [exact Ht | reflexivity]|].
  destruct IH as [Ht' Hsent].
  destruct (finished_step s' s'' t st Hstep Ht' Hdead) as [Ht'' Hsent'].
  split; [exact Ht'' | rewrite Hsent'; exact Hsent].
Qed.

Lemma play_runs (s : state) (t : nat) :
  stands s 0 Elsewhere -> streaming_active s = false ->
  length (objects s) = t ->
  runs s (becomes
            (moves
               (moves
                  (new_thread
                     (moves
                        (stores (moves (moves s 0 AtSetFlag) 0 AtNewThread)
                                true) 0 AtDaemon)) 0 AtStart) 0 Elsewhere)
            t (Started Opening)).
Proof.
  intros Hst Hflag <-.
  assert (Hlt : (0 < length (handlers s))%nat) by (eapply stands_lt; exact Hst).
  assert (Hpc : forall (l : list handler_pc) pc, (0 < length l)%nat ->
                  nth_error (Server.set_nth l 0 pc) 0 = Some pc)
    by (intros [|x l] pc H; [cbn in H; lia | reflexivity]).
  assert (Hlen : forall (l : list handler_pc) pc, (0 < length l)%nat ->
                   (0 < length (Server.set_nth l 0 pc))%nat)
    by (intros l pc H; rewrite set_nth_length; exact H).
  assert (Hat : forall (l : list handler_pc) pc, (0 < length l)%nat ->
                  forall s0, handlers s0 = Server.set_nth l 0 pc ->
                  stands s0 0 pc)
    by (intros l pc H s0 E; unfold stands; rewrite E; apply Hpc; exact H).
  eapply runs_on; [eapply runs_on; [eapply runs_on;
    [eapply runs_on; [apply runs_step|]|]|]|].
  - apply play_test; [exact Hst | exact Hflag].
  - apply play_set_flag. eapply Hat; [|reflexivity]. exact Hlt.
  - apply play_new_thread. eapply Hat; [|reflexivity].
    repeat apply Hlen. exact Hlt.
  - apply (play_daemon _ 0%nat (length (objects s)) Created);
      [eapply Hat; [|reflexivity]; repeat apply Hlen; exact Hlt
      | reflexivity | apply nth_error_last].
  - apply (play_start _ 0%nat (length (objects s)) Created);
      [eapply Hat; [|reflexivity]; repeat apply Hlen; exact Hlt
      | reflexivity | apply nth_error_last].
Qed.

Lemma retry_runs : runs retry3 retry5.
Proof. apply (play_runs retry3 1); reflexivity. Defined.

Lemma finished_thread_never_sends_again_witness :
  runs retry3 retry5 /\
  nth_error (objects retry3) 0 = Some (Started Returned) /\
  Server.is_alive Returned = false /\
  (nth_error (objects retry5) 0 = Some (Started Returned) /\
   sent_by 0 retry5 = sent_by 0 retry3) /\
  objects retry5 = [Started Returned; Started Opening].
Proof.
  assert (H1 : nth_error (objects retry3) 0 = Some (Started Returned))
    by reflexivity.
  assert (H2 : Server.is_alive Returned = false) by reflexivity.
  split; [exact retry_runs|]. split; [exact H1|]. split; [exact H2|].
  split; [|reflexivity].
  exact (finished_thread_never_sends_again retry3 retry5 0 Returned
           retry_runs H1 H2).
Defined.

(** The run above starts at the beginning of the process. *)
Example retry_reachable : reachable retry3.
Proof.
  assert (H2 : runs retry0 retry2)
    by (apply (play_runs retry0 0); reflexivity).
  unfold reachable.
  eapply runs_on; [eapply runs_trans; [apply runs_step, accept_connection
                                       | exact H2]|].
  apply (thread_opens retry2 0%nat false). reflexivity.
Qed.

End InterleavingFacts.

(* ===================================================================== *)
(** ** Properties of the text sent and received                          *)
(* ===================================================================== *)

Section Utf8Facts.
Import Py Rtsp Utf8.

Lemma land_low (x : Z) (n : Z) : 0 <= n -> Z.land x (2 ^ n - 1) = x mod 2 ^ n.
Proof.
  intros Hn. replace (2 ^ n - 1) with (Z.ones n)
    by (rewrite Z.ones_equiv; lia).
  apply Z.land_ones. exact Hn.
Qed.

Ltac to_arith :=
  unfold is_cont, cont_bits;
  change 63 with (2 ^ 6 - 1); change 31 with (2 ^ 5 - 1);
  change 15 with (2 ^ 4 - 1); change 7 with (2 ^ 3 - 1);
  rewrite ?land_low, ?Z.shiftr_div_pow2, ?Z.shiftl_mul_pow2 by lia;
  change (2 ^ 6) with 64; change (2 ^ 5) with 32; change (2 ^ 4) with 16;
  change (2 ^ 3) with 8; change (2 ^ 12) with 4096;
  change (2 ^ 18) with 262144.

Ltac arith := Z.div_mod_to_equations; lia.

Ltac decide_tests :=
  repeat match goal with
  | |- context [?a <=? ?b] =>
      first [ replace (a <=? b) with true by (symmetry; apply Z.leb_le; arith)
            | replace (a <=? b) with false by (symmetry; apply Z.leb_gt; arith) ]
  | |- context [?a <? ?b] =>
      first [ replace (a <? b) with true by (symmetry; apply Z.ltb_lt; arith)
            | replace (a <? b) with false by (symmetry; apply Z.ltb_ge; arith) ]
  | |- context [?a =? ?b] =>
      first [ replace (a =? b) with true by (symmetry; apply Z.eqb_eq; arith)
            | replace (a =? b) with false by (symmetry; apply Z.eqb_neq; arith) ]
  end.

Lemma decode_encode_char c rest :
  scalar c ->
  decode_utf8 (encode_char c ++ rest) = option_map (cons c) (decode_utf8 rest).
Proof.
  intros Hc. unfold encode_char.
  destruct (Z.ltb_spec c 128) as [H1 | H1].
  { cbn [app decode_utf8]. unfold scalar in Hc. decide_tests. reflexivity. }
  destruct (Z.ltb_spec c 2048) as [H2 | H2].
  { cbn [app decode_utf8]. to_arith. decide_tests. cbn [andb].
    f_equal. f_equal. arith. }
  destruct (Z.ltb_spec c 65536) as [H3 | H3].
  { cbn [app decode_utf8]. to_arith. unfold scalar in Hc.
    decide_tests. cbn [andb].
    destruct (Z.eqb_spec (224 + c / 4096) 224);
      destruct (Z.eqb_spec (224 + c / 4096) 237);
      decide_tests; cbn [andb]; f_equal; f_equal; arith. }
  cbn [app decode_utf8]. to_arith. unfold scalar in Hc.
  decide_tests. cbn [andb].
  destruct (Z.eqb_spec (240 + c / 262144) 240);
    destruct (Z.eqb_spec (240 + c / 262144) 244);
    decide_tests; cbn [andb]; f_equal; f_equal; arith.
Qed.

(** Encoding a text without surrogates and decoding it gives the text. *)
Lemma decode_encode (s : str) :
  Forall scalar s -> decode_utf8 (encode_utf8 s) = Some s.
Proof.
  induction 1 as [|c s Hc _ IH]; [reflexivity|].
  unfold encode_utf8 in *. cbn [flat_map].
  rewrite decode_encode_char, IH by exact Hc. reflexivity.
Qed.

Ltac bool_hyps :=
  unfold is_cont in *;
  repeat match goal with
  | H : _ && _ = true |- _ => apply andb_prop in H; destruct H
  | H : (_ <=? _) = true |- _ => apply Z.leb_le in H
  | H : (_ <? _) = true |- _ => apply Z.ltb_lt in H
  end.

Ltac head_decoded H :=
  match type of H with
  | option_map _ ?o = Some _ =>
      let s' := fresh "s'" in
      let Hrest := fresh "Hrest" in
      destruct o as [s'|] eqn:Hrest; [|discriminate H];
      cbn [option_map] in H; injection H as <-
  end.

Ltac encoded_back :=
  unfold encode_char; to_arith; decide_tests; cbn [app];
  repeat (f_equal; try arith).

#[local] Opaque Z.shiftl Z.land.

(** Decoding takes one code point off the front: a scalar value whose
    encoding is the octets consumed. *)
Lemma decode_utf8_head b0 r0 s :
  decode_utf8 (b0 :: r0) = Some s ->
  exists c s' r,
    s = c :: s' /\ scalar c /\ b0 :: r0 = encode_char c ++ r /\
    decode_utf8 r = Some s' /\ (length r <= length r0)%nat.
Proof.
  cbn [decode_utf8].
  destruct ((0 <=? b0) && (b0 <? 128)) eqn:E1.
  { intros H. head_decoded H. bool_hyps.
    exists b0, s', r0. split; [reflexivity|].
    split; [unfold scalar; lia|].
    split; [encoded_back|]. split; [assumption | lia]. }
  destruct ((194 <=? b0) && (b0 <=? 223)) eqn:E2.
  { destruct r0 as [|b1 r1]; [discriminate|].
    destruct (is_cont b1) eqn:E3; [|discriminate].
    intros H. head_decoded H. bool_hyps.
    eexists _, s', r1. split; [reflexivity|].
    split; [to_arith; unfold scalar; arith|].
    split; [to_arith; encoded_back|]. split; [assumption | cbn; lia]. }
  destruct ((224 <=? b0) && (b0 <=? 239)) eqn:E3.
  { destruct r0 as [|b1 [|b2 r2]]; try discriminate. cbv zeta.
    match goal with |- (if ?c then _ else _) = _ -> _ =>
      destruct c eqn:E4; [|discriminate] end.
    intros H. head_decoded H.
    destruct (Z.eqb_spec b0 224); destruct (Z.eqb_spec b0 237); bool_hyps;
      try lia;
      (eexists _, s', r2; split; [reflexivity|];
       split; [to_arith; unfold scalar; arith|];
       split; [to_arith; encoded_back|]; split; [assumption | cbn; lia]). }
  destruct ((240 <=? b0) && (b0 <=? 244)) eqn:E4; [|discriminate].
  destruct r0 as [|b1 [|b2 [|b3 r3]]]; try discriminate. cbv zeta.
  match goal with |- (if ?c then _ else _) = _ -> _ =>
    destruct c eqn:E5; [|discriminate] end.
  intros H. head_decoded H.
  destruct (Z.eqb_spec b0 240); destruct (Z.eqb_spec b0 244); bool_hyps;
    try lia;
    (eexists _, s', r3; split; [reflexivity|];
     split; [to_arith; unfold scalar; arith|];
     split; [to_arith; encoded_back|]; split; [assumption | cbn; lia]).
Qed.

#[local] Transparent Z.shiftl Z.land.

Lemma decode_utf8_sound_upto (n : nat) : forall b s,
  (length b <= n)%nat -> decode_utf8 b = Some s ->
  Forall scalar s /\ encode_utf8 s = b.
Proof.
  induction n as [|n IH]; intros b s Hlen H.
  - destruct b; [|cbn [length] in Hlen; lia].
    cbn [decode_utf8] in H. injection H as <-.
    split; [constructor | reflexivity].
  - destruct b as [|b0 r0].
    + cbn [decode_utf8] in H. injection H as <-.
      split; [constructor | reflexivity].
    + apply decode_utf8_head in H as (c & s' & r & -> & Hc & Hb & Hr & Hl).
      destruct (IH r s') as [Hs He]; [cbn [length] in Hlen; lia | exact Hr |].
      split; [constructor; assumption|].
      unfold encode_utf8 in *. cbn [flat_map]. rewrite He. symmetry. exact Hb.
Qed.

(** What a strict decode returns holds no surrogate, and encodes back to
    the bytes decoded. *)
Lemma decode_utf8_sound b s :
  decode_utf8 b = Some s -> Forall scalar s /\ encode_utf8 s = b.
Proof. apply (decode_utf8_sound_upto (length b)). lia. Qed.

Section Kept.

Variable P : Z -> Prop.

Lemma lstrip_keeps s : Forall P s -> Forall P (lstrip s).
Proof.
  induction 1 as [|c s Hc Hs IH]; cbn [lstrip]; [constructor|].
  destruct (isspace c); [exact IH | constructor; assumption].
Qed.

Lemma strip_keeps s : Forall P s -> Forall P (strip s).
Proof.
  intros H. unfold strip.
  apply Forall_rev, lstrip_keeps, Forall_rev, lstrip_keeps, H.
Qed.

Lemma split_scan_keeps sep s : forall skip cur,
  Forall P s -> Forall P cur -> Forall (Forall P) (split_scan sep s skip cur).
Proof.
  induction s as [|c s IH]; intros skip cur Hs Hcur; cbn [split_scan].
  - constructor; [apply Forall_rev; exact Hcur | constructor].
  - inversion Hs as [|? ? Hc Hs']; subst.
    destruct skip as [|k]; [|apply IH; assumption].
    destruct (startswith (c :: s) sep).
    + constructor; [apply Forall_rev; exact Hcur|].
      apply IH; [assumption | constructor].
    + apply IH; [assumption | constructor; assumption].
Qed.

Lemma nth_keeps (l : list str) i : Forall (Forall P) l -> Forall P (nth i l []).
Proof.
  intros H. destruct (nth_in_or_default i l []) as [Hin | ->]; [|constructor].
  rewrite Forall_forall in H. apply H. exact Hin.
Qed.

Lemma scan_cseq_keeps lines d :
  Forall (Forall P) lines -> Forall P d -> Forall P (scan_cseq lines d).
Proof.
  induction 1 as [|line rest Hl Hr IH]; intros Hd; cbn [scan_cseq];
    [exact Hd|].
  destruct (startswith line (lit "CSeq:")); [|apply IH; exact Hd].
  apply strip_keeps, nth_keeps. unfold split.
  apply split_scan_keeps; [exact Hl | constructor].
Qed.

End Kept.

Lemma lit_scalar s : Forall scalar (lit s).
Proof.
  unfold lit. apply Forall_forall. intros x Hx.
  apply in_map_iff in Hx as (a & <- & _).
  pose proof (Ascii.N_ascii_bounded a). unfold scalar. lia.
Qed.

Lemma crlf_scalar : Forall scalar crlf.
Proof. repeat constructor; unfold scalar, CR, LF; lia. Qed.

Lemma str_of_int_scalar n : Forall scalar (str_of_int n).
Proof.
  unfold str_of_int, str_of_nat.
  destruct (n <? 0); [apply Forall_app; split|]; apply lit_scalar.
Qed.

(** The [cseq] cut out of a request holds only code points of the
    request (or is the default). *)
Lemma parse_cseq_scalar data :
  Forall scalar data -> Forall scalar (parse_cseq data).
Proof.
  intros H. unfold parse_cseq. apply scan_cseq_keeps; [|apply lit_scalar].
  unfold split. apply split_scan_keeps; [exact H | constructor].
Qed.

Lemma response_scalar c cseq :
  Forall scalar cseq -> Forall scalar (response_of c cseq).
Proof.
  intros H. pose proof crlf_scalar as Hcrlf.
  destruct c; unfold response_of, setup_response, play_response,
    teardown_response, describe_response, describe_headers, sdp_payload,
    options_response, bad_request_response, status_ok;
    rewrite ?Forall_app; repeat split;
    first [assumption | apply lit_scalar | apply str_of_int_scalar].
Qed.

(** What a branch passes to [sendall] is the encoding of its response. *)
Lemma run_command_sends io c cseq b :
  In (SendAll b) (fst (run_command io c cseq)) ->
  b = encode_utf8 (response_of c cseq).
Proof.
  unfold run_command, send_then, prepend.
  destruct c, (tx_raises io), (streaming_active_seen io),
    (rtp_thread_alive io);
    cbn [fst snd app negb In response_of]; intros H;
    repeat (destruct H as [H | H]; try discriminate H);
    try contradiction; injection H as <-; reflexivity.
Qed.

(** X24. Every response the handler passes to [sendall] is the UTF-8
    encoding of the response text its branch built from a request that
    decoded; that text holds no surrogate, so [encode] does not raise,
    and a client that decodes the bytes reads exactly the text. *)
Theorem responses_decode_back io b :
  In (SendAll b) (fst (handle_request io)) ->
  exists data,
    request_text io = Some data /\
    Forall scalar (response_of (dispatch data) (parse_cseq data)) /\
    b = encode_utf8 (response_of (dispatch data) (parse_cseq data)) /\
    decode_utf8 b = Some (response_of (dispatch data) (parse_cseq data)).
Proof.
  unfold handle_request, request_text.
  destruct (rx io) as [b0 | e]; [|intros []].
  destruct (decode_utf8 b0) as [data|] eqn:Hd; [|intros []].
  destruct data as [|c data]; [intros []|].
  cbv beta iota. intros Hin. exists (c :: data).
  apply run_command_sends in Hin.
  apply decode_utf8_sound in Hd as [Hs _].
  assert (Hr : Forall scalar
                 (response_of (dispatch (c :: data)) (parse_cseq (c :: data))))
    by (apply response_scalar, parse_cseq_scalar, Hs).
  split; [reflexivity|]. split; [exact Hr|]. split; [exact Hin|].
  rewrite Hin. apply decode_encode. exact Hr.
Qed.

Lemma responses_decode_back_witness :
  let io := Inputs.arrives Inputs.describe_text false false in
  let b := encode_utf8 (describe_response (lit "2")) in
  In (SendAll b) (fst (handle_request io)) /\
  exists data,
    request_text io = Some data /\
    Forall scalar (response_of (dispatch data) (parse_cseq data)) /\
    b = encode_utf8 (response_of (dispatch data) (parse_cseq data)) /\
    decode_utf8 b = Some (response_of (dispatch data) (parse_cseq data)).
Proof.
  intros io b.
  assert (H : In (SendAll b) (fst (handle_request io)))
    by (vm_compute; left; reflexivity).
  split; [exact H|].
  exact (responses_decode_back io b H).
Defined.

(** X25. The handler gets a request text exactly when [recv] returned
    the UTF-8 encoding of a text without surrogates: the bytes determine
    the text and the text the bytes, and anything else (a truncated or
    overlong form, an encoded surrogate, a stray continuation octet)
    raises [UnicodeDecodeError]. *)
Theorem request_text_iff_encoding io data :
  request_text io = Some data <->
  Forall scalar data /\ rx io = Received (encode_utf8 data).
Proof.
  unfold request_text. split.
  - destruct (rx io) as [b | e]; [|discriminate].
    intros H. apply decode_utf8_sound in H as [Hs He].
    split; [exact Hs | rewrite He; reflexivity].
  - intros [Hs ->]. apply decode_encode. exact Hs.
Qed.

End Utf8Facts.
